(** * hex-snake: a shallow embedding of the game core and of the Q-learning
    coordinator, with the properties of the specification settled on it.

    Sources embedded: [utils.py] (Cell, Grid), [agents.py] (Snake, Bot),
    [snake.py] (Game), [network.py] (DQNetwork) and the episode loop of
    [train.py].

    Conventions of the embedding.
    - Python integers are [Z]. The float that decides a branch of the
      game, the distance [n ** 0.5], is a binary64 number (see [Num],
      [float_of_int] and [float_sqrt]). The floats of the learner - the
      hyper-parameters and the predicted values - are exact rationals [Q]:
      their rounding is left out.
    - A raised exception is [Raise e]; a computation that returns is [Ok v].
      The state a call leaves behind when it raises is not modelled.
    - A [Cell] object lives in exactly one [Grid]; the grid's constructor
      creates one object per coordinate, so a reference to a cell object is
      modelled by the cell's (immutable) coordinates and the grid is the
      store read and written through such references.
    - Calls to [random] take the drawn number as an explicit argument. *)

From Stdlib Require Import String ZArith QArith Reals List Bool Lia Lqa.
From stdpp Require Import base list.
Import ListNotations.

Local Open Scope Z_scope.

(** ** Exceptions *)

Inductive Exn : Set :=
  StopIteration | IndexError | KeyError | ValueError | AxisError.

Inductive result (A : Type) : Type :=
| Ok (a : A)
| Raise (e : Exn).
Arguments Ok {A} a.
Arguments Raise {A} e.

Definition bind {A B : Type} (m : result A) (k : A -> result B) : result B :=
  match m with
  | Ok a => k a
  | Raise e => Raise e
  end.

Notation "x <- m ;; k" := (bind m (fun x => k))
  (at level 90, m at level 89, right associativity).

(** [range(n)] for a Python integer [n]. *)
Definition range (n : Z) : list Z := map Z.of_nat (seq 0 (Z.to_nat n)).

(** ** utils.py *)

Module Cell.

(** [Cell.Type], with the [value] of each member. *)
Inductive CType : Set := NORMAL | BOUND | SNAKE | BOT | FRUIT.

Definition value (t : CType) : Z :=
  match t with
  | NORMAL => 0 | BOUND => 1 | SNAKE => 2 | BOT => 3 | FRUIT => 4
  end.

Definition eqb (a b : CType) : bool := value a =? value b.

Record t : Set := mk { x : Z; y : Z; cell_type : CType }.

(** The setter of the [cell_type] property. *)
Definition set_cell_type (c : t) (v : CType) : t :=
  {| x := x c; y := y c; cell_type := v |}.

End Cell.

Import Cell(NORMAL, BOUND, SNAKE, BOT, FRUIT).

(** A reference to a cell object of the grid. *)
Definition Ref : Set := (Z * Z)%type.

Definition ref (c : Cell.t) : Ref := (Cell.x c, Cell.y c).

Definition Ref_eqb (a b : Ref) : bool :=
  (fst a =? fst b) && (snd a =? snd b).

Record Grid : Set := mkGrid { rows : Z; cols : Z; cells : list Cell.t }.

(** [Grid.__is_edge]: [not all((i, j, rows - 1 - i, cols - 1 - j))]. *)
Definition is_edge (rows cols i j : Z) : bool :=
  negb (negb (i =? 0) && negb (j =? 0)
        && negb (rows - 1 - i =? 0) && negb (cols - 1 - j =? 0)).

(** [Grid.__init__]: one cell per [(i, j)], row-major. *)
Definition Grid_init (rows cols : Z) : Grid :=
  {| rows := rows; cols := cols;
     cells := flat_map (fun i =>
                map (fun j => Cell.mk i j (if is_edge rows cols i j
                                           then BOUND else NORMAL))
                    (range cols))
              (range rows) |}.

(** [Grid.__getitem__] on a tuple: the first cell with these coordinates. *)
Definition Grid_at (g : Grid) (key : Z * Z) : result Cell.t :=
  match find (fun cell => Ref_eqb (ref cell) key) (cells g) with
  | Some cell => Ok cell
  | None => Raise StopIteration
  end.

(** [Grid.__getitem__] on a [Cell.Type]: every cell of that type. *)
Definition Grid_of_type (g : Grid) (key : Cell.CType) : list Cell.t :=
  List.filter (fun cell => Cell.eqb (Cell.cell_type cell) key) (cells g).

(** Assignment [cell.cell_type = v] through a reference [r]. *)
Definition assign_type (g : Grid) (r : Ref) (v : Cell.CType) : Grid :=
  {| rows := rows g; cols := cols g;
     cells := map (fun cell => if Ref_eqb (ref cell) r
                               then Cell.set_cell_type cell v else cell)
                  (cells g) |}.

(** The type currently read through a reference. *)
Definition type_at (g : Grid) (r : Ref) : result Cell.CType :=
  cell <- Grid_at g r ;; Ok (Cell.cell_type cell).

(** [random.choice(seq)] with the drawn number [rnd]. *)
Definition random_choice {A : Type} (l : list A) (rnd : nat) : result A :=
  match l !! (rnd mod length l)%nat with
  | Some a => Ok a
  | None => Raise IndexError
  end.

(** ** agents.py *)

(** [Snake.Direction], members in definition (iteration) order. *)
Inductive Direction : Set :=
| NORTH | NORTH_EAST | NORTH_WEST | SOUTH | SOUTH_WEST | SOUTH_EAST.

Definition Direction_value (d : Direction) : Z :=
  match d with
  | NORTH => 0 | NORTH_EAST => 1 | NORTH_WEST => 2
  | SOUTH => 3 | SOUTH_WEST => 4 | SOUTH_EAST => 5
  end.

Definition Direction_members : list Direction :=
  [NORTH; NORTH_EAST; NORTH_WEST; SOUTH; SOUTH_WEST; SOUTH_EAST].

(** [Direction(action)]: the member with that value, else [ValueError]. *)
Definition Direction_of_value (v : Z) : result Direction :=
  match find (fun d => Direction_value d =? v) Direction_members with
  | Some d => Ok d
  | None => Raise ValueError
  end.

(** [KeyboardListener.VALID_KEYS] *)
Definition VALID_KEYS : list string := ["w"; "e"; "q"; "s"; "a"; "d"]%string.

(** [KEY_TO_DIRECTION = dict(zip(VALID_KEYS, Direction))] *)
Definition KEY_TO_DIRECTION : list (string * Direction) :=
  combine VALID_KEYS Direction_members.

Definition KEY_TO_DIRECTION_getitem (key : string) : result Direction :=
  match find (fun kv => String.eqb (fst kv) key) KEY_TO_DIRECTION with
  | Some kv => Ok (snd kv)
  | None => Raise KeyError
  end.

Record Snake : Set := mkSnake {
  _current_direction : Direction;
  _head : Ref;
  _previous_head : Ref;
  _snake_type : Cell.CType;
  _score : Z;
  _body : list Ref;           (* the deque, index 0 first *)
  _lost : bool
}.

(** [Snake.__init__]: the head cell is tagged with the snake's type. *)
Definition Snake_init (g : Grid) (head : Cell.t) (current_direction : Direction)
    (snake_type : Cell.CType) : Snake * Grid :=
  ({| _current_direction := current_direction;
      _head := ref head; _previous_head := ref head;
      _snake_type := snake_type; _score := 0;
      _body := [ref head]; _lost := false |},
   assign_type g (ref head) snake_type).

(** [Snake.is_opposite_direction] *)
Definition is_opposite_direction (self : Snake) (direction_value : Z) : bool :=
  (Direction_value (_current_direction self) =? direction_value - 3)
  || (Direction_value (_current_direction self) =? direction_value + 3).

Definition set_direction (self : Snake) (d : Direction) : Snake :=
  {| _current_direction := d;
     _head := _head self; _previous_head := _previous_head self;
     _snake_type := _snake_type self; _score := _score self;
     _body := _body self; _lost := _lost self |}.

(** [Snake.update_direction(key)] *)
Definition Snake_update_direction (self : Snake) (key : string) : result Snake :=
  new_direction <- KEY_TO_DIRECTION_getitem key ;;
  if negb (is_opposite_direction self (Direction_value new_direction))
  then Ok (set_direction self new_direction)
  else Ok self.

(** The [position_change] table: per direction, the pair of shifts
    indexed by [0] and [1]. *)
Definition position_change (d : Direction) : (Z * Z) * (Z * Z) :=
  match d with
  | NORTH_EAST => ((0, 1), (-1, 1))
  | NORTH_WEST => ((0, -1), (-1, -1))
  | SOUTH_EAST => ((1, 1), (0, 1))
  | SOUTH_WEST => ((1, -1), (0, -1))
  | NORTH => ((-1, 0), (-1, 0))
  | SOUTH => ((1, 0), (1, 0))
  end.

(** [Snake._head_position_change]:
    [position_change[direction][self._head.y % 2]], where [y] is the
    second coordinate of the head cell. *)
Definition _head_position_change (self : Snake) (direction : Direction) : Z * Z :=
  if snd (_head self) mod 2 =? 0
  then fst (position_change direction)
  else snd (position_change direction).

(** The loop [for i in range(len(body) - 1, 0, -1): body[i] = body[i - 1]],
    entered with [i] iterations left. *)
Fixpoint shift_loop (i : nat) (body : list Ref) : list Ref :=
  match i with
  | O => body
  | S j =>
      match body !! j with
      | Some prev => shift_loop j (<[S j := prev]> body)
      | None => body
      end
  end.

(** [value in range(1, 4)] *)
Definition in_range_1_4 (v : Z) : bool := (1 <=? v) && (v <? 4).

(** [Snake.remove_body] *)
Definition remove_body (self : Snake) (g : Grid) : Snake * Grid :=
  ({| _current_direction := _current_direction self;
      _head := _head self; _previous_head := _previous_head self;
      _snake_type := _snake_type self; _score := _score self;
      _body := []; _lost := true |},
   fold_left (fun g cell => assign_type g cell NORMAL) (_body self) g).

Definition set_body (self : Snake) (body : list Ref) : Snake :=
  {| _current_direction := _current_direction self;
     _head := _head self; _previous_head := _previous_head self;
     _snake_type := _snake_type self; _score := _score self;
     _body := body; _lost := _lost self |}.

(** [Game._insert_fruit] (snake.py); it only touches the grid. *)
Definition _insert_fruit (g : Grid) (rnd : nat) : result Grid :=
  cell <- random_choice (Grid_of_type g NORMAL) rnd ;;
  Ok (assign_type g (ref cell) FRUIT).

(** [Snake.move(game)]; [rnd] is the number drawn if a fruit is respawned. *)
Definition move (self : Snake) (g : Grid) (rnd : nat) : result (Snake * Grid) :=
  let '(x_delta, y_delta) := _head_position_change self (_current_direction self) in
  new_head <- Grid_at g (fst (_head self) + x_delta, snd (_head self) + y_delta) ;;
  tail <- match last (_body self) with
          | Some c => Ok c
          | None => Raise IndexError
          end ;;
  let body := shift_loop (length (_body self) - 1) (_body self) in
  if in_range_1_4 (Cell.value (Cell.cell_type new_head)) then
    Ok (remove_body (set_body self (body ++ [tail])) g)
  else
    grown <-
       (if Cell.eqb (Cell.cell_type new_head) FRUIT then
          g' <- _insert_fruit g rnd ;;
          Ok (_score self + 10, body ++ [tail], g')
        else
          Ok (_score self, body, assign_type g tail NORMAL)) ;;
    let '(score, body, g) := grown in
    Ok ({| _current_direction := _current_direction self;
           _head := ref new_head; _previous_head := _head self;
           _snake_type := _snake_type self; _score := score;
           _body := <[0%nat := ref new_head]> body; _lost := _lost self |},
        assign_type g (ref new_head) (_snake_type self)).

(** Numbers that observations carry: Python integers, and the floats
    [n ** 0.5] of [__calculate_distance], kept by their radicand [n], a
    Python integer that is never negative. *)
Inductive Num : Set :=
| Int (z : Z)
| Sqrt (z : Z).

(** *** binary64

    [n ** 0.5] converts the integer [n] to a binary64 number and takes its
    root. Both results are kept exactly, as integers: the converted
    radicand is an integer, and a root that is not 0 is at least 1, hence a
    multiple of 2^-52. *)

(** [float(n)] for [n >= 0]: [n] rounded to 53 significant bits, ties to
    the even neighbour. (From 2^1024 on the conversion raises
    [OverflowError]; the cells of a grid are the elements of one Python
    list, which keeps every radicand far below that.) *)
Definition float_of_int (n : Z) : Z :=
  let shift := Z.log2 n - 52 in
  if shift <=? 0 then n
  else
    let q := n / 2 ^ shift in
    let r := n mod 2 ^ shift in
    let half := 2 ^ (shift - 1) in
    (if (r <? half) || ((r =? half) && Z.even q) then q else q + 1)
    * 2 ^ shift.

(** [x ** 0.5] for a float [x >= 0] of integer value, in units of 2^-52:
    the root rounded to 53 significant bits, [m * 2 ^ (k - 52)] with
    [4^k <= x < 4^(k+1)]. The platform's [pow] may differ from this
    rounding by one unit in the last place. *)
Definition float_sqrt (x : Z) : Z :=
  if x <=? 0 then 0
  else
    let k := Z.log2 x / 2 in
    let r := Z.sqrt (x * 4 ^ 52 / 4 ^ k) in
    (if (2 * r + 1) ^ 2 * 4 ^ k <? 4 * (x * 4 ^ 52) then r + 1 else r)
    * 2 ^ k.

(** The value of a [Num], in units of 2^-52. *)
Definition Num_value (n : Num) : Z :=
  match n with
  | Int z => z * 2 ^ 52
  | Sqrt z => float_sqrt (float_of_int z)
  end.

(** [a < b] on two numbers, as Python compares them: by their values. *)
Definition distance_ltb (a b : Num) : bool := Num_value a <? Num_value b.

(** [class Bot(Snake)]: the inherited state and [__previous_score]. *)
Record Bot : Set := mkBot {
  snake : Snake;
  __previous_score : Z
}.

(** [Bot.__init__] *)
Definition Bot_init (g : Grid) (head : Cell.t) (current_direction : Direction)
    (snake_type : Cell.CType) : Bot * Grid :=
  let '(s, g') := Snake_init g head current_direction snake_type in
  ({| snake := s; __previous_score := _score s |}, g').

(** [Bot.update_direction(action)] *)
Definition Bot_update_direction (self : Bot) (action : Z) : result Bot :=
  new_direction <- Direction_of_value action ;;
  if negb (is_opposite_direction (snake self) (Direction_value new_direction))
  then Ok {| snake := set_direction (snake self) new_direction;
             __previous_score := __previous_score self |}
  else Ok self.

(** [Bot.__calculate_distance] *)
Definition __calculate_distance (fruit head : Ref) : Num :=
  Sqrt ((fst fruit - fst head) ^ 2 + (snd fruit - snd head) ^ 2).

(** The first loop of [get_observation]: one flag per direction. *)
Fixpoint blocked_flags (self : Snake) (g : Grid) (ds : list Direction)
    : result (list Num) :=
  match ds with
  | [] => Ok []
  | direction :: ds' =>
      let '(x_change, y_change) := _head_position_change self direction in
      cell <- Grid_at g (fst (_head self) + x_change, snd (_head self) + y_change) ;;
      rest <- blocked_flags self g ds' ;;
      Ok (Int (if in_range_1_4 (Cell.value (Cell.cell_type cell)) then 1 else 0)
          :: rest)
  end.

(** The one-hot encoding of the fruit's direction in [get_observation]. *)
Definition fruit_position (fruit head : Ref) : list Z :=
  let fruit_position := replicate 8 0 in
  if fst fruit >? fst head then
    if snd fruit >? snd head then <[3%nat := 1]> fruit_position
    else if snd fruit <? snd head then <[5%nat := 1]> fruit_position
    else if snd fruit =? snd head then <[4%nat := 1]> fruit_position
    else fruit_position
  else if fst fruit <? fst head then
    if snd fruit >? snd head then <[1%nat := 1]> fruit_position
    else if snd fruit <? snd head then <[7%nat := 1]> fruit_position
    else if snd fruit =? snd head then <[0%nat := 1]> fruit_position
    else fruit_position
  else if fst fruit =? fst head then
    if snd fruit >? snd head then <[2%nat := 1]> fruit_position
    else if snd fruit <? snd head then <[6%nat := 1]> fruit_position
    else fruit_position
  else fruit_position.

(** The reward of [get_observation] and the updated [__previous_score]. *)
Definition reward_of (self : Bot) (fruit : Ref) : Z * Z :=
  let current_distance := __calculate_distance fruit (_head (snake self)) in
  if _score (snake self) >? __previous_score self then
    (10, _score (snake self))
  else
    let previous_distance :=
      __calculate_distance fruit (_previous_head (snake self)) in
    (if distance_ltb current_distance previous_distance then 2 else -3,
     __previous_score self).

(** [Bot.get_observation(grid)]: the state, the reward and the bot after
    the call. *)
Definition get_observation (self : Bot) (g : Grid)
    : result (list Num * Z * Bot) :=
  flags <- blocked_flags (snake self) g Direction_members ;;
  fruit <- match Grid_of_type g FRUIT with
           | f :: _ => Ok f
           | [] => Raise IndexError
           end ;;
  let state := flags ++ map Int (fruit_position (ref fruit) (_head (snake self))) in
  let current_distance := __calculate_distance (ref fruit) (_head (snake self)) in
  let '(reward, previous_score) := reward_of self (ref fruit) in
  Ok (state ++ [current_distance], reward,
      {| snake := snake self; __previous_score := previous_score |}).

(** ** snake.py *)

Inductive Mode : Set := SINGLE | BOT_MODE.

Inductive Player : Set :=
| Human (s : Snake)
| Robot (b : Bot).

Record Game : Set := mkGame {
  game_mode : Mode;
  grid : Grid;
  players : list Player
}.

(** [Game.__init__]; the policy a [BOT] game loads from a file is an
    external collaborator and is not part of the record. *)
Definition Game_init (rows cols : Z) (game_mode : Mode) : result Game :=
  let g := Grid_init rows cols in
  start <- Grid_at g (rows - 2, 1) ;;
  let '(player, g) := Snake_init g start NORTH_EAST SNAKE in
  match game_mode with
  | SINGLE => Ok {| game_mode := game_mode; grid := g; players := [Human player] |}
  | BOT_MODE =>
      start <- Grid_at g (rows - 2, cols - 2) ;;
      let '(bot, g) := Bot_init g start NORTH_WEST BOT in
      Ok {| game_mode := game_mode; grid := g;
            players := [Human player; Robot bot] |}
  end.

Definition player_lost (p : Player) : bool :=
  match p with
  | Human s => _lost s
  | Robot b => _lost (snake b)
  end.

(** [Game.get_active_players] *)
Definition get_active_players (game : Game) : list Player :=
  List.filter (fun x => negb (player_lost x)) (players game).

(** ** network.py *)

(** An observation, and a stored transition
    [(observation, action, reward, observation_, bot.lost)]. *)
Definition State : Set := list Num.
Definition Transition : Set := (State * Z * Z * State * bool)%type.

Definition Qgtb (a b : Q) : bool := negb (Qle_bool a b).
Definition Qltb (a b : Q) : bool := negb (Qle_bool b a).

(** A Python [bool] used as a number. *)
Definition Q_of_bool (b : bool) : Q := if b then 1%Q else 0%Q.

(** [np.max] of one row. *)
Definition row_max (row : list Q) : result Q :=
  match row with
  | [] => Raise ValueError
  | q :: row' => Ok (fold_left (fun m a => if Qltb m a then a else m) row' q)
  end.

(** [np.argmax] of one row: the first index of the maximum. *)
Fixpoint argmax_from (best : Q) (best_i i : Z) (row : list Q) : Z :=
  match row with
  | [] => best_i
  | q :: row' =>
      if Qltb best q then argmax_from q i (i + 1) row'
      else argmax_from best best_i (i + 1) row'
  end.

Definition row_argmax (row : list Q) : result Z :=
  match row with
  | [] => Raise ValueError
  | q :: row' => Ok (argmax_from q 0 1 row')
  end.

(** A numpy index into an axis of length [n]: negative indices wrap. *)
Definition np_index (n : nat) (a : Z) : result nat :=
  if (0 <=? a) && (a <? Z.of_nat n) then Ok (Z.to_nat a)
  else if (- Z.of_nat n <=? a) && (a <? 0) then Ok (Z.to_nat (a + Z.of_nat n))
  else Raise IndexError.

(** [deque.append] on a deque of bound [maxlen]. *)
Definition deque_append {A : Type} (maxlen : Z) (d : list A) (a : A) : list A :=
  let d' := d ++ [a] in
  if maxlen <? Z.of_nat (length d') then tail d' else d'.

(** [random.sample(population, k)]; [draw] lists the positions drawn. *)
Fixpoint pick {A : Type} (population : list A) (draw : list nat) : result (list A) :=
  match draw with
  | [] => Ok []
  | i :: draw' =>
      match population !! i with
      | Some a => rest <- pick population draw' ;; Ok (a :: rest)
      | None => Raise IndexError
      end
  end.

Definition random_sample {A : Type} (population : list A) (k : nat)
    (draw : list nat) : result (list A) :=
  if (length population <? k)%nat || negb (length draw =? k)%nat
  then Raise ValueError
  else pick population draw.

(** [np.squeeze(column, axis=1)] on a column that [np.hsplit] cut from the
    batch: the column of an empty batch has one dimension only, and numpy
    raises [AxisError] for its axis 1. *)
Definition np_squeeze_axis1 {A : Type} (column : list A) : result (list A) :=
  match column with
  | [] => Raise AxisError
  | _ :: _ => Ok column
  end.

(** Defaults of [DQNetwork.__init__]. *)
Definition default_epsilon_delta : Q := (1 # 100000)%Q.
Definition default_epsilon_final : Q := (1 # 100)%Q.
Definition default_memory_size : Z := 1000000.

Section DQN.

(** The function approximator is external: its type, its batched
    prediction and its batched update. *)
Variable Model : Type.
Variable predict : Model -> list State -> list (list Q).
Variable train_on_batch : Model -> list State -> list (list Q) -> Model.

Record DQNetwork : Type := mkDQNetwork {
  n_actions : Z;                 (* [action_space = range(n_actions)] *)
  gamma : Q;
  epsilon : Q;
  epsilon_delta : Q;
  epsilon_final : Q;
  batch_size : nat;
  memory_size : Z;               (* [maxlen] of [memory] *)
  memory : list Transition;      (* oldest first *)
  model : Model
}.

(** [DQNetwork.__init__] with the model it creates or loads;
    [deque(maxlen=memory_size)] refuses a negative bound. *)
Definition DQNetwork_init (gamma : Q) (n_actions : Z) (epsilon : Q)
    (batch_size : nat) (epsilon_delta epsilon_final : Q) (memory_size : Z)
    (model : Model) : result DQNetwork :=
  if memory_size <? 0 then Raise ValueError
  else
    Ok {| n_actions := n_actions; gamma := gamma; epsilon := epsilon;
          epsilon_delta := epsilon_delta; epsilon_final := epsilon_final;
          batch_size := batch_size; memory_size := memory_size;
          memory := []; model := model |}.

(** [DQNetwork.store_transition] *)
Definition store_transition (self : DQNetwork) (transition : Transition)
    : DQNetwork :=
  {| n_actions := n_actions self; gamma := gamma self; epsilon := epsilon self;
     epsilon_delta := epsilon_delta self; epsilon_final := epsilon_final self;
     batch_size := batch_size self; memory_size := memory_size self;
     memory := deque_append (memory_size self) (memory self) transition;
     model := model self |}.

(** [DQNetwork.choose_action]; [u] is [np.random.random()] and [r] the
    number drawn by [np.random.choice], which raises [ValueError] on an
    empty [action_space]. *)
Definition choose_action (self : DQNetwork) (observation : State)
    (u : Q) (r : nat) : result Z :=
  if Qltb u (epsilon self) then
    if n_actions self <=? 0 then Raise ValueError
    else random_choice (range (n_actions self)) r
  else
    match predict (model self) [observation] with
    | actions :: _ => row_argmax actions
    | [] => Raise ValueError
    end.

(** [rewards + gamma * np.max(q_next, axis=1) * dones], row by row. *)
Fixpoint target_values (gamma : Q) (batch : list Transition)
    (q_next : list (list Q)) : result (list Q) :=
  match batch, q_next with
  | [], [] => Ok []
  | (_, _, reward, _, done) :: batch', row :: q_next' =>
      m <- row_max row ;;
      rest <- target_values gamma batch' q_next' ;;
      Ok ((inject_Z reward + gamma * m * Q_of_bool done)%Q :: rest)
  | _, _ => Raise ValueError
  end.

(** [q_target[batch_index, actions] = values] *)
Fixpoint assign_targets (q_target : list (list Q)) (batch : list Transition)
    (values : list Q) : result (list (list Q)) :=
  match q_target, batch, values with
  | [], [], [] => Ok []
  | row :: q_target', (_, action, _, _, _) :: batch', v :: values' =>
      i <- np_index (length row) action ;;
      rest <- assign_targets q_target' batch' values' ;;
      Ok (<[i := v]> row :: rest)
  | _, _, _ => Raise IndexError
  end.

Definition states_of (batch : list Transition) : list State :=
  map (fun t => match t with (state, _, _, _, _) => state end) batch.

Definition next_states_of (batch : list Transition) : list State :=
  map (fun t => match t with (_, _, _, next_state, _) => next_state end) batch.

(** The [q_target] array that [train] hands to [train_on_batch]. *)
Definition q_target_of (self : DQNetwork) (batch : list Transition)
    : result (list (list Q)) :=
  let q_eval := predict (model self) (states_of batch) in
  let q_next := predict (model self) (next_states_of batch) in
  values <- target_values (gamma self) batch q_next ;;
  assign_targets q_eval batch values.

(** The new [epsilon] computed at the end of [train]; the subtraction is
    exact here and rounded to binary64 in the code. *)
Definition decayed_epsilon (self : DQNetwork) : Q :=
  if Qgtb (epsilon self) (epsilon_final self)
  then (epsilon self - epsilon_delta self)%Q
  else epsilon_final self.

(** [DQNetwork.train]; [draw] is the sample that [random.sample] draws. *)
Definition train (self : DQNetwork) (draw : list nat) : result DQNetwork :=
  if (length (memory self) <? 1000)%nat then Ok self
  else
    batch <- random_sample (memory self) (batch_size self) draw ;;
    _ <- np_squeeze_axis1 batch ;;
    q_target <- q_target_of self batch ;;
    Ok {| n_actions := n_actions self; gamma := gamma self;
          epsilon := decayed_epsilon self;
          epsilon_delta := epsilon_delta self;
          epsilon_final := epsilon_final self;
          batch_size := batch_size self; memory_size := memory_size self;
          memory := memory self;
          model := train_on_batch (model self) (states_of batch) q_target |}.

(** ** train.py: one turn of the episode loop *)

Record Episode : Type := mkEpisode {
  ep_model : DQNetwork;
  ep_grid : Grid;
  ep_bot : Bot;
  ep_observation : State;
  ep_score : Z
}.

(** The ten idle bots that [train.py] drops on Empty cells as obstacles;
    [rnds] are the numbers drawn, one per bot. *)
Fixpoint add_obstacles (g : Grid) (rnds : list nat) : result Grid :=
  match rnds with
  | [] => Ok g
  | rnd :: rnds' =>
      cell <- random_choice (Grid_of_type g NORMAL) rnd ;;
      add_obstacles (snd (Bot_init g cell NORTH_WEST BOT)) rnds'
  end.

(** The start of an episode: a new game, the bot in the corner, the
    obstacles, the first fruit, one move and the first observation. *)
Definition episode_start (net : DQNetwork) (obstacles : list nat)
    (rnd_fruit rnd_move : nat) : result Episode :=
  game <- Game_init 11 29 SINGLE ;;
  start <- Grid_at (grid game) (rows (grid game) - 2, cols (grid game) - 2) ;;
  let '(bot, g) := Bot_init (grid game) start NORTH_WEST BOT in
  g <- add_obstacles g obstacles ;;
  g <- _insert_fruit g rnd_fruit ;;
  moved <- move (snake bot) g rnd_move ;;
  let '(s, g) := moved in
  let bot := {| snake := s; __previous_score := __previous_score bot |} in
  seen <- get_observation bot g ;;
  let '(observation, _, bot) := seen in
  Ok {| ep_model := net; ep_grid := g; ep_bot := bot;
        ep_observation := observation; ep_score := 0 |}.

(** The transition built by one turn of [while not bot.lost]. (The loop
    also stops once its counter passes 5000; a turn does not know whether
    it is the last.) *)
Definition play_turn (ep : Episode) (u : Q) (r rnd : nat)
    : result (Transition * Grid * Bot) :=
  action <- choose_action (ep_model ep) (ep_observation ep) u r ;;
  bot <- Bot_update_direction (ep_bot ep) action ;;
  moved <- move (snake bot) (ep_grid ep) rnd ;;
  let '(s, g) := moved in
  let bot := {| snake := s; __previous_score := __previous_score bot |} in
  seen <- (if _lost (snake bot) then Ok (replicate 15 (Int 0), -10, bot)
           else get_observation bot g) ;;
  let '(observation_, reward, bot) := seen in
  Ok ((ep_observation ep, action, reward, observation_, _lost (snake bot)),
      g, bot).

(** The body of the loop: play, store the transition, train. *)
Definition episode_turn (ep : Episode) (u : Q) (r rnd : nat) (draw : list nat)
    : result Episode :=
  played <- play_turn ep u r rnd ;;
  let '(transition, g, bot) := played in
  let '(_, _, reward, observation_, _) := transition in
  net <- train (store_transition (ep_model ep) transition) draw ;;
  Ok {| ep_model := net; ep_grid := g; ep_bot := bot;
        ep_observation := observation_; ep_score := ep_score ep + reward |}.

End DQN.

Arguments mkDQNetwork {Model}.
Arguments n_actions {Model}.
Arguments gamma {Model}.
Arguments epsilon {Model}.
Arguments epsilon_delta {Model}.
Arguments epsilon_final {Model}.
Arguments batch_size {Model}.
Arguments memory_size {Model}.
Arguments memory {Model}.
Arguments model {Model}.
Arguments DQNetwork_init {Model}.
Arguments store_transition {Model}.
Arguments choose_action {Model}.
Arguments q_target_of {Model}.
Arguments decayed_epsilon {Model}.
Arguments train {Model}.
Arguments mkEpisode {Model}.
Arguments ep_model {Model}.
Arguments ep_grid {Model}.
Arguments ep_bot {Model}.
Arguments ep_observation {Model}.
Arguments ep_score {Model}.
Arguments episode_start {Model}.
Arguments play_turn {Model}.
Arguments episode_turn {Model}.

(** ** Vocabulary of the statements *)

(** The coordinate that [move] looks up: the head plus the shift of the
    current direction. *)
Definition candidate (self : Snake) : Z * Z :=
  (fst (_head self) + fst (_head_position_change self (_current_direction self)),
   snd (_head self) + snd (_head_position_change self (_current_direction self))).

(** A snake in play: not lost, and its deque starts with its head. *)
Definition live (self : Snake) : Prop :=
  _lost self = false /\ exists rest, _body self = _head self :: rest.

(** The cell types [move] treats as a collision. *)
Definition blocking (t : Cell.CType) : Prop :=
  t = BOUND \/ t = SNAKE \/ t = BOT.

(** What [remove_body] leaves in the grid: the cells referenced by the
    body are Empty, every other cell is as it was. *)
Definition cleared (body : list Ref) (c : Cell.t) : Cell.t :=
  if existsb (Ref_eqb (ref c)) body then Cell.set_cell_type c NORMAL else c.

(** The grid constructor creates one cell object per coordinate. *)
Definition Grid_wf (g : Grid) : Prop := List.NoDup (map ref (cells g)).

(** The shift that [position_change] holds, written out per direction
    and per parity of the head's second coordinate (its column). *)
Definition column_parity_delta (d : Direction) (column_even : bool) : Z * Z :=
  match d, column_even with
  | NORTH, _ => (-1, 0)
  | SOUTH, _ => (1, 0)
  | NORTH_EAST, true => (0, 1)
  | NORTH_WEST, true => (0, -1)
  | SOUTH_EAST, true => (1, 1)
  | SOUTH_WEST, true => (1, -1)
  | NORTH_EAST, false => (-1, 1)
  | NORTH_WEST, false => (-1, -1)
  | SOUTH_EAST, false => (0, 1)
  | SOUTH_WEST, false => (0, -1)
  end.

(** The table of section 4.1 of the specification, in its own words:
    the delta per direction and per parity of the head's row. It is not
    taken from the source; it is compared with it below. *)
Definition spec_table_delta (d : Direction) (row_even : bool) : Z * Z :=
  match d, row_even with
  | NORTH, _ => (-1, 0)
  | SOUTH, _ => (1, 0)
  | NORTH_EAST, true => (-1, 0)
  | NORTH_WEST, true => (-1, -1)
  | SOUTH_EAST, true => (0, 1)
  | SOUTH_WEST, true => (0, -1)
  | NORTH_EAST, false => (-1, 1)
  | NORTH_WEST, false => (-1, 0)
  | SOUTH_EAST, false => (1, 1)
  | SOUTH_WEST, false => (1, 0)
  end.

(** The human player of a fresh single-player game, and its grid. *)
Definition first_player (rows cols : Z) : result (Snake * Grid) :=
  game <- Game_init rows cols SINGLE ;;
  match players game with
  | Human s :: _ => Ok (s, grid game)
  | _ => Raise IndexError
  end.

(** The fixed opposite pairs N-S, NE-SW, NW-SE that the statements about
    [update_direction] refer to. *)
Definition opposite (d : Direction) : Direction :=
  match d with
  | NORTH => SOUTH | SOUTH => NORTH
  | NORTH_EAST => SOUTH_WEST | SOUTH_WEST => NORTH_EAST
  | NORTH_WEST => SOUTH_EAST | SOUTH_EAST => NORTH_WEST
  end.

(** The radicand of [__calculate_distance]: the squared distance. *)
Definition sq_dist (a b : Ref) : Z :=
  (fst a - fst b) ^ 2 + (snd a - snd b) ^ 2.

(** The Euclidean distance, as a real number. *)
Definition euclid (a b : Ref) : R :=
  sqrt ((IZR (fst a - fst b)) ^ 2 + (IZR (snd a - snd b)) ^ 2)%R.

(** The snake owns its cells: its tag is a body tag, no cell is in the
    deque twice, and every cell of the deque carries the tag. *)
Definition owns (self : Snake) (g : Grid) : Prop :=
  (_snake_type self = SNAKE \/ _snake_type self = BOT)
  /\ List.NoDup (_body self)
  /\ forall r, List.In r (_body self) -> type_at g r = Ok (_snake_type self).

(** ** Concrete collaborators for the runs evaluated below *)

(** An approximator that records every batch it is trained on and whose
    prediction is the same row for every state. *)
Definition Log : Type := list (list State * list (list Q)).

Definition flat_predict (m : Log) (states : list State) : list (list Q) :=
  map (fun _ => [0; 0; 0; 0; 0; 1]%Q) states.

Definition log_batch (m : Log) (states : list State)
    (targets : list (list Q)) : Log :=
  (states, targets) :: m.

(** The network of [train.py]:
    [DQNetwork(gamma=0.99, n_actions=6, epsilon=1.0, batch_size=32,
    input_dims=15)]. *)
Definition train_py_model : result (DQNetwork Log) :=
  DQNetwork_init (99 # 100) 6 1 32 default_epsilon_delta
                 default_epsilon_final default_memory_size [].

Definition with_memory {Model : Type} (net : DQNetwork Model)
    (m : list Transition) : DQNetwork Model :=
  {| n_actions := n_actions net; gamma := gamma net; epsilon := epsilon net;
     epsilon_delta := epsilon_delta net; epsilon_final := epsilon_final net;
     batch_size := batch_size net; memory_size := memory_size net;
     memory := m; model := model net |}.

(** Two turns of an episode of [train.py]: every random action drawn is
    NORTH_EAST, which takes the bot from (8,26) to (8,27) and then into the
    boundary at (7,28). The result is the replay memory after the two
    turns. *)
Definition two_turns : result (list Transition) :=
  net <- train_py_model ;;
  ep <- episode_start net (seq 0 10) 0 0 ;;
  ep <- episode_turn flat_predict log_batch ep 0 1 0 [] ;;
  ep <- episode_turn flat_predict log_batch ep 0 1 0 [] ;;
  Ok (memory (ep_model ep)).

(** A network built with [epsilon=0.015, epsilon_delta=0.01,
    epsilon_final=0.01], whose memory already holds 1000 transitions. *)
Definition idle_transition : Transition :=
  (replicate 15 (Int 0), 0, 0, replicate 15 (Int 0), false).

Definition coarse_decay_model : result (DQNetwork Log) :=
  net <- DQNetwork_init (99 # 100) 6 (3 # 200) 32 (1 # 100)
                        default_epsilon_final default_memory_size [] ;;
  Ok (with_memory net (replicate 1000 idle_transition)).

(** Epsilon before and after each of two successive training steps of
    that network. *)
Definition two_decays : result (Q * Q * Q) :=
  net0 <- coarse_decay_model ;;
  net1 <- train flat_predict log_batch net0 (seq 0 32) ;;
  net2 <- train flat_predict log_batch net1 (seq 0 32) ;;
  Ok (epsilon net0, epsilon net1, epsilon net2).

(** ** Concrete states of a game on the 11 x 29 grid *)

(** The player and the grid that [Game(11, 29)] builds. *)
Definition corner_snake : Snake :=
  fst (Snake_init (Grid_init 11 29) (Cell.mk 9 1 NORMAL) NORTH_EAST SNAKE).

Definition corner_grid : Grid :=
  snd (Snake_init (Grid_init 11 29) (Cell.mk 9 1 NORMAL) NORTH_EAST SNAKE).

(** The same grid with the first fruit on (8,2), and the player after its
    first move when (8,2) is Empty. *)
Definition fruit_ahead_grid : Grid := assign_type corner_grid (8, 2) FRUIT.

Definition stepped_snake : Snake :=
  {| _current_direction := NORTH_EAST; _head := (8, 2);
     _previous_head := (9, 1); _snake_type := SNAKE; _score := 0;
     _body := [(8, 2)]; _lost := false |}.

Definition stepped_grid : Grid :=
  assign_type (assign_type corner_grid (9, 1) NORMAL) (8, 2) SNAKE.

(** A game in which the player eats two fruits, on (8,2) and (7,2), turns
    south-west to (8,1) and then asks for south-east: its three segments
    form a triangle and the candidate cell is its own last segment. *)
Definition tail_chase : result (Snake * Grid) :=
  g <- _insert_fruit corner_grid 190 ;;
  r <- move corner_snake g 163 ;;
  s <- Snake_update_direction (fst r) "w" ;;
  r <- move s (snd r) 0 ;;
  s <- Snake_update_direction (fst r) "a" ;;
  r <- move s (snd r) 0 ;;
  s <- Snake_update_direction (fst r) "d" ;;
  Ok (s, snd r).

Definition chaser : Snake :=
  {| _current_direction := SOUTH_EAST; _head := (8, 1);
     _previous_head := (7, 2); _snake_type := SNAKE; _score := 20;
     _body := [(8, 1); (7, 2); (8, 2)]; _lost := false |}.

Definition chaser_grid : Grid :=
  assign_type
    (assign_type
       (assign_type (assign_type (Grid_init 11 29) (8, 1) SNAKE) (7, 2) SNAKE)
       (8, 2) SNAKE)
    (1, 1) FRUIT.

(** The bot of a bot game, a fruit on the cell north-west of it, and the
    bot and grid after it has eaten that fruit. *)
Definition corner_bot : Bot :=
  fst (Bot_init (Grid_init 11 29) (Cell.mk 9 27 NORMAL) NORTH_WEST BOT).

Definition corner_bot_grid : Grid :=
  snd (Bot_init (Grid_init 11 29) (Cell.mk 9 27 NORMAL) NORTH_WEST BOT).

Definition fed_bot : Bot :=
  {| snake := {| _current_direction := NORTH_WEST; _head := (8, 26);
                 _previous_head := (9, 27); _snake_type := BOT;
                 _score := 10; _body := [(8, 26); (9, 27)];
                 _lost := false |};
     __previous_score := 0 |}.

Definition fed_grid : Grid :=
  assign_type
    (assign_type (assign_type corner_bot_grid (8, 26) FRUIT) (1, 1) FRUIT)
    (8, 26) BOT.

(** A replay memory of capacity 2 that is full. *)
Definition full_memory : DQNetwork unit :=
  {| n_actions := 6; gamma := 99 # 100; epsilon := 1;
     epsilon_delta := default_epsilon_delta;
     epsilon_final := default_epsilon_final;
     batch_size := 1; memory_size := 2;
     memory := [(replicate 15 (Int 0), 0, 2, replicate 15 (Int 1), false);
                (replicate 15 (Int 1), 1, -3, replicate 15 (Int 2), false)];
     model := tt |}.

(** ** Vocabulary of the game invariants *)

(** A coordinate of the rectangle, and one that is not on its outer ring. *)
Definition in_grid (g : Grid) (r : Ref) : Prop :=
  0 <= fst r < rows g /\ 0 <= snd r < cols g.

Definition inside (g : Grid) (r : Ref) : Prop :=
  1 <= fst r <= rows g - 2 /\ 1 <= snd r <= cols g - 2.

(** A grid in play: one cell per coordinate, exactly the coordinates of
    the rectangle, and every cell of the outer ring still a Boundary. *)
Definition arena (g : Grid) : Prop :=
  Grid_wf g
  /\ (forall r, in_grid g r <-> exists c, Grid_at g r = Ok c)
  /\ (forall c, List.In c (cells g) ->
                is_edge (rows g) (cols g) (Cell.x c) (Cell.y c) = true ->
                Cell.cell_type c = BOUND).

(** The number of cells that currently hold a fruit. *)
Definition fruits (g : Grid) : nat := length (Grid_of_type g FRUIT).

(** Successive calls of [train], one per sample drawn. *)
Fixpoint train_steps {Model : Type}
    (predict : Model -> list State -> list (list Q))
    (train_on_batch : Model -> list State -> list (list Q) -> Model)
    (net : DQNetwork Model) (draws : list (list nat))
    : result (DQNetwork Model) :=
  match draws with
  | [] => Ok net
  | draw :: draws' =>
      net' <- train predict train_on_batch net draw ;;
      train_steps predict train_on_batch net' draws'
  end.

(** ** snake.py: one pass of the loop of [Game._play]

    The display and the pause of 400 ms are left out; what a pass reads
    from outside - the last key pressed and the numbers drawn at random -
    is given per player by a [Draw]. The policy [self.model] of a bot game
    is the network [net]. A player object is referred to by its position
    in [players]. *)

Record Draw : Set := mkDraw {
  last_key : string;       (* [KeyboardListener.key()] *)
  drawn_u : Q;             (* [np.random.random()] in [choose_action] *)
  drawn_r : nat;           (* [np.random.choice] in [choose_action] *)
  drawn_rnd : nat          (* [random.choice] in [_insert_fruit] *)
}.

Definition snake_of (p : Player) : Snake :=
  match p with
  | Human s => s
  | Robot b => snake b
  end.

(** The body of [for player in active_players]. *)
Definition player_turn {Model : Type}
    (predict : Model -> list State -> list (list Q)) (net : DQNetwork Model)
    (player : Player) (g : Grid) (d : Draw) : result (Player * Grid) :=
  match player with
  | Robot b =>
      seen <- get_observation b g ;;
      let '(observation, _, b) := seen in
      action <- choose_action predict net observation (drawn_u d) (drawn_r d) ;;
      b <- Bot_update_direction b action ;;
      moved <- move (snake b) g (drawn_rnd d) ;;
      Ok (Robot {| snake := fst moved;
                   __previous_score := __previous_score b |},
          snd moved)
  | Human s =>
      s <- Snake_update_direction s (last_key d) ;;
      moved <- move s g (drawn_rnd d) ;;
      Ok (Human (fst moved), snd moved)
  end.

(** [get_active_players], as positions in [players] counted from [i]. *)
Fixpoint active_from (i : nat) (players : list Player) : list nat :=
  match players with
  | [] => []
  | p :: players' =>
      if negb (player_lost p) then i :: active_from (S i) players'
      else active_from (S i) players'
  end.

(** The loop over the active players; each turn updates its player in
    place and works on the grid the previous turn left. *)
Fixpoint tick_loop {Model : Type}
    (predict : Model -> list State -> list (list Q)) (net : DQNetwork Model)
    (active : list nat) (players : list Player) (g : Grid)
    (draws : nat -> Draw) : result (list Player * Grid) :=
  match active with
  | [] => Ok (players, g)
  | i :: active' =>
      match players !! i with
      | Some player =>
          turned <- player_turn predict net player g (draws i) ;;
          tick_loop predict net active' (<[i := fst turned]> players)
                    (snd turned) draws
      | None => Raise IndexError
      end
  end.

(** One pass of [while active_players := self.get_active_players()]. *)
Definition tick {Model : Type}
    (predict : Model -> list State -> list (list Q)) (net : DQNetwork Model)
    (game : Game) (draws : nat -> Draw) : result Game :=
  turned <- tick_loop predict net (active_from 0 (players game))
                      (players game) (grid game) draws ;;
  Ok {| game_mode := game_mode game; grid := snd turned;
        players := fst turned |}.

(** Two snakes that differ at most in their heading. *)
Definition same_cells (a b : Snake) : Prop :=
  _body b = _body a /\ _head b = _head a /\ _lost b = _lost a
  /\ _snake_type b = _snake_type a.

(** A game in play: the grid is an arena; every player owns its cells, is
    live unless it has lost, and holds no cell once it has lost; no cell
    belongs to two players. *)
Definition game_ok (players : list Player) (g : Grid) : Prop :=
  arena g
  /\ (forall i p, players !! i = Some p ->
        owns (snake_of p) g
        /\ (_lost (snake_of p) = false -> live (snake_of p))
        /\ (_lost (snake_of p) = true -> _body (snake_of p) = []))
  /\ (forall i j p q, i <> j ->
        players !! i = Some p -> players !! j = Some q ->
        forall r, List.In r (_body (snake_of p)) ->
                  ~ List.In r (_body (snake_of q))).

(** ** Further concrete states *)

(** A bot game on the same grid: the bot in the opposite corner. *)
Definition duel_grid : Grid := assign_type corner_grid (9, 27) BOT.

(** A second snake next to the player, heading NORTH towards (8,2), the
    cell the player's first move enters. *)
Definition rival : Snake :=
  fst (Snake_init corner_grid (Cell.mk 9 2 NORMAL) NORTH BOT).

Definition rival_grid : Grid :=
  snd (Snake_init corner_grid (Cell.mk 9 2 NORMAL) NORTH BOT).

(** The single-player game, and the keyboard stuck on "e". *)
Definition corner_game : Game :=
  {| game_mode := SINGLE; grid := corner_grid;
     players := [Human corner_snake] |}.

Definition key_e (i : nat) : Draw :=
  {| last_key := "e"; drawn_u := 0; drawn_r := 0%nat; drawn_rnd := 0%nat |}.

(** A network with the arguments of [train.py] and an episode in which
    the bot stands in its corner. *)
Definition corner_net : DQNetwork Log :=
  {| n_actions := 6; gamma := 99 # 100; epsilon := 1;
     epsilon_delta := default_epsilon_delta;
     epsilon_final := default_epsilon_final;
     batch_size := 32; memory_size := default_memory_size;
     memory := []; model := [] |}.




(** An episode of [train.py] at the fed bot, and the episode one turn
    later when the action drawn is 2. *)
Definition fed_episode : Episode Log :=
  {| ep_model := corner_net; ep_grid := fed_grid; ep_bot := fed_bot;
     ep_observation := replicate 15 (Int 0); ep_score := 0 |}.

Definition next_episode : Episode Log :=
  match episode_turn flat_predict log_batch fed_episode 0 2 0 [] with
  | Ok ep => ep
  | Raise _ => fed_episode
  end.

(** The board of [Game(3, 4)] once the first fruit is placed: its two
    inner cells hold the player and the fruit, and no cell is Empty. The
    player after the key "d", heading SOUTH_EAST towards the fruit. *)
Definition full_grid : Grid :=
  assign_type
    (snd (Snake_init (Grid_init 3 4) (Cell.mk 1 1 NORMAL) NORTH_EAST SNAKE))
    (1, 2) FRUIT.

Definition cornered : Snake :=
  {| _current_direction := SOUTH_EAST; _head := (1, 1);
     _previous_head := (1, 1); _snake_type := SNAKE; _score := 0;
     _body := [(1, 1)]; _lost := false |}.

(** A grid of 2^27 + 3 rows and 6 columns. The bot is created on
    [(rows - 2, cols - 2)] heading NORTH_WEST, as in [train.py]; the fruit
    is placed on the Empty cell (1,3); the bot's first move takes it to
    [(rows - 2, 3)], in the same row and in the column of the fruit, which
    lies 2^27 rows away. *)
Definition far_rows : Z := 2 ^ 27 + 3.

Definition far_placed : Grid :=
  snd (Bot_init (Grid_init far_rows 6) (Cell.mk (far_rows - 2) 4 NORMAL)
                NORTH_WEST BOT).

Definition far_start : Bot :=
  fst (Bot_init (Grid_init far_rows 6) (Cell.mk (far_rows - 2) 4 NORMAL)
                NORTH_WEST BOT).

Definition far_start_grid : Grid := assign_type far_placed (1, 3) FRUIT.

Definition far_grid : Grid :=
  assign_type (assign_type far_start_grid (far_rows - 2, 4) NORMAL)
              (far_rows - 2, 3) BOT.

Definition far_bot : Bot :=
  {| snake := {| _current_direction := NORTH_WEST;
                 _head := (far_rows - 2, 3);
                 _previous_head := (far_rows - 2, 4); _snake_type := BOT;
                 _score := 0; _body := [(far_rows - 2, 3)];
                 _lost := false |};
     __previous_score := 0 |}.

(** * Properties *)

(** ** The error monad *)

Lemma bind_Ok {A B : Type} (m : result A) (k : A -> result B) (b : B) :
  bind m k = Ok b -> exists a, m = Ok a /\ k a = Ok b.
Proof. destruct m as [a|e]; simpl; [eauto | discriminate]. Qed.

(** ** The body deque *)

Lemma shift_loop_length (i : nat) (body : list Ref) :
  length (shift_loop i body) = length body.
Proof.
  revert body; induction i as [|j IH]; intros body; simpl; [reflexivity|].
  destruct (body !! j) as [prev|]; [|reflexivity].
  rewrite IH. apply length_insert.
Qed.

(** After the loop has run from index [i] down to [1], every index in
    [1..i] holds what its left neighbour held, the others are untouched. *)
Lemma shift_loop_lookup (i : nat) (body : list Ref) (k : nat) :
  (i < length body)%nat ->
  shift_loop i body !! k =
    if ((1 <=? k) && (k <=? i))%nat then body !! (k - 1)%nat else body !! k.
Proof.
  revert body; induction i as [|j IH]; intros body Hi; cbn [shift_loop].
  - destruct k as [|k]; reflexivity.
  - destruct (lookup_lt_is_Some_2 body j ltac:(lia)) as [prev Hprev].
    rewrite Hprev, IH by (rewrite length_insert; lia).
    destruct (Nat.leb_spec 1 k) as [H1|H1];
      destruct (Nat.leb_spec k j) as [H2|H2];
      destruct (Nat.leb_spec k (S j)) as [H3|H3];
      cbn [andb]; try lia;
      try (apply list_lookup_insert_ne; lia).
    assert (k = S j) as -> by lia.
    rewrite list_lookup_insert_eq by lia.
    now replace (S j - 1)%nat with j by lia.
Qed.

Lemma lookup_removelast {A : Type} (l : list A) (k : nat) :
  removelast l !! k = if (S k <? length l)%nat then l !! k else None.
Proof.
  rewrite removelast_firstn_len.
  destruct (Nat.ltb_spec (S k) (length l)) as [H|H].
  - apply lookup_take_lt; lia.
  - apply lookup_take_ge; lia.
Qed.

(** The whole loop of [move]: the head is duplicated and the last
    segment falls off. *)
Lemma shift_loop_spec (b0 : Ref) (rest : list Ref) :
  shift_loop (length (b0 :: rest) - 1) (b0 :: rest)
  = b0 :: removelast (b0 :: rest).
Proof.
  apply list_eq; intros k.
  rewrite shift_loop_lookup by (simpl; lia).
  destruct k as [|k]; [reflexivity|].
  change ((b0 :: removelast (b0 :: rest)) !! S k)
    with (removelast (b0 :: rest) !! k).
  rewrite lookup_removelast.
  replace (S k - 1)%nat with k by lia.
  change (1 <=? S k)%nat with true.
  cbn [length andb].
  replace (S (length rest) - 1)%nat with (length rest) by lia.
  destruct (Nat.leb_spec (S k) (length rest)) as [H|H];
    destruct (Nat.ltb_spec (S k) (S (length rest))) as [H'|H']; try lia.
  - reflexivity.
  - apply lookup_ge_None_2; simpl; lia.
Qed.

(** ** The grid as a store *)

Lemma Ref_eqb_eq (a b : Ref) : Ref_eqb a b = true <-> a = b.
Proof.
  destruct a as [ax ay], b as [bx by_]; unfold Ref_eqb; simpl.
  rewrite andb_true_iff, !Z.eqb_eq. split.
  - intros [-> ->]; reflexivity.
  - intros [= -> ->]; auto.
Qed.

Lemma Ref_eqb_refl (a : Ref) : Ref_eqb a a = true.
Proof. now apply Ref_eqb_eq. Qed.

Lemma Ref_eqb_neq (a b : Ref) : Ref_eqb a b = false <-> a <> b.
Proof.
  rewrite <- Ref_eqb_eq. destruct (Ref_eqb a b); split; congruence.
Qed.

Lemma Grid_at_Ok (g : Grid) (key : Ref) (c : Cell.t) :
  Grid_at g key = Ok c -> ref c = key /\ List.In c (cells g).
Proof.
  unfold Grid_at.
  destruct (find _ (cells g)) as [cell|] eqn:Hfind; [|discriminate].
  intros [= <-]. apply find_some in Hfind as [Hin Heq].
  now apply Ref_eqb_eq in Heq.
Qed.

(** Reading a cell after an assignment through the reference [r]. *)
Lemma Grid_at_assign (g : Grid) (r : Ref) (v : Cell.CType) (key : Ref) :
  Grid_at (assign_type g r v) key =
    match Grid_at g key with
    | Ok c => Ok (if Ref_eqb key r then Cell.set_cell_type c v else c)
    | Raise e => Raise e
    end.
Proof.
  unfold Grid_at, assign_type; cbn [cells].
  induction (cells g) as [|c l IH]; [reflexivity|].
  cbn [map find].
  destruct (Ref_eqb (ref c) key) eqn:Hc.
  - apply Ref_eqb_eq in Hc; subst key.
    destruct (Ref_eqb (ref c) r) eqn:Hr.
    + unfold ref at 1; cbn [Cell.set_cell_type Cell.x Cell.y].
      fold (ref c). now rewrite Ref_eqb_refl.
    + now rewrite Ref_eqb_refl.
  - destruct (Ref_eqb (ref c) r) eqn:Hr.
    + unfold ref at 1; cbn [Cell.set_cell_type Cell.x Cell.y].
      fold (ref c). rewrite Hc. exact IH.
    + rewrite Hc. exact IH.
Qed.

Lemma Grid_at_assign_same (g : Grid) (r : Ref) (v : Cell.CType) (c : Cell.t) :
  Grid_at g r = Ok c ->
  Grid_at (assign_type g r v) r = Ok (Cell.set_cell_type c v).
Proof. intros H. now rewrite Grid_at_assign, H, Ref_eqb_refl. Qed.

Lemma Grid_at_assign_other (g : Grid) (r : Ref) (v : Cell.CType) (key : Ref) :
  key <> r -> Grid_at (assign_type g r v) key = Grid_at g key.
Proof.
  intros H. rewrite Grid_at_assign.
  apply Ref_eqb_neq in H. rewrite H. now destruct (Grid_at g key).
Qed.

Lemma type_at_Ok (g : Grid) (r : Ref) (v : Cell.CType) :
  type_at g r = Ok v <-> exists c, Grid_at g r = Ok c /\ Cell.cell_type c = v.
Proof.
  unfold type_at. split.
  - intros H. apply bind_Ok in H as (c & Hc & [= <-]). eauto.
  - intros (c & -> & <-). reflexivity.
Qed.

Lemma remove_body_cells (body : list Ref) (g : Grid) :
  cells (fold_left (fun g cell => assign_type g cell NORMAL) body g)
  = map (cleared body) (cells g).
Proof.
  revert g; induction body as [|b body IH]; intros g; cbn [fold_left].
  - unfold cleared; cbn [existsb]. now rewrite map_id.
  - rewrite IH. unfold assign_type; cbn [cells]. rewrite map_map.
    apply map_ext; intros c. unfold cleared; cbn [existsb].
    destruct (Ref_eqb (ref c) b) eqn:Hb; cbn [orb].
    + unfold ref at 1; cbn [Cell.set_cell_type Cell.x Cell.y]; fold (ref c).
      now destruct (existsb _ body).
    + reflexivity.
Qed.

Lemma existsb_Ref_In (r : Ref) (body : list Ref) :
  existsb (Ref_eqb r) body = true <-> List.In r body.
Proof.
  rewrite existsb_exists. split.
  - intros (b & Hin & Heq). apply Ref_eqb_eq in Heq. now subst.
  - intros Hin. exists r. split; [assumption | apply Ref_eqb_refl].
Qed.

Lemma Grid_at_remove_body (body : list Ref) (g : Grid) (key : Ref) :
  Grid_at (fold_left (fun g cell => assign_type g cell NORMAL) body g) key =
    match Grid_at g key with
    | Ok c => Ok (cleared body c)
    | Raise e => Raise e
    end.
Proof.
  unfold Grid_at. rewrite remove_body_cells.
  induction (cells g) as [|c l IH]; [reflexivity|].
  cbn [map find].
  assert (ref (cleared body c) = ref c) as ->.
  { unfold cleared. now destruct (existsb _ body). }
  destruct (Ref_eqb (ref c) key); [reflexivity | exact IH].
Qed.

(** ** [Snake.move], branch by branch *)

Lemma in_range_1_4_blocking (t : Cell.CType) :
  in_range_1_4 (Cell.value t) = true <-> blocking t.
Proof.
  unfold blocking. destruct t; cbn; split; intros H; try discriminate; auto;
    destruct H as [H|[H|H]]; discriminate.
Qed.

Lemma move_unfold (self : Snake) (g : Grid) (rnd : nat)
    (b0 tail : Ref) (rest : list Ref) (new_head : Cell.t) :
  _body self = b0 :: rest ->
  last (b0 :: rest) = Some tail ->
  Grid_at g (candidate self) = Ok new_head ->
  move self g rnd =
    if in_range_1_4 (Cell.value (Cell.cell_type new_head)) then
      Ok (remove_body (set_body self (b0 :: b0 :: rest)) g)
    else if Cell.eqb (Cell.cell_type new_head) FRUIT then
      g' <- _insert_fruit g rnd ;;
      Ok ({| _current_direction := _current_direction self;
             _head := ref new_head; _previous_head := _head self;
             _snake_type := _snake_type self; _score := _score self + 10;
             _body := ref new_head :: b0 :: rest; _lost := _lost self |},
          assign_type g' (ref new_head) (_snake_type self))
    else
      Ok ({| _current_direction := _current_direction self;
             _head := ref new_head; _previous_head := _head self;
             _snake_type := _snake_type self; _score := _score self;
             _body := ref new_head :: removelast (b0 :: rest);
             _lost := _lost self |},
          assign_type (assign_type g tail NORMAL) (ref new_head)
                      (_snake_type self)).
Proof.
  intros Hbody Hlast Hat. unfold move, candidate in *.
  destruct (_head_position_change self (_current_direction self)) as [dx dy].
  cbn [fst snd] in Hat. rewrite Hat, Hbody, Hlast. cbn [bind].
  rewrite shift_loop_spec.
  apply last_Some in Hlast as [l Hl].
  assert (removelast (b0 :: rest) ++ [tail] = b0 :: rest) as Happ.
  { rewrite Hl. now rewrite removelast_last. }
  destruct (in_range_1_4 _).
  - cbn [app]. now rewrite Happ.
  - destruct (Cell.eqb _ FRUIT).
    + destruct (_insert_fruit g rnd) as [g'|e]; cbn [bind]; [|reflexivity].
      cbn [app]. now rewrite Happ.
    + reflexivity.
Qed.

Lemma cleared_dup (b0 : Ref) (body : list Ref) (c : Cell.t) :
  cleared (b0 :: b0 :: body) c = cleared (b0 :: body) c.
Proof.
  unfold cleared; cbn [existsb]. now destruct (Ref_eqb (ref c) b0).
Qed.

Lemma cleared_in (body : list Ref) (c : Cell.t) :
  List.In (ref c) body -> cleared body c = Cell.set_cell_type c NORMAL.
Proof.
  intros H. unfold cleared. apply existsb_Ref_In in H. now rewrite H.
Qed.

Lemma cleared_out (body : list Ref) (c : Cell.t) :
  ~ List.In (ref c) body -> cleared body c = c.
Proof.
  intros H. unfold cleared.
  destruct (existsb _ body) eqn:E; [|reflexivity].
  now apply existsb_Ref_In in E.
Qed.

(** No path through [move] clears the [_lost] flag. *)
Lemma move_lost_mono (self self' : Snake) (g g' : Grid) (rnd : nat) :
  move self g rnd = Ok (self', g') -> _lost self = true -> _lost self' = true.
Proof.
  unfold move.
  destruct (_head_position_change self (_current_direction self)) as [dx dy].
  destruct (Grid_at g _) as [new_head|]; cbn [bind]; [|discriminate].
  destruct (last (_body self)) as [tl|]; cbn [bind]; [|discriminate].
  destruct (in_range_1_4 _).
  - intros [= <- <-]. reflexivity.
  - destruct (Cell.eqb _ FRUIT).
    + destruct (_insert_fruit g rnd); cbn [bind]; [|discriminate].
      intros [= <- <-]. auto.
    + cbn [bind]. intros [= <- <-]. auto.
Qed.

Lemma Snake_update_direction_lost (self self' : Snake) (key : string) :
  Snake_update_direction self key = Ok self' -> _lost self' = _lost self.
Proof.
  unfold Snake_update_direction.
  destruct (KEY_TO_DIRECTION_getitem key); cbn [bind]; [|discriminate].
  destruct (negb _); intros [= <-]; reflexivity.
Qed.

Lemma Bot_update_direction_lost (self self' : Bot) (action : Z) :
  Bot_update_direction self action = Ok self' ->
  _lost (snake self') = _lost (snake self).
Proof.
  unfold Bot_update_direction.
  destruct (Direction_of_value action); cbn [bind]; [|discriminate].
  destruct (negb _); intros [= <-]; reflexivity.
Qed.

(** A snake whose deque is empty cannot be moved: [self._body[-1]] raises
    (or the lookup of the candidate cell does). *)
Lemma move_empty_body (self : Snake) (g : Grid) (rnd : nat) :
  _body self = [] -> exists e, move self g rnd = Raise e.
Proof.
  intros Hbody. unfold move.
  destruct (_head_position_change self (_current_direction self)) as [dx dy].
  destruct (Grid_at g _) as [new_head|e]; cbn [bind]; [|eauto].
  rewrite Hbody. cbn. eauto.
Qed.

(** The collision branch of [move], shared by the statements below. *)
Lemma move_blocked (self : Snake) (g : Grid) (rnd : nat) (new_head : Cell.t) :
  live self ->
  Grid_at g (candidate self) = Ok new_head ->
  blocking (Cell.cell_type new_head) ->
  exists self' g',
    move self g rnd = Ok (self', g')
    /\ self' = {| _current_direction := _current_direction self;
                  _head := _head self; _previous_head := _previous_head self;
                  _snake_type := _snake_type self; _score := _score self;
                  _body := []; _lost := true |}
    /\ (forall r c, List.In r (_body self) -> Grid_at g r = Ok c ->
                    Grid_at g' r = Ok (Cell.set_cell_type c NORMAL))
    /\ (forall r, ~ List.In r (_body self) -> Grid_at g' r = Grid_at g r).
Proof.
  intros [Hlost [rest Hbody]] Hat Hblock.
  destruct (last (_head self :: rest)) as [tl|] eqn:Hlast.
  2:{ apply last_None in Hlast. discriminate. }
  rewrite (move_unfold self g rnd _ tl rest new_head Hbody Hlast Hat).
  apply in_range_1_4_blocking in Hblock. rewrite Hblock.
  unfold remove_body, set_body; cbn [_body _current_direction _head
    _previous_head _snake_type _score _lost].
  eexists _, _. split; [reflexivity|]. split; [reflexivity|]. split.
  - intros r c Hin Hr. rewrite Grid_at_remove_body, Hr, cleared_dup.
    rewrite cleared_in; [reflexivity|].
    apply Grid_at_Ok in Hr as [-> _]. now rewrite <- Hbody.
  - intros r Hout. rewrite Grid_at_remove_body.
    destruct (Grid_at g r) as [c|e] eqn:Hr; [|reflexivity].
    rewrite cleared_dup, cleared_out; [reflexivity|].
    apply Grid_at_Ok in Hr as [-> _]. now rewrite <- Hbody.
Qed.

(** C5. A live snake whose candidate head cell is Boundary, PlayerBody or
    BotBody: [move] returns with the snake lost, its deque empty and every
    other field (the head included) as before; each cell the body
    referenced is Empty and no other cell changed; the snake cannot be
    moved again, and no operation turns a lost snake back into a live
    one. *)
Theorem move_collision (self : Snake) (g : Grid) (rnd : nat) (new_head : Cell.t) :
  live self ->
  Grid_at g (candidate self) = Ok new_head ->
  blocking (Cell.cell_type new_head) ->
  exists self' g',
    move self g rnd = Ok (self', g')
    /\ self' = {| _current_direction := _current_direction self;
                  _head := _head self; _previous_head := _previous_head self;
                  _snake_type := _snake_type self; _score := _score self;
                  _body := []; _lost := true |}
    /\ (forall r c, List.In r (_body self) -> Grid_at g r = Ok c ->
                    Grid_at g' r = Ok (Cell.mk (Cell.x c) (Cell.y c) NORMAL)
                    /\ type_at g' r = Ok NORMAL)
    /\ (forall r, ~ List.In r (_body self) -> Grid_at g' r = Grid_at g r)
    /\ (forall g2 rnd2, exists e, move self' g2 rnd2 = Raise e)
    /\ (forall (s s2 : Snake) g1 g2 rnd2,
          _lost s = true -> move s g1 rnd2 = Ok (s2, g2) -> _lost s2 = true)
    /\ (forall (s s2 : Snake) key,
          _lost s = true -> Snake_update_direction s key = Ok s2 ->
          _lost s2 = true)
    /\ (forall (b b2 : Bot) action,
          _lost (snake b) = true -> Bot_update_direction b action = Ok b2 ->
          _lost (snake b2) = true).
Proof.
  intros Hlive Hat Hblock.
  destruct (move_blocked self g rnd new_head Hlive Hat Hblock)
    as (self' & g' & Hmove & Hself & Hin & Hout).
  exists self', g'. split; [assumption|]. split; [assumption|].
  split; [|split; [assumption|]].
  { intros r c Hr Hc. pose proof (Hin r c Hr Hc) as Hreset.
    split; [exact Hreset|]. unfold type_at. now rewrite Hreset. }
  repeat split.
  - intros g2 rnd2. apply move_empty_body. now subst self'.
  - intros s s2 g1 g2 rnd2 Hs Hm. exact (move_lost_mono _ _ _ _ _ Hm Hs).
  - intros s s2 key Hs Hu.
    now rewrite (Snake_update_direction_lost _ _ _ Hu).
  - intros b b2 action Hb Hu.
    now rewrite (Bot_update_direction_lost _ _ _ Hu).
Qed.

(** C10. A live snake of length at least 2 whose candidate head cell is
    the cell of its own last segment, that cell still carrying the snake's
    tag (PlayerBody or BotBody): [move] takes the collision branch - the
    snake is lost, its deque is emptied and its cells are Empty - because
    the candidate's type is read before the last segment is released. *)
Theorem move_onto_own_tail (self : Snake) (g : Grid) (rnd : nat) (tl : Ref) :
  live self ->
  (2 <= length (_body self))%nat ->
  last (_body self) = Some tl ->
  candidate self = tl ->
  type_at g tl = Ok (_snake_type self) ->
  _snake_type self = SNAKE \/ _snake_type self = BOT ->
  exists self' g',
    move self g rnd = Ok (self', g')
    /\ _lost self' = true
    /\ _body self' = []
    /\ _head self' = _head self
    /\ (forall r c, List.In r (_body self) -> Grid_at g r = Ok c ->
                    Grid_at g' r = Ok (Cell.set_cell_type c NORMAL))
    /\ type_at g' tl = Ok NORMAL.
Proof.
  intros Hlive Hlen Hlast Hcand Htype Htag.
  apply type_at_Ok in Htype as (c & Hc & Hty).
  assert (blocking (Cell.cell_type c)) as Hblock.
  { rewrite Hty. unfold blocking. tauto. }
  rewrite <- Hcand in Hc.
  destruct (move_blocked self g rnd c Hlive Hc Hblock)
    as (self' & g' & Hmove & Hself & Hin & Hout).
  exists self', g'. split; [assumption|].
  subst self'. cbn [_lost _body _head].
  repeat (split; [reflexivity || assumption|]).
  apply type_at_Ok. eexists. split.
  - apply Hin; [|rewrite <- Hcand; eassumption].
    apply last_Some in Hlast as [l ->]. apply in_or_app. right. now left.
  - reflexivity.
Qed.

(** ** Fruit respawn *)

Lemma random_choice_Ok {A : Type} (l : list A) (rnd : nat) :
  l <> [] -> exists a, random_choice l rnd = Ok a /\ List.In a l.
Proof.
  intros Hl. unfold random_choice.
  assert (rnd mod length l < length l)%nat as Hlt.
  { apply Nat.mod_upper_bound. destruct l; [congruence | discriminate]. }
  destruct (lookup_lt_is_Some_2 l _ Hlt) as [a Ha].
  rewrite Ha. exists a. split; [reflexivity|].
  apply list_elem_of_In, list_elem_of_lookup. eauto.
Qed.

Lemma Grid_of_type_In (g : Grid) (t : Cell.CType) (c : Cell.t) :
  List.In c (Grid_of_type g t) <-> List.In c (cells g) /\ Cell.cell_type c = t.
Proof.
  unfold Grid_of_type. rewrite filter_In.
  assert (Cell.eqb (Cell.cell_type c) t = true <-> Cell.cell_type c = t) as ->.
  { unfold Cell.eqb. rewrite Z.eqb_eq.
    destruct (Cell.cell_type c), t; cbn; split; congruence. }
  reflexivity.
Qed.

Lemma Grid_at_In (g : Grid) (c : Cell.t) :
  List.In c (cells g) -> exists c', Grid_at g (ref c) = Ok c'.
Proof.
  intros Hin. unfold Grid_at.
  destruct (find _ (cells g)) as [c'|] eqn:Hfind; [eauto|].
  apply (find_none _ _ Hfind) in Hin. now rewrite Ref_eqb_refl in Hin.
Qed.

Lemma Grid_wf_inj (g : Grid) (a b : Cell.t) :
  Grid_wf g -> List.In a (cells g) -> List.In b (cells g) ->
  ref a = ref b -> a = b.
Proof.
  unfold Grid_wf. induction (cells g) as [|c l IH]; [intros _ []|].
  cbn [map]. intros Hnd [->|Ha] [->|Hb] Hab;
    apply NoDup_cons_iff in Hnd as [Hnotin Hnd]; auto.
  - exfalso. apply Hnotin. rewrite Hab. now apply in_map.
  - exfalso. apply Hnotin. rewrite <- Hab. now apply in_map.
Qed.

Lemma Grid_wf_assign (g : Grid) (r : Ref) (v : Cell.CType) :
  Grid_wf g -> Grid_wf (assign_type g r v).
Proof.
  unfold Grid_wf, assign_type; cbn [cells].
  rewrite map_map.
  erewrite map_ext; [intros H; exact H|].
  intros c; cbn beta. now destruct (Ref_eqb (ref c) r).
Qed.

Lemma _insert_fruit_Ok (g : Grid) (rnd : nat) :
  Grid_of_type g NORMAL <> [] ->
  exists cell, List.In cell (Grid_of_type g NORMAL)
               /\ _insert_fruit g rnd = Ok (assign_type g (ref cell) FRUIT).
Proof.
  intros H. destruct (random_choice_Ok _ rnd H) as (cell & Hc & Hin).
  exists cell. split; [assumption|].
  unfold _insert_fruit. now rewrite Hc.
Qed.

(** C6. A live snake whose candidate head cell is a Fruit, on a grid that
    still has an Empty cell: [move] returns; the new deque is the new head
    in front of every old segment (one longer), the score is 10 higher,
    the new head cell carries the snake's own tag, and the new fruit is a
    cell that was Empty when [move] was called. *)
Theorem move_fruit (self : Snake) (g : Grid) (rnd : nat) (new_head : Cell.t) :
  live self ->
  Grid_at g (candidate self) = Ok new_head ->
  Cell.cell_type new_head = FRUIT ->
  Grid_of_type g NORMAL <> [] ->
  exists respawn self' g',
    move self g rnd = Ok (self', g')
    /\ self' = {| _current_direction := _current_direction self;
                  _head := candidate self; _previous_head := _head self;
                  _snake_type := _snake_type self;
                  _score := _score self + 10;
                  _body := candidate self :: _body self; _lost := false |}
    /\ length (_body self') = S (length (_body self))
    /\ List.In respawn (Grid_of_type g NORMAL)
    /\ g' = assign_type (assign_type g (ref respawn) FRUIT)
                        (candidate self) (_snake_type self)
    /\ type_at g' (candidate self) = Ok (_snake_type self)
    /\ (Grid_wf g -> type_at g' (ref respawn) = Ok FRUIT).
Proof.
  intros [Hlost [rest Hbody]] Hat Hfruit Hempty.
  destruct (last (_head self :: rest)) as [tl|] eqn:Hlast.
  2:{ apply last_None in Hlast. discriminate. }
  rewrite (move_unfold self g rnd _ tl rest new_head Hbody Hlast Hat).
  rewrite Hfruit. cbn [Cell.value in_range_1_4 Z.leb Z.ltb Z.compare
                       Pos.compare Pos.compare_cont andb Cell.eqb Z.eqb Pos.eqb].
  destruct (_insert_fruit_Ok g rnd Hempty) as (respawn & Hin & ->).
  cbn [bind].
  pose proof (Grid_at_Ok _ _ _ Hat) as [Href Hnh].
  exists respawn. eexists _, _. split; [reflexivity|].
  rewrite Href, Hbody, Hlost.
  split; [reflexivity|]. split; [reflexivity|]. split; [assumption|].
  split; [reflexivity|]. split.
  - apply type_at_Ok. eexists. split.
    + rewrite Grid_at_assign, Grid_at_assign, Hat, Ref_eqb_refl. reflexivity.
    + reflexivity.
  - intros Hwf. apply Grid_of_type_In in Hin as [Hin Hty].
    assert (ref respawn <> candidate self) as Hne.
    { intros Heq. rewrite <- Href in Heq.
      apply (Grid_wf_inj g _ _ Hwf Hin Hnh) in Heq. subst respawn.
      congruence. }
    destruct (Grid_at_In g respawn Hin) as [c' Hc'].
    apply type_at_Ok. eexists. split.
    + rewrite Grid_at_assign_other by assumption.
      apply Grid_at_assign_same. eassumption.
    + reflexivity.
Qed.

(** C6 as stated fails on a full board. [Game(3, 4)] has two inner cells:
    the player starts on (1,1) and the first fruit can only go to (1,2).
    After the key "d" the player faces the fruit; its move adds 10 to the
    score and asks for a new fruit, and [random.choice] raises
    [IndexError] on the empty list of Empty cells: the head is not updated
    and [move] does not return. *)
Lemma full_board_fruit_raises :
  exists game start,
    Game_init 3 4 SINGLE = Ok game
    /\ players game = [Human start]
    /\ (forall rnd, _insert_fruit (grid game) rnd = Ok full_grid)
    /\ Snake_update_direction start "d" = Ok cornered
    /\ live cornered
    /\ Grid_at full_grid (candidate cornered) = Ok (Cell.mk 1 2 FRUIT)
    /\ Grid_of_type full_grid NORMAL = []
    /\ forall rnd, move cornered full_grid rnd = Raise IndexError.
Proof.
  exists {| game_mode := SINGLE;
            grid := snd (Snake_init (Grid_init 3 4) (Cell.mk 1 1 NORMAL)
                                    NORTH_EAST SNAKE);
            players := [Human (fst (Snake_init (Grid_init 3 4)
                                      (Cell.mk 1 1 NORMAL)
                                      NORTH_EAST SNAKE))] |}.
  eexists. split; [vm_compute; reflexivity|]. split; [reflexivity|].
  assert (Grid_at full_grid (candidate cornered) = Ok (Cell.mk 1 2 FRUIT))
    as Hat by (vm_compute; reflexivity).
  assert (Grid_of_type full_grid NORMAL = []) as Hfull
    by (vm_compute; reflexivity).
  split; [|split; [vm_compute; reflexivity|split; [|split; [exact Hat|split; [exact Hfull|]]]]].
  - intros rnd. unfold _insert_fruit, random_choice. cbn [grid].
    change (Grid_of_type _ NORMAL) with [Cell.mk 1 2 NORMAL].
    cbn [length]. rewrite Nat.mod_1_r. reflexivity.
  - split; [reflexivity | exists []; reflexivity].
  - intros rnd.
    rewrite (move_unfold cornered full_grid rnd (1, 1) (1, 1) [] _
               eq_refl eq_refl Hat).
    change (in_range_1_4 (Cell.value (Cell.cell_type (Cell.mk 1 2 FRUIT))))
      with false.
    change (Cell.eqb (Cell.cell_type (Cell.mk 1 2 FRUIT)) FRUIT) with true.
    cbv iota. unfold _insert_fruit, random_choice. rewrite Hfull.
    reflexivity.
Qed.

(** ** The shift table *)

Lemma _head_position_change_table (self : Snake) (d : Direction) :
  _head_position_change self d
  = column_parity_delta d (Z.even (snd (_head self))).
Proof.
  unfold _head_position_change. rewrite Zmod_even.
  destruct (Z.even (snd (_head self))); destruct d; reflexivity.
Qed.

(** A move that leaves the snake in play puts the head on the candidate
    cell and remembers the old head. *)
Lemma move_head (self self' : Snake) (g g' : Grid) (rnd : nat) :
  move self g rnd = Ok (self', g') -> _lost self' = false ->
  _head self' = candidate self /\ _previous_head self' = _head self.
Proof.
  unfold move, candidate.
  destruct (_head_position_change self (_current_direction self)) as [dx dy].
  cbn [fst snd].
  destruct (Grid_at g _) as [new_head|] eqn:Hat; cbn [bind]; [|discriminate].
  apply Grid_at_Ok in Hat as [Href _].
  destruct (last (_body self)) as [tl|]; cbn [bind]; [|discriminate].
  destruct (in_range_1_4 _).
  - intros [= <- <-]. discriminate.
  - destruct (Cell.eqb _ FRUIT).
    + destruct (_insert_fruit g rnd); cbn [bind]; [|discriminate].
      intros [= <- <-] _. cbn. auto.
    + cbn [bind]. intros [= <- <-] _. cbn. auto.
Qed.

(** C1, as the code has it. The shift is selected by the heading and by
    the parity of the current head's COLUMN (its second coordinate):
    N = (-1,0) and S = (+1,0) in both cases; on an even column
    NE = (0,+1), NW = (0,-1), SE = (+1,+1), SW = (+1,-1); on an odd column
    NE = (-1,+1), NW = (-1,-1), SE = (0,+1), SW = (0,-1). A move that
    leaves the snake in play puts its head at the current head plus that
    shift. On the 11 x 29 grid the player starts at (9,1) heading NE with
    a one-cell body, and after one move onto an Empty cell the body still
    has one cell and the head is at (8,2). *)
Theorem move_candidate_by_column
    (self self' : Snake) (g g' : Grid) (rnd : nat) :
  move self g rnd = Ok (self', g') ->
  _lost self' = false ->
  let delta := column_parity_delta (_current_direction self)
                                   (Z.even (snd (_head self))) in
  _head self' = (fst (_head self) + fst delta, snd (_head self) + snd delta)
  /\ _previous_head self' = _head self
  /\ (forall d, _head_position_change self d
                = column_parity_delta d (Z.even (snd (_head self))))
  /\ exists start g0 moved g1,
       first_player 11 29 = Ok (start, g0)
       /\ _head start = (9, 1) /\ _body start = [(9, 1)]
       /\ _current_direction start = NORTH_EAST
       /\ type_at g0 (candidate start) = Ok NORMAL
       /\ move start g0 0 = Ok (moved, g1)
       /\ length (_body moved) = 1%nat
       /\ _head moved = (8, 2).
Proof.
  intros Hmove Hlost delta.
  destruct (move_head _ _ _ _ _ Hmove Hlost) as [Hhead Hprev].
  split; [|split; [assumption|split]].
  - rewrite Hhead. unfold candidate, delta.
    now rewrite _head_position_change_table.
  - intros d. apply _head_position_change_table.
  - vm_compute. eexists _, _, _, _. repeat split.
Qed.

(** C1 as stated fails on the code, twice. On the 11 x 29 grid the player
    at (9,1) heading NE moves onto the Empty cell (8,2), not (8,1). And a
    snake whose head is at (4,2) (even row, even column) heading NE moves
    to (4,3), while the table of the specification, read at the parity of
    row 4, gives (3,2). *)
Lemma first_move_contradicts_spec_table :
  (exists start g0 moved g1,
     first_player 11 29 = Ok (start, g0)
     /\ _head start = (9, 1) /\ _body start = [(9, 1)]
     /\ _current_direction start = NORTH_EAST
     /\ type_at g0 (candidate start) = Ok NORMAL
     /\ move start g0 0 = Ok (moved, g1)
     /\ length (_body moved) = 1%nat
     /\ _head moved <> (8, 1))
  /\ (exists cell moved g1,
        let start := Snake_init (Grid_init 11 29) cell NORTH_EAST SNAKE in
        Grid_at (Grid_init 11 29) (4, 2) = Ok cell
        /\ move (fst start) (snd start) 0 = Ok (moved, g1)
        /\ _lost moved = false
        /\ _head moved = (4, 3)
        /\ _head moved <>
             (4 + fst (spec_table_delta NORTH_EAST (Z.even 4)),
              2 + snd (spec_table_delta NORTH_EAST (Z.even 4)))).
Proof.
  split.
  - vm_compute. eexists _, _, _, _.
    repeat split. intros [=].
  - exists (Cell.mk 4 2 NORMAL). vm_compute. eexists _, _.
    repeat split. intros [=].
Qed.

(** ** Direction requests *)

Lemma is_opposite_direction_spec (self : Snake) (d : Direction) :
  is_opposite_direction self (Direction_value d) = true
  <-> d = opposite (_current_direction self).
Proof.
  unfold is_opposite_direction.
  destruct (_current_direction self), d; simpl; split; intros H;
    (reflexivity || discriminate H).
Qed.

Lemma Direction_of_value_Ok (action : Z) (d : Direction) :
  Direction_of_value action = Ok d -> Direction_value d = action.
Proof.
  unfold Direction_of_value.
  destruct (find _ Direction_members) as [d'|] eqn:Hfind; [|discriminate].
  intros [= <-]. apply find_some in Hfind as [_ H]. now apply Z.eqb_eq.
Qed.

(** C8. Whatever the current heading, a request for a direction [d] -
    through a key of the human player or through an action of the bot -
    leaves the heading unchanged when [d] is the opposite of the heading
    (N-S, NE-SW, NW-SE) and sets the heading to [d] otherwise; nothing
    else of the snake changes. *)
Theorem update_direction_guard
    (self : Snake) (bot : Bot) (d : Direction) (key : string) (action : Z) :
  KEY_TO_DIRECTION_getitem key = Ok d ->
  Direction_of_value action = Ok d ->
  (d = opposite (_current_direction self) ->
     Snake_update_direction self key = Ok self)
  /\ (d <> opposite (_current_direction self) ->
       Snake_update_direction self key = Ok (set_direction self d)
       /\ _current_direction (set_direction self d) = d)
  /\ (d = opposite (_current_direction (snake bot)) ->
       Bot_update_direction bot action = Ok bot)
  /\ (d <> opposite (_current_direction (snake bot)) ->
       Bot_update_direction bot action
       = Ok {| snake := set_direction (snake bot) d;
               __previous_score := __previous_score bot |}).
Proof.
  intros Hkey Haction.
  unfold Snake_update_direction, Bot_update_direction.
  rewrite Hkey, Haction; cbn [bind].
  repeat split.
  - intros H. apply is_opposite_direction_spec in H. now rewrite H.
  - destruct (is_opposite_direction self _) eqn:E; [|reflexivity].
    apply is_opposite_direction_spec in E. contradiction.
  - intros H. apply is_opposite_direction_spec in H. now rewrite H.
  - intros H.
    destruct (is_opposite_direction (snake bot) _) eqn:E; [|reflexivity].
    apply is_opposite_direction_spec in E. contradiction.
Qed.

(** Every direction can be requested, by a key and by an action. *)
Lemma every_direction_requestable (d : Direction) :
  (exists key, KEY_TO_DIRECTION_getitem key = Ok d)
  /\ Direction_of_value (Direction_value d) = Ok d.
Proof.
  split; [|destruct d; reflexivity].
  destruct d;
    [exists "w"%string | exists "e"%string | exists "q"%string
    | exists "s"%string | exists "a"%string | exists "d"%string];
    reflexivity.
Qed.

(** ** The fruit-direction encoding *)

Lemma fruit_position_cases (fruit head : Ref) :
  (fruit = head /\ fruit_position fruit head = replicate 8 0)
  \/ (fruit <> head
      /\ exists i : nat, (i < 8)%nat
           /\ fruit_position fruit head = <[i := 1]> (replicate 8 0)).
Proof.
  destruct fruit as [fx fy], head as [hx hy].
  unfold fruit_position; cbn [fst snd].
  destruct (Z.gtb_spec fx hx); [|destruct (Z.ltb_spec fx hx)];
    (destruct (Z.gtb_spec fy hy); [|destruct (Z.ltb_spec fy hy)]);
    try (right; split; [intros [=]; lia|];
         repeat match goal with
                | |- context [?a =? ?b] =>
                    destruct (Z.eqb_spec a b); try lia
                end;
         eexists; split; [|reflexivity]; lia).
  left.
  assert (fx = hx) as -> by lia. assert (fy = hy) as -> by lia.
  rewrite Z.eqb_refl. split; reflexivity.
Qed.

(** C4, as the code has it. The only pair of deltas that falls through
    every comparison is (0, 0), i.e. the fruit on the head's own cell;
    whenever the fruit is on another cell than the head exactly one of the
    8 slots is set to 1. *)
Theorem fruit_position_all_zero_only_on_head (fruit head : Ref) :
  (fruit = head /\ fruit_position fruit head = replicate 8 0)
  \/ (fruit <> head
      /\ fruit_position fruit head <> replicate 8 0
      /\ exists i : nat, (i < 8)%nat
           /\ fruit_position fruit head = <[i := 1]> (replicate 8 0)).
Proof.
  destruct (fruit_position_cases fruit head) as [H|(Hne & i & Hi & Heq)];
    [left; exact H | right].
  split; [assumption|]. split; [|eauto].
  rewrite Heq. intros Hz.
  assert (<[i := 1]> (replicate 8 0) !! i = Some 0) as Hl.
  { rewrite Hz. apply lookup_replicate_2. exact Hi. }
  rewrite list_lookup_insert_eq in Hl by (rewrite length_replicate; exact Hi).
  discriminate.
Qed.

(** C4 as stated fails on the code: no fruit on a cell other than the
    head's leaves the 8 slots all at 0. *)
Lemma no_distinct_fruit_falls_through :
  ~ exists fruit head : Ref,
      fruit <> head /\ fruit_position fruit head = replicate 8 0.
Proof.
  intros (fruit & head & Hne & Hz).
  destruct (fruit_position_cases fruit head) as [[H _]|(_ & i & Hi & Heq)];
    [contradiction|].
  rewrite Heq in Hz.
  assert (<[i := 1]> (replicate 8 0) !! i = Some 0) as Hl.
  { rewrite Hz. apply lookup_replicate_2. exact Hi. }
  rewrite list_lookup_insert_eq in Hl by (rewrite length_replicate; exact Hi).
  discriminate.
Qed.

(** ** The reward *)

(** *** binary64 roots of small radicands *)

Lemma float_of_int_small (n : Z) : 0 <= n < 2 ^ 53 -> float_of_int n = n.
Proof.
  intros Hn. unfold float_of_int.
  destruct (Z.leb_spec (Z.log2 n - 52) 0) as [_|H]; [reflexivity|].
  exfalso. assert (0 < n) as Hpos.
  { destruct (Z.eq_dec n 0) as [->|]; [cbn in H; lia | lia]. }
  pose proof (Z.log2_lt_pow2 n 53 Hpos) as [Hl _]. lia.
Qed.

Lemma half_log2_spec (x : Z) :
  0 < x ->
  0 <= Z.log2 x / 2 /\ 4 ^ (Z.log2 x / 2) <= x < 4 ^ (Z.log2 x / 2 + 1).
Proof.
  intros Hx.
  pose proof (Z.log2_spec x Hx) as [Hlo Hhi].
  pose proof (Z.log2_nonneg x) as Hl.
  set (l := Z.log2 x) in *. set (k := l / 2).
  assert (2 * k <= l <= 2 * k + 1) as Hk.
  { unfold k. pose proof (Z.div_mod l 2 ltac:(lia)).
    pose proof (Z.mod_pos_bound l 2 ltac:(lia)). lia. }
  assert (0 <= k) as Hk0 by (unfold k; apply Z.div_pos; lia).
  split; [exact Hk0|].
  change 4 with (2 ^ 2). rewrite <- !Z.pow_mul_r by lia. split.
  - apply Z.le_trans with (2 ^ l); [|exact Hlo].
    apply Z.pow_le_mono_r; lia.
  - apply Z.lt_le_trans with (2 ^ Z.succ l); [exact Hhi|].
    apply Z.pow_le_mono_r; lia.
Qed.

(** What [float_sqrt] returns for a radicand below 2^52. *)
Lemma float_sqrt_spec (x : Z) :
  0 < x < 2 ^ 52 ->
  exists k m,
    float_sqrt x = m * 2 ^ k
    /\ 0 <= k <= 25
    /\ 4 ^ k <= x < 4 ^ (k + 1)
    /\ m * m - m < x * 4 ^ (52 - k) <= m * m + m
    /\ 0 < m.
Proof.
  intros [Hx Hb]. unfold float_sqrt.
  destruct (Z.leb_spec x 0) as [|_]; [lia|].
  destruct (half_log2_spec x Hx) as (Hk0 & Hlo & Hhi).
  set (k := Z.log2 x / 2) in *.
  assert (k <= 25) as Hk.
  { destruct (Z.le_gt_cases k 25) as [|Hgt]; [assumption|exfalso].
    assert (4 ^ 26 <= 4 ^ k) by (apply Z.pow_le_mono_r; lia).
    change (4 ^ 26) with (2 ^ 52) in *. lia. }
  assert (4 ^ 52 = 4 ^ (52 - k) * 4 ^ k) as Hsplit
    by (rewrite <- Z.pow_add_r by lia; f_equal; lia).
  assert (0 < 4 ^ k) as Hpk by (apply Z.pow_pos_nonneg; lia).
  assert (0 < 4 ^ (52 - k)) as Hpe by (apply Z.pow_pos_nonneg; lia).
  set (N := x * 4 ^ (52 - k)) in *.
  assert (x * 4 ^ 52 = N * 4 ^ k) as HN by (unfold N; rewrite Hsplit; ring).
  rewrite HN, Z.div_mul by lia.
  assert (0 < N) as HNpos by (unfold N; nia).
  pose proof (Z.sqrt_spec N ltac:(lia)) as Hsq.
  pose proof (Z.sqrt_nonneg N) as Hr.
  set (r := Z.sqrt N) in *. cbn zeta in Hsq.
  exists k. eexists. split; [reflexivity|].
  split; [lia|]. split; [lia|].
  destruct (Z.ltb_spec ((2 * r + 1) ^ 2 * 4 ^ k) (4 * (N * 4 ^ k))) as [Hup|Hdn].
  - assert ((2 * r + 1) ^ 2 < 4 * N) as H4 by nia. nia.
  - assert (4 * N <= (2 * r + 1) ^ 2) as H4 by nia.
    assert (0 < r) by nia. nia.
Qed.

Lemma mant_le (m N : Z) (B : Z) :
  0 < m -> 0 < B -> m * m - m < N -> N <= B * B -> m <= B.
Proof.
  intros Hm HB Hlo Hhi.
  destruct (Z.le_gt_cases m B) as [|Hgt]; [assumption|exfalso].
  assert (B + 1 <= m) as H1 by lia.
  assert (B * (B + 1) <= (m - 1) * m).
  { apply Z.mul_le_mono_nonneg; lia. }
  lia.
Qed.

Lemma mant_ge (m N : Z) (B : Z) :
  0 < m -> 0 < B -> N <= m * m + m -> B * B <= N -> B <= m.
Proof.
  intros Hm HB Hhi Hlo.
  destruct (Z.le_gt_cases B m) as [|Hgt]; [assumption|exfalso].
  assert (m + 1 <= B) as H1 by lia.
  assert (m * (m + 1) <= (B - 1) * B).
  { apply Z.mul_le_mono_nonneg; lia. }
  lia.
Qed.

Lemma mant_mono (m m' N N' : Z) :
  0 < m -> 0 < m' ->
  m * m - m < N -> N' <= m' * m' + m' -> m' <= m -> N' - N < 2 * m.
Proof.
  intros Hm Hm' Hlo Hhi Hle.
  assert (m' * (m' + 1) <= m * (m + 1)).
  { apply Z.mul_le_mono_nonneg; lia. }
  lia.
Qed.

Lemma float_sqrt_lt (a b : Z) :
  0 <= a < b -> b < 2 ^ 52 -> float_sqrt a < float_sqrt b.
Proof.
  intros [Ha Hab] Hb.
  destruct (float_sqrt_spec b ltac:(lia))
    as (kb & mb & -> & Hkb & Hrb & Hmb & Hmb0).
  assert (0 < 2 ^ kb) as Hpb by (apply Z.pow_pos_nonneg; lia).
  destruct (Z.eq_dec a 0) as [->|Hne].
  { change (float_sqrt 0) with 0. apply Z.mul_pos_pos; assumption. }
  destruct (float_sqrt_spec a ltac:(lia))
    as (ka & ma & -> & Hka & Hra & Hma & Hma0).
  assert (0 < 2 ^ ka) as Hpa by (apply Z.pow_pos_nonneg; lia).
  assert (2 ^ 54 <= 4 ^ (52 - ka)) as HPa.
  { change (2 ^ 54) with (4 ^ 27). apply Z.pow_le_mono_r; lia. }
  assert (4 ^ (ka + 1) * 4 ^ (52 - ka) = 2 ^ 53 * 2 ^ 53) as Hfull.
  { rewrite <- Z.pow_add_r by lia. replace (ka + 1 + (52 - ka)) with 53 by lia.
    reflexivity. }
  set (Pa := 4 ^ (52 - ka)) in *.
  assert ((a + 1) * Pa <= 2 ^ 53 * 2 ^ 53) as Htop.
  { rewrite <- Hfull. apply Z.mul_le_mono_nonneg_r; lia. }
  assert (ma <= 2 ^ 53) as Hma_le.
  { apply (mant_le ma (a * Pa)); [assumption|reflexivity|lia|lia]. }
  assert (ka <= kb) as Hk.
  { destruct (Z.le_gt_cases ka kb) as [|Hgt]; [assumption|exfalso].
    assert (4 ^ (kb + 1) <= 4 ^ ka) by (apply Z.pow_le_mono_r; lia). lia. }
  destruct (Z.eq_dec ka kb) as [<-|Hlt].
  - apply Z.mul_lt_mono_pos_r; [assumption|].
    destruct (Z.lt_ge_cases ma mb) as [|Hge]; [assumption|exfalso].
    fold Pa in Hmb.
    assert ((a + 1) * Pa <= b * Pa) as Hgap
      by (apply Z.mul_le_mono_nonneg_r; lia).
    pose proof (mant_mono ma mb (a * Pa) (b * Pa) Hma0 Hmb0
                  ltac:(lia) ltac:(lia) Hge) as Hnear.
    change (2 ^ 54) with (2 * 2 ^ 53) in HPa. lia.
  - assert (ma < 2 ^ 53) as Hma_lt.
    { destruct (Z.lt_ge_cases ma (2 ^ 53)) as [|Hge]; [assumption|exfalso].
      assert (ma = 2 ^ 53) as Hm by lia. rewrite Hm in Hma.
      change (2 ^ 54) with (2 * 2 ^ 53) in HPa. lia. }
    assert (2 ^ 52 <= mb) as Hmb_ge.
    { apply (mant_ge mb (b * 4 ^ (52 - kb))); [assumption|reflexivity|lia|].
      assert (4 ^ kb * 4 ^ (52 - kb) = 2 ^ 52 * 2 ^ 52) as <-.
      { rewrite <- Z.pow_add_r by lia. replace (kb + (52 - kb)) with 52 by lia.
        reflexivity. }
      apply Z.mul_le_mono_nonneg_r; [|lia].
      apply Z.pow_nonneg; lia. }
    apply Z.lt_le_trans with (2 ^ 53 * 2 ^ ka).
    { apply Z.mul_lt_mono_pos_r; assumption. }
    apply Z.le_trans with (2 ^ 52 * 2 ^ kb).
    { change (2 ^ 53) with (2 ^ 52 * 2 ^ 1).
      rewrite <- Z.mul_assoc, <- Z.pow_add_r by lia.
      apply Z.mul_le_mono_nonneg_l; [lia|].
      apply Z.pow_le_mono_r; lia. }
    apply Z.mul_le_mono_nonneg_r; lia.
Qed.

(** Below 2^52 the rounded roots of different integers are different and
    in the order of the integers: there, comparing two distances of
    [__calculate_distance] is comparing their radicands. *)
Lemma distance_ltb_near (fruit a b : Ref) :
  sq_dist fruit a < 2 ^ 52 -> sq_dist fruit b < 2 ^ 52 ->
  distance_ltb (__calculate_distance fruit a) (__calculate_distance fruit b)
  = (sq_dist fruit a <? sq_dist fruit b).
Proof.
  unfold __calculate_distance, distance_ltb, Num_value.
  fold (sq_dist fruit a) (sq_dist fruit b).
  assert (0 <= sq_dist fruit a) as Ha by (unfold sq_dist; nia).
  assert (0 <= sq_dist fruit b) as Hb by (unfold sq_dist; nia).
  set (ra := sq_dist fruit a) in *. set (rb := sq_dist fruit b) in *.
  intros Hna Hnb.
  rewrite !float_of_int_small by lia.
  destruct (Z.ltb_spec ra rb) as [Hlt|Hge].
  - apply Z.ltb_lt. apply float_sqrt_lt; lia.
  - apply Z.ltb_ge. destruct (Z.eq_dec ra rb) as [->|Hne]; [lia|].
    apply Z.lt_le_incl. apply float_sqrt_lt; lia.
Qed.

Lemma euclid_lt (fruit a b : Ref) :
  (euclid fruit a < euclid fruit b)%R <-> sq_dist fruit a < sq_dist fruit b.
Proof.
  assert (forall p q : Ref,
            euclid p q = sqrt (IZR (sq_dist p q))) as Heq.
  { intros p q. unfold euclid, sq_dist.
    rewrite plus_IZR. change 2 with (Z.of_nat 2).
    now rewrite <- !pow_IZR. }
  rewrite !Heq.
  assert (0 <= sq_dist fruit a) as Ha by (unfold sq_dist; nia).
  split.
  - intros H. apply sqrt_lt_0_alt in H. now apply lt_IZR.
  - intros H. apply sqrt_lt_1_alt. split.
    + now apply IZR_le.
    + now apply IZR_lt.
Qed.

(** C7. When the grid holds a fruit and the six neighbours of the head
    exist, [get_observation] returns, and its reward is: +10 if the score
    is strictly above the recorded baseline, the baseline becoming the
    score; otherwise +2 or -3, the baseline staying as it was, and - as
    long as the two squared distances are below 2^50, as on every grid of
    fewer than 2^24 rows and columns - +2 if the Euclidean distance from
    the current head to the fruit is strictly less than from the previous
    head, and -3 if it is not. (The bound leaves a factor 4 to the first
    radicands whose binary64 roots can coincide, which covers a [pow] that
    is off by one unit in the last place.) *)
Theorem get_observation_reward
    (self : Bot) (g : Grid) (fruit : Cell.t) (others : list Cell.t)
    (flags : list Num) :
  Grid_of_type g FRUIT = fruit :: others ->
  blocked_flags (snake self) g Direction_members = Ok flags ->
  exists state reward self',
    get_observation self g = Ok (state, reward, self')
    /\ snake self' = snake self
    /\ (_score (snake self) > __previous_score self ->
          reward = 10 /\ __previous_score self' = _score (snake self))
    /\ (_score (snake self) <= __previous_score self ->
          (reward = 2 \/ reward = -3)
          /\ __previous_score self' = __previous_score self)
    /\ (_score (snake self) <= __previous_score self ->
        sq_dist (ref fruit) (_head (snake self)) < 2 ^ 50 ->
        sq_dist (ref fruit) (_previous_head (snake self)) < 2 ^ 50 ->
        (euclid (ref fruit) (_head (snake self))
         < euclid (ref fruit) (_previous_head (snake self)))%R ->
          reward = 2)
    /\ (_score (snake self) <= __previous_score self ->
        sq_dist (ref fruit) (_head (snake self)) < 2 ^ 50 ->
        sq_dist (ref fruit) (_previous_head (snake self)) < 2 ^ 50 ->
        ~ (euclid (ref fruit) (_head (snake self))
           < euclid (ref fruit) (_previous_head (snake self)))%R ->
          reward = -3).
Proof.
  intros Hfruit Hflags. unfold get_observation.
  rewrite Hflags, Hfruit; cbn [bind]. unfold reward_of.
  destruct (Z.gtb_spec (_score (snake self)) (__previous_score self))
    as [Hgt|Hle].
  - eexists _, _, _. split; [reflexivity|]. cbn [snake __previous_score].
    repeat split; intros; lia.
  - destruct (distance_ltb _ _) eqn:Hd.
    + eexists _, _, _. split; [reflexivity|]. cbn [snake __previous_score].
      split; [reflexivity|]. split; [lia|]. split; [auto|].
      split; [reflexivity|].
      intros _ Hcur Hprev Hfar. exfalso. apply Hfar.
      rewrite distance_ltb_near in Hd by lia.
      apply euclid_lt. now apply Z.ltb_lt.
    + eexists _, _, _. split; [reflexivity|]. cbn [snake __previous_score].
      split; [reflexivity|]. split; [lia|]. split; [auto|].
      split; [|reflexivity].
      intros _ Hcur Hprev Hnear. exfalso.
      rewrite distance_ltb_near in Hd by lia.
      apply euclid_lt in Hnear. apply Z.ltb_ge in Hd. lia.
Qed.

(** ** The replay memory *)

Lemma deque_append_length {A : Type} (maxlen : Z) (d : list A) (a : A) :
  Z.of_nat (length d) <= maxlen ->
  Z.of_nat (length (deque_append maxlen d a)) <= maxlen.
Proof.
  intros H. unfold deque_append.
  destruct (Z.ltb_spec maxlen (Z.of_nat (length (d ++ [a])))) as [Hlt|Hge].
  - destruct d as [|x d]; cbn [app tail length] in *; [lia|].
    rewrite length_app. cbn [length]. lia.
  - exact Hge.
Qed.

Lemma store_all_bounded {Model : Type} (ts : list Transition)
    (net : DQNetwork Model) :
  Z.of_nat (length (memory net)) <= memory_size net ->
  Z.of_nat (length (memory (fold_left store_transition ts net)))
  <= memory_size net
  /\ memory_size (fold_left store_transition ts net) = memory_size net.
Proof.
  revert net; induction ts as [|t ts IH]; intros net H; cbn [fold_left].
  - auto.
  - destruct (IH (store_transition net t)) as [H1 H2].
    + cbn [store_transition memory memory_size].
      now apply deque_append_length.
    + cbn [store_transition memory_size] in H1, H2. auto.
Qed.

Lemma pick_In {A : Type} (population : list A) (draw : list nat)
    (batch : list A) :
  pick population draw = Ok batch ->
  forall a, List.In a batch -> List.In a population.
Proof.
  revert batch; induction draw as [|i draw IH]; intros batch; cbn [pick].
  - intros [= <-] a [].
  - destruct (population !! i) as [x|] eqn:Hx; [|discriminate].
    intros H. apply bind_Ok in H as (rest & Hrest & [= <-]).
    intros a [<-|Ha].
    + apply list_elem_of_In, list_elem_of_lookup. eauto.
    + eapply IH; eauto.
Qed.

(** C9. Starting from the empty memory of a new network, after any
    sequence of [store_transition] the memory holds at most [memory_size]
    transitions. When the memory is full, storing one more transition
    removes exactly the oldest entry and keeps all the others, in order,
    followed by the new one; no later sample can return the evicted entry
    (unless an equal transition is still stored). *)
Theorem replay_memory_bounded_fifo
    {Model : Type} (net : DQNetwork Model) (t oldest : Transition)
    (newer : list Transition) :
  memory net = oldest :: newer ->
  Z.of_nat (length (memory net)) = memory_size net ->
  memory (store_transition net t) = newer ++ [t]
  /\ Z.of_nat (length (memory (store_transition net t))) = memory_size net
  /\ (forall k draw batch,
        random_sample (memory (store_transition net t)) k draw = Ok batch ->
        forall a, List.In a batch -> List.In a (newer ++ [t]))
  /\ (~ List.In oldest (newer ++ [t]) ->
      forall k draw batch,
        random_sample (memory (store_transition net t)) k draw = Ok batch ->
        ~ List.In oldest batch)
  /\ (forall gamma n_actions epsilon batch_size epsilon_delta epsilon_final
             capacity (m : Model) (new : DQNetwork Model)
             (ts : list Transition),
        DQNetwork_init gamma n_actions epsilon batch_size
                       epsilon_delta epsilon_final capacity m = Ok new ->
        Z.of_nat (length (memory (fold_left store_transition ts new)))
        <= capacity).
Proof.
  intros Hmem Hfull.
  assert (memory (store_transition net t) = newer ++ [t]) as Hstore.
  { cbn [store_transition memory]. unfold deque_append.
    rewrite Hmem in *. cbn [length] in Hfull.
    destruct (Z.ltb_spec (memory_size net)
                (Z.of_nat (length ((oldest :: newer) ++ [t])))) as [Hlt|Hge].
    - reflexivity.
    - rewrite length_app in Hge. cbn [length] in Hge. lia. }
  assert (forall k draw batch,
            random_sample (memory (store_transition net t)) k draw = Ok batch ->
            forall a, List.In a batch -> List.In a (newer ++ [t])) as Hsample.
  { intros k draw batch. rewrite Hstore. unfold random_sample.
    destruct (_ || _); [discriminate|]. apply pick_In. }
  split; [exact Hstore|]. split.
  { rewrite Hstore, <- Hfull, Hmem, length_app. cbn [length]. lia. }
  split; [exact Hsample|]. split.
  - intros Hgone k draw batch Hb Hin. apply Hgone.
    eapply Hsample; eauto.
  - intros ? ? ? ? ? ? capacity m new ts Hinit.
    unfold DQNetwork_init in Hinit.
    destruct (Z.ltb_spec capacity 0); [discriminate|].
    injection Hinit as <-.
    apply (store_all_bounded ts (mkDQNetwork _ _ _ _ _ _ capacity [] m)).
    cbn. lia.
Qed.

(** ** The training targets *)

Lemma target_values_lookup (gamma : Q) (batch : list Transition)
    (q_next : list (list Q)) (values : list Q) :
  target_values gamma batch q_next = Ok values ->
  forall (i : nat) state action reward next_state done,
    batch !! i = Some (state, action, reward, next_state, done) ->
    exists row m,
      q_next !! i = Some row /\ row_max row = Ok m
      /\ values !! i
         = Some (inject_Z reward + gamma * m * Q_of_bool done)%Q.
Proof.
  revert q_next values.
  induction batch as [|[[[[s0 a0] r0] n0] d0] batch IH];
    intros q_next values H i state action reward next_state done Hi.
  - destruct i; discriminate.
  - destruct q_next as [|row q_next]; cbn [target_values] in H;
      [discriminate|].
    apply bind_Ok in H as (m & Hm & H).
    apply bind_Ok in H as (rest & Hrest & [= <-]).
    destruct i as [|i].
    + injection Hi as <- <- <- <- <-. exists row, m. auto.
    + exact (IH _ _ Hrest i _ _ _ _ _ Hi).
Qed.

Lemma assign_targets_lookup (q_target : list (list Q))
    (batch : list Transition) (values : list Q) (out : list (list Q)) :
  assign_targets q_target batch values = Ok out ->
  forall (i : nat) state action reward next_state done,
    batch !! i = Some (state, action, reward, next_state, done) ->
    exists row v j,
      q_target !! i = Some row /\ values !! i = Some v
      /\ np_index (length row) action = Ok j
      /\ out !! i = Some (<[j := v]> row).
Proof.
  revert batch values out.
  induction q_target as [|row q_target IH];
    intros batch values out H i state action reward next_state done Hi.
  - destruct batch as [|t batch]; [destruct i; discriminate|].
    cbn [assign_targets] in H. discriminate.
  - destruct batch as [|[[[[s0 a0] r0] n0] d0] batch];
      [destruct i; discriminate|].
    destruct values as [|v values]; cbn [assign_targets] in H;
      [discriminate|].
    apply bind_Ok in H as (j & Hj & H).
    apply bind_Ok in H as (rest & Hrest & [= <-]).
    destruct i as [|i].
    + injection Hi as <- <- <- <- <-. exists row, v, j. auto.
    + exact (IH _ _ _ Hrest i _ _ _ _ _ Hi).
Qed.

Lemma np_index_lt (n : nat) (a : Z) (j : nat) :
  np_index n a = Ok j -> (j < n)%nat.
Proof.
  unfold np_index.
  destruct (Z.leb_spec 0 a); destruct (Z.ltb_spec a (Z.of_nat n));
    cbn [andb]; try (intros [= <-]; lia);
    destruct (Z.leb_spec (- Z.of_nat n) a); destruct (Z.ltb_spec a 0);
    cbn [andb]; try discriminate; intros [= <-]; lia.
Qed.

(** What [train] submits for the [i]-th sampled transition: the current
    prediction for its state, with the slot of its action overwritten by
    [reward + gamma * max(q_next) * flag], where [flag] is the stored fifth
    element read as a number. *)
Lemma q_target_of_slot {Model : Type}
    (predict : Model -> list State -> list (list Q))
    (net : DQNetwork Model) (batch : list Transition)
    (targets : list (list Q)) :
  q_target_of predict net batch = Ok targets ->
  forall (i : nat) state action reward next_state done,
    batch !! i = Some (state, action, reward, next_state, done) ->
    exists row next_row m j target,
      predict (model net) (states_of batch) !! i = Some row
      /\ predict (model net) (next_states_of batch) !! i = Some next_row
      /\ row_max next_row = Ok m
      /\ np_index (length row) action = Ok j
      /\ targets !! i = Some target
      /\ target !! j
         = Some (inject_Z reward + gamma net * m * Q_of_bool done)%Q
      /\ forall k, k <> j -> target !! k = row !! k.
Proof.
  unfold q_target_of. intros H i state action reward next_state done Hi.
  apply bind_Ok in H as (values & Hvalues & Hassign).
  destruct (target_values_lookup _ _ _ _ Hvalues i _ _ _ _ _ Hi)
    as (next_row & m & Hnext & Hm & Hv).
  destruct (assign_targets_lookup _ _ _ _ Hassign i _ _ _ _ _ Hi)
    as (row & v & j & Hrow & Hv' & Hj & Hout).
  rewrite Hv in Hv'. injection Hv' as <-.
  eexists row, next_row, m, j, _.
  repeat (split; [eassumption|]). split.
  - apply list_lookup_insert_eq. eapply np_index_lt; eassumption.
  - intros k Hk. apply list_lookup_insert_ne. congruence.
Qed.


(** C2, evaluated on the code. Two turns of an episode of [train.py] store
    a transition that continues the episode, with fifth element [false],
    and the transition that ends it, with fifth element [true]. Trained on
    a memory that holds both, the target submitted for the ending
    transition is [-10 + 0.99 * max(q_next) = -9.01] in the slot of its
    action, and the target for the continuing one is its reward [-3]
    alone: the stored flag is [bot.lost], so the bootstrap term is kept
    where the episode ends and dropped where it continues. In every other
    slot the target is the current prediction [0, _, 0, 0, 0, 1]. *)
Theorem ending_transition_keeps_bootstrap :
  exists net s1 s2 s3 net' states targets,
    let continuing : Transition := (s1, 1, -3, s2, false) in
    let ending : Transition := (s3, 1, -10, replicate 15 (Int 0), true) in
    train_py_model = Ok net
    /\ two_turns = Ok [continuing; ending]
    /\ train flat_predict log_batch
         (with_memory net (replicate 998 continuing ++ [continuing; ending]))
         (999%nat :: seq 0 31)
       = Ok net'
    /\ model net' = [(states, targets)]
    /\ map Qred <$> targets !! 0%nat
       = Some [0; -901 # 100; 0; 0; 0; 1]%Q
    /\ map Qred <$> targets !! 1%nat
       = Some [0; -3 # 1; 0; 0; 0; 1]%Q.
Proof.
  vm_compute. eexists _, _, _, _, _, _, _. repeat split.
Qed.

(** ** The decay of epsilon *)




(** C3, evaluated on the code. With [epsilon = 0.015],
    [epsilon_delta = 0.01] and [epsilon_final = 0.01], the first training
    step takes epsilon from above the floor to [0.005], under it, and the
    second one raises it back to [0.01]: epsilon dropped below
    [epsilon_final] and then increased. *)
Theorem epsilon_overshoots_floor :
  exists e1 e2 : Q,
    two_decays = Ok (3 # 200, e1, e2)%Q
    /\ (default_epsilon_final < 3 # 200)%Q
    /\ (e1 == 1 # 200)%Q
    /\ (e1 < default_epsilon_final)%Q
    /\ (e1 < e2)%Q
    /\ (e2 == default_epsilon_final)%Q.
Proof.
  exists (100 # 20000)%Q, (1 # 100)%Q.
  split; [vm_compute; reflexivity|].
  repeat split.
Qed.

(** ** Invariants of a game *)

Lemma range_NoDup (n : Z) : List.NoDup (range n).
Proof.
  unfold range. apply Finite.Injective_map_NoDup.
  - intros a b H. lia.
  - apply seq_NoDup.
Qed.

Lemma pairs_NoDup (xs ys : list Z) :
  List.NoDup xs -> List.NoDup ys ->
  List.NoDup (flat_map (fun i => map (fun j => (i, j)) ys) xs).
Proof.
  intros Hxs Hys. induction Hxs as [|a xs Ha Hxs IH]; cbn [flat_map].
  - constructor.
  - apply List.NoDup_app.
    + apply Finite.Injective_map_NoDup; [|assumption].
      intros j j' [= ->]. reflexivity.
    + exact IH.
    + intros [i j] Hin Hin'.
      apply in_map_iff in Hin as (j0 & [= <- <-] & _).
      apply in_flat_map in Hin' as (i' & Hi' & Hin').
      apply in_map_iff in Hin' as (j1 & [= <- <-] & _).
      contradiction.
Qed.

(** [Grid.__init__] builds one cell per coordinate. *)
Lemma Grid_init_wf (rows cols : Z) : Grid_wf (Grid_init rows cols).
Proof.
  unfold Grid_wf, Grid_init; cbn [cells].
  assert (forall xs,
            map ref (flat_map (fun i =>
                       map (fun j => Cell.mk i j (if is_edge rows cols i j
                                                  then BOUND else NORMAL))
                           (range cols)) xs)
            = flat_map (fun i => map (fun j => (i, j)) (range cols)) xs) as ->.
  { induction xs as [|i xs IH]; [reflexivity|].
    cbn [flat_map]. rewrite map_app, IH, map_map. reflexivity. }
  apply pairs_NoDup; apply range_NoDup.
Qed.

Lemma Snake_init_live (g : Grid) (head : Cell.t) (d : Direction)
    (tag : Cell.CType) :
  live (fst (Snake_init g head d tag)).
Proof. split; [reflexivity | exists []; reflexivity]. Qed.

Lemma Snake_init_owns (g : Grid) (head : Cell.t) (d : Direction)
    (tag : Cell.CType) :
  tag = SNAKE \/ tag = BOT ->
  List.In head (cells g) ->
  owns (fst (Snake_init g head d tag)) (snd (Snake_init g head d tag)).
Proof.
  intros Htag Hin. unfold owns, Snake_init; cbn [fst snd _snake_type _body].
  split; [assumption|]. split.
  - constructor; [intros [] | constructor].
  - intros r [<-|[]]. destruct (Grid_at_In g head Hin) as [c Hc].
    apply type_at_Ok. eexists. split.
    + apply Grid_at_assign_same. eassumption.
    + reflexivity.
Qed.

Lemma random_choice_In {A : Type} (l : list A) (rnd : nat) (a : A) :
  random_choice l rnd = Ok a -> List.In a l.
Proof.
  unfold random_choice.
  destruct (l !! _) as [x|] eqn:Hx; [|discriminate].
  intros [= <-]. apply list_elem_of_In, list_elem_of_lookup. eauto.
Qed.

(** The three ways in which [move] returns for a live snake. *)
Lemma move_inv (self self' : Snake) (g g' : Grid) (rnd : nat) :
  live self ->
  move self g rnd = Ok (self', g') ->
  exists new_head tl,
    Grid_at g (candidate self) = Ok new_head
    /\ last (_body self) = Some tl
    /\ ((blocking (Cell.cell_type new_head) /\ _lost self' = true)
        \/ (Cell.cell_type new_head = FRUIT
            /\ exists respawn,
                 List.In respawn (Grid_of_type g NORMAL)
                 /\ _body self' = candidate self :: _body self
                 /\ _head self' = candidate self
                 /\ _snake_type self' = _snake_type self
                 /\ _lost self' = false
                 /\ g' = assign_type (assign_type g (ref respawn) FRUIT)
                                     (candidate self) (_snake_type self))
        \/ (~ blocking (Cell.cell_type new_head)
            /\ _body self' = candidate self :: removelast (_body self)
            /\ _head self' = candidate self
            /\ _snake_type self' = _snake_type self
            /\ _lost self' = false
            /\ g' = assign_type (assign_type g tl NORMAL)
                                (candidate self) (_snake_type self))).
Proof.
  intros [Hlost [rest Hbody]] Hmove.
  destruct (Grid_at g (candidate self)) as [new_head|e] eqn:Hat.
  2:{ exfalso. unfold move, candidate in *.
      destruct (_head_position_change self (_current_direction self)).
      cbn [fst snd] in Hat. rewrite Hat in Hmove. discriminate. }
  destruct (last (_head self :: rest)) as [tl|] eqn:Hlast.
  2:{ apply last_None in Hlast. discriminate. }
  rewrite (move_unfold self g rnd _ tl rest new_head Hbody Hlast Hat) in Hmove.
  pose proof (Grid_at_Ok _ _ _ Hat) as [Href _].
  exists new_head, tl. split; [reflexivity|].
  split; [now rewrite Hbody|].
  destruct (in_range_1_4 _) eqn:Hrange.
  - left. apply in_range_1_4_blocking in Hrange.
    unfold remove_body in Hmove. injection Hmove as <- <-. auto.
  - assert (~ blocking (Cell.cell_type new_head)) as Hfree.
    { intros H. apply in_range_1_4_blocking in H. congruence. }
    destruct (Cell.eqb _ FRUIT) eqn:Hfruit.
    + right; left.
      assert (Cell.cell_type new_head = FRUIT) as Hty.
      { destruct (Cell.cell_type new_head); try discriminate; reflexivity. }
      split; [assumption|].
      unfold _insert_fruit in Hmove.
      destruct (random_choice _ rnd) as [respawn|] eqn:Hch;
        cbn [bind] in Hmove; [|discriminate].
      injection Hmove as <- <-. exists respawn.
      cbn [_body _head _snake_type _lost]. rewrite Href, Hbody.
      repeat split; auto. eapply random_choice_In; eassumption.
    + right; right. injection Hmove as <- <-.
      cbn [_body _head _snake_type _lost]. rewrite Href, Hbody.
      repeat split; auto.
Qed.

(** A snake that is still in play after [move] is live again. *)
Lemma move_keeps_live (self self' : Snake) (g g' : Grid) (rnd : nat) :
  live self -> move self g rnd = Ok (self', g') -> _lost self' = false ->
  live self'.
Proof.
  intros Hlive Hmove Hlost.
  destruct (move_inv _ _ _ _ _ Hlive Hmove)
    as (nh & tl & _ & _ & [[_ H]|[(_ & r & _ & Hb & Hh & _)|(_ & Hb & Hh & _)]]).
  - congruence.
  - split; [assumption|]. rewrite Hb, Hh. eauto.
  - split; [assumption|]. rewrite Hb, Hh. eauto.
Qed.

Lemma Grid_wf_remove_body (body : list Ref) (g : Grid) :
  Grid_wf g ->
  Grid_wf (fold_left (fun g cell => assign_type g cell NORMAL) body g).
Proof.
  revert g; induction body as [|b body IH]; intros g H; cbn [fold_left].
  - assumption.
  - apply IH. now apply Grid_wf_assign.
Qed.

(** [move] keeps the grid one cell per coordinate. *)
Lemma move_keeps_wf (self self' : Snake) (g g' : Grid) (rnd : nat) :
  live self -> Grid_wf g -> move self g rnd = Ok (self', g') -> Grid_wf g'.
Proof.
  intros Hlive Hwf Hmove.
  destruct Hlive as [Hlost [rest Hbody]].
  destruct (Grid_at g (candidate self)) as [new_head|e] eqn:Hat.
  2:{ exfalso. unfold move, candidate in *.
      destruct (_head_position_change self (_current_direction self)).
      cbn [fst snd] in Hat. rewrite Hat in Hmove. discriminate. }
  destruct (last (_head self :: rest)) as [tl|] eqn:Hlast.
  2:{ apply last_None in Hlast. discriminate. }
  rewrite (move_unfold self g rnd _ tl rest new_head Hbody Hlast Hat) in Hmove.
  destruct (in_range_1_4 _).
  - unfold remove_body in Hmove. injection Hmove as _ <-.
    apply Grid_wf_remove_body. now repeat apply Grid_wf_assign.
  - destruct (Cell.eqb _ FRUIT).
    + unfold _insert_fruit in Hmove.
      destruct (random_choice _ rnd); cbn [bind] in Hmove; [|discriminate].
      injection Hmove as _ <-. now repeat apply Grid_wf_assign.
    + injection Hmove as _ <-. now repeat apply Grid_wf_assign.
Qed.

Lemma type_at_assign_other (g : Grid) (r key : Ref) (v : Cell.CType) :
  key <> r -> type_at (assign_type g r v) key = type_at g key.
Proof.
  intros H. unfold type_at. now rewrite Grid_at_assign_other.
Qed.

Lemma type_at_assign_same (g : Grid) (r : Ref) (v : Cell.CType) (c : Cell.t) :
  Grid_at g r = Ok c -> type_at (assign_type g r v) r = Ok v.
Proof.
  intros H. unfold type_at.
  now rewrite (Grid_at_assign_same g r v c H).
Qed.

Lemma In_removelast {A : Type} (l : list A) (a : A) :
  List.In a (removelast l) -> List.In a l.
Proof.
  destruct l as [|x l] using rev_ind; [intros []|].
  rewrite removelast_last. intros H. apply in_or_app. now left.
Qed.

Lemma NoDup_removelast {A : Type} (l : list A) (tl : A) :
  List.NoDup l -> last l = Some tl ->
  List.NoDup (removelast l) /\ ~ List.In tl (removelast l).
Proof.
  intros Hnd Hlast. apply last_Some in Hlast as [l' ->].
  rewrite removelast_last.
  apply NoDup_remove in Hnd. now rewrite app_nil_r in Hnd.
Qed.

(** A snake that is still in play after [move] owns its cells again: the
    hypotheses of the statements about [move] hold all along a game. *)
Lemma move_keeps_owns (self self' : Snake) (g g' : Grid) (rnd : nat) :
  Grid_wf g -> live self -> owns self g ->
  move self g rnd = Ok (self', g') -> _lost self' = false ->
  owns self' g'.
Proof.
  intros Hwf Hlive (Htag & Hnd & Hown) Hmove Hlost.
  destruct (move_inv _ _ _ _ _ Hlive Hmove)
    as (nh & tl & Hat & Hlast & Hcases).
  assert (blocking (_snake_type self)) as Hblock
    by (unfold blocking; tauto).
  assert (~ blocking (Cell.cell_type nh) -> ~ List.In (candidate self) (_body self))
    as Hfresh.
  { intros Hfree Hin. apply Hown in Hin.
    apply type_at_Ok in Hin as (c & Hc & Hty).
    rewrite Hat in Hc. injection Hc as <-. now rewrite Hty in Hfree. }
  destruct Hcases as [[_ H]|[(Hfruit & respawn & Hin & Hb & Hh & Ht & _ & ->)
                            |(Hfree & Hb & Hh & Ht & _ & ->)]].
  - congruence.
  - assert (~ blocking (Cell.cell_type nh)) as Hfree.
    { rewrite Hfruit. intros [H|[H|H]]; discriminate. }
    specialize (Hfresh Hfree).
    unfold owns. rewrite Ht, Hb. split; [assumption|]. split.
    + now constructor.
    + intros r [<-|Hr].
      * eapply type_at_assign_same. rewrite Grid_at_assign, Hat. reflexivity.
      * rewrite type_at_assign_other by (intros ->; contradiction).
        rewrite type_at_assign_other; [now apply Hown|].
        intros ->. apply Grid_of_type_In in Hin as [Hin Hty].
        destruct (Grid_at_In g respawn Hin) as [c Hc].
        pose proof (Grid_at_Ok _ _ _ Hc) as [Href Hcin].
        apply (Grid_wf_inj g _ _ Hwf Hcin Hin) in Href. subst c.
        apply Hown in Hr. apply type_at_Ok in Hr as (c' & Hc' & Hty').
        rewrite Hc in Hc'. injection Hc' as <-.
        rewrite Hty in Hty'. destruct Htag as [H|H]; congruence.
  - specialize (Hfresh Hfree).
    destruct (NoDup_removelast _ _ Hnd Hlast) as [Hnd' Htl].
    unfold owns. rewrite Ht, Hb. split; [assumption|]. split.
    + constructor; [|assumption].
      intros H. apply Hfresh. now apply In_removelast.
    + intros r [<-|Hr].
      * eapply type_at_assign_same. rewrite Grid_at_assign, Hat. reflexivity.
      * rewrite type_at_assign_other.
        2:{ intros ->. apply Hfresh. now apply In_removelast. }
        rewrite type_at_assign_other by (intros ->; contradiction).
        apply Hown. now apply In_removelast.
Qed.

(** Under the invariant the cell of the last segment carries the snake's
    tag, as the statement about running into one's own tail assumes. *)
Lemma owns_tail (self : Snake) (g : Grid) (tl : Ref) :
  owns self g -> last (_body self) = Some tl ->
  type_at g tl = Ok (_snake_type self)
  /\ (_snake_type self = SNAKE \/ _snake_type self = BOT).
Proof.
  intros (Htag & _ & Hown) Hlast. split; [|assumption].
  apply Hown. apply last_Some in Hlast as [l ->].
  apply in_or_app. right. now left.
Qed.

(** ** The statements at concrete states *)

(** The concrete states above are the ones the code reaches. *)
Lemma corner_is_first_player :
  first_player 11 29 = Ok (corner_snake, corner_grid).
Proof. vm_compute. reflexivity. Qed.

Lemma tail_chase_reaches_chaser : tail_chase = Ok (chaser, chaser_grid).
Proof. vm_compute. reflexivity. Qed.

Lemma fed_bot_reached :
  _insert_fruit corner_bot_grid 214
  = Ok (assign_type corner_bot_grid (8, 26) FRUIT)
  /\ move (snake corner_bot) (assign_type corner_bot_grid (8, 26) FRUIT) 0
     = Ok (snake fed_bot, fed_grid).
Proof. split; vm_compute; reflexivity. Qed.

Lemma move_candidate_by_column_witness :
  move corner_snake corner_grid 0 = Ok (stepped_snake, stepped_grid)
  /\ _lost stepped_snake = false
  /\ _head stepped_snake = (9 + -1, 1 + 1)
  /\ _previous_head stepped_snake = (9, 1).
Proof.
  assert (move corner_snake corner_grid 0 = Ok (stepped_snake, stepped_grid))
    as Hmove by (vm_compute; reflexivity).
  assert (_lost stepped_snake = false) as Hlost by reflexivity.
  destruct (move_candidate_by_column _ _ _ _ _ Hmove Hlost)
    as (Hhead & Hprev & _).
  repeat split; assumption.
Defined.

Lemma move_collision_witness :
  let self := set_direction corner_snake SOUTH in
  live self
  /\ Grid_at corner_grid (candidate self) = Ok (Cell.mk 10 1 BOUND)
  /\ blocking BOUND
  /\ exists self' g',
       move self corner_grid 0 = Ok (self', g')
       /\ _lost self' = true /\ _body self' = []
       /\ _head self' = (9, 1)
       /\ Grid_at g' (9, 1) = Ok (Cell.mk 9 1 NORMAL)
       /\ type_at g' (9, 1) = Ok NORMAL.
Proof.
  intros self.
  assert (live self) as Hlive
    by (split; [reflexivity | exists []; reflexivity]).
  assert (Grid_at corner_grid (candidate self) = Ok (Cell.mk 10 1 BOUND))
    as Hat by (vm_compute; reflexivity).
  assert (blocking BOUND) as Hblock by (left; reflexivity).
  repeat (split; [assumption|]).
  destruct (move_collision self corner_grid 0 _ Hlive Hat Hblock)
    as (self' & g' & Hmove & Hself & Hin & _).
  exists self', g'. split; [assumption|]. subst self'.
  repeat (split; [reflexivity|]).
  apply (Hin (9, 1) (Cell.mk 9 1 SNAKE)).
  - left; reflexivity.
  - vm_compute; reflexivity.
Defined.

Lemma move_fruit_witness :
  live corner_snake
  /\ Grid_at fruit_ahead_grid (candidate corner_snake) = Ok (Cell.mk 8 2 FRUIT)
  /\ Grid_of_type fruit_ahead_grid NORMAL <> []
  /\ exists respawn self' g',
       move corner_snake fruit_ahead_grid 163 = Ok (self', g')
       /\ _body self' = [(8, 2); (9, 1)]
       /\ _score self' = 10
       /\ List.In respawn (Grid_of_type fruit_ahead_grid NORMAL)
       /\ type_at g' (8, 2) = Ok SNAKE.
Proof.
  assert (live corner_snake) as Hlive
    by (split; [reflexivity | exists []; reflexivity]).
  assert (Grid_at fruit_ahead_grid (candidate corner_snake)
          = Ok (Cell.mk 8 2 FRUIT)) as Hat by (vm_compute; reflexivity).
  assert (Grid_of_type fruit_ahead_grid NORMAL <> []) as Hempty
    by (vm_compute; discriminate).
  repeat (split; [assumption|]).
  destruct (move_fruit corner_snake fruit_ahead_grid 163 _ Hlive Hat
              eq_refl Hempty)
    as (respawn & self' & g' & Hmove & Hself & _ & Hin & _ & Htype & _).
  exists respawn, self', g'. split; [assumption|]. subst self'.
  repeat (split; [reflexivity || assumption|]).
  exact Htype.
Defined.

Lemma move_onto_own_tail_witness :
  live chaser
  /\ last (_body chaser) = Some (8, 2)
  /\ candidate chaser = (8, 2)
  /\ type_at chaser_grid (8, 2) = Ok SNAKE
  /\ exists self' g',
       move chaser chaser_grid 0 = Ok (self', g')
       /\ _lost self' = true /\ _body self' = []
       /\ type_at g' (8, 2) = Ok NORMAL.
Proof.
  assert (live chaser) as Hlive
    by (split; [reflexivity | eexists; reflexivity]).
  assert (type_at chaser_grid (8, 2) = Ok (_snake_type chaser)) as Htype
    by (vm_compute; reflexivity).
  repeat (split; [assumption || reflexivity|]).
  destruct (move_onto_own_tail chaser chaser_grid 0 (8, 2) Hlive
              ltac:(cbn; lia) eq_refl eq_refl Htype (or_introl eq_refl))
    as (self' & g' & Hmove & Hlost & Hbody & _ & _ & Hcleared).
  exists self', g'. auto.
Defined.

Lemma get_observation_reward_witness :
  let seen := {| snake := snake fed_bot; __previous_score := 10 |} in
  Grid_of_type fed_grid FRUIT = [Cell.mk 1 1 FRUIT]
  /\ blocked_flags (snake fed_bot) fed_grid Direction_members
     = Ok [Int 0; Int 0; Int 0; Int 0; Int 0; Int 1]
  /\ _score (snake fed_bot) > __previous_score fed_bot
  /\ (exists state self',
        get_observation fed_bot fed_grid = Ok (state, 10, self')
        /\ __previous_score self' = 10)
  /\ _score (snake seen) <= __previous_score seen
  /\ sq_dist (1, 1) (_head (snake seen)) < 2 ^ 50
  /\ sq_dist (1, 1) (_previous_head (snake seen)) < 2 ^ 50
  /\ (euclid (1, 1)%Z (_head (snake seen))
      < euclid (1, 1)%Z (_previous_head (snake seen)))%R
  /\ exists state self',
       get_observation seen fed_grid = Ok (state, 2, self').
Proof.
  intros seen.
  assert (Grid_of_type fed_grid FRUIT = [Cell.mk 1 1 FRUIT]) as Hfruit
    by (vm_compute; reflexivity).
  assert (blocked_flags (snake fed_bot) fed_grid Direction_members
          = Ok [Int 0; Int 0; Int 0; Int 0; Int 0; Int 1]) as Hflags
    by (vm_compute; reflexivity).
  assert (_score (snake fed_bot) > __previous_score fed_bot) as Hgt
    by (cbn; lia).
  split; [exact Hfruit|]. split; [exact Hflags|]. split; [exact Hgt|].
  split.
  { destruct (get_observation_reward fed_bot fed_grid _ _ _ Hfruit Hflags)
      as (state & reward & self' & Hobs & _ & Hup & _).
    destruct (Hup Hgt) as [-> Hbase].
    exists state, self'. split; [assumption | exact Hbase]. }
  assert (_score (snake seen) <= __previous_score seen) as Hle
    by (cbn; lia).
  assert (sq_dist (1, 1) (_head (snake seen)) < 2 ^ 50) as Hcur
    by (vm_compute; reflexivity).
  assert (sq_dist (1, 1) (_previous_head (snake seen)) < 2 ^ 50) as Hprev
    by (vm_compute; reflexivity).
  assert (euclid (1, 1)%Z (_head (snake seen))
          < euclid (1, 1)%Z (_previous_head (snake seen)))%R as Hnear
    by (apply euclid_lt; vm_compute; reflexivity).
  split; [exact Hle|]. split; [exact Hcur|]. split; [exact Hprev|].
  split; [exact Hnear|].
  destruct (get_observation_reward seen fed_grid _ _ _ Hfruit Hflags)
    as (state & reward & self' & Hobs & _ & _ & _ & Htwo & _).
  rewrite (Htwo Hle Hcur Hprev Hnear) in Hobs.
  exists state, self'. exact Hobs.
Defined.

Lemma update_direction_guard_witness :
  KEY_TO_DIRECTION_getitem "w" = Ok NORTH
  /\ Direction_of_value 0 = Ok NORTH
  /\ Snake_update_direction corner_snake "w"
     = Ok (set_direction corner_snake NORTH)
  /\ Snake_update_direction (set_direction corner_snake SOUTH) "w"
     = Ok (set_direction corner_snake SOUTH)
  /\ Bot_update_direction corner_bot 0
     = Ok {| snake := set_direction (snake corner_bot) NORTH;
             __previous_score := __previous_score corner_bot |}.
Proof.
  assert (KEY_TO_DIRECTION_getitem "w" = Ok NORTH) as Hkey by reflexivity.
  assert (Direction_of_value 0 = Ok NORTH) as Haction by reflexivity.
  repeat (split; [assumption|]).
  destruct (update_direction_guard corner_snake corner_bot NORTH "w" 0
              Hkey Haction) as (_ & Hset & _ & Hbot).
  destruct (update_direction_guard (set_direction corner_snake SOUTH)
              corner_bot NORTH "w" 0 Hkey Haction) as (Hkeep & _).
  split; [apply Hset; discriminate|].
  split; [apply Hkeep; reflexivity|].
  apply Hbot; discriminate.
Defined.

Lemma replay_memory_bounded_fifo_witness :
  let t : Transition :=
    (replicate 15 (Int 2), 2, 10, replicate 15 (Int 3), false) in
  Z.of_nat (length (memory full_memory)) = memory_size full_memory
  /\ memory (store_transition full_memory t)
     = [(replicate 15 (Int 1), 1, -3, replicate 15 (Int 2), false); t].
Proof.
  intros t.
  assert (Z.of_nat (length (memory full_memory)) = memory_size full_memory)
    as Hfull by reflexivity.
  split; [assumption|].
  destruct (replay_memory_bounded_fifo full_memory t _ _ eq_refl Hfull)
    as (Hstore & _).
  exact Hstore.
Defined.


(** * Further properties of the code *)

(** ** [Grid.__init__] and lookups *)

Lemma range_In (n x : Z) : List.In x (range n) <-> 0 <= x < n.
Proof.
  unfold range. rewrite in_map_iff. split.
  - intros (k & <- & Hk). apply in_seq in Hk. lia.
  - intros H. exists (Z.to_nat x). split; [lia|]. apply in_seq. lia.
Qed.

Lemma Grid_init_In (rows cols : Z) (c : Cell.t) :
  List.In c (cells (Grid_init rows cols))
  <-> 0 <= Cell.x c < rows /\ 0 <= Cell.y c < cols
      /\ Cell.cell_type c
         = if is_edge rows cols (Cell.x c) (Cell.y c) then BOUND else NORMAL.
Proof.
  unfold Grid_init; cbn [cells]. rewrite in_flat_map. split.
  - intros (i & Hi & Hc). apply in_map_iff in Hc as (j & <- & Hj).
    apply range_In in Hi, Hj. cbn. auto.
  - intros (Hx & Hy & Ht). exists (Cell.x c). split; [now apply range_In|].
    apply in_map_iff. exists (Cell.y c). split; [|now apply range_In].
    rewrite <- Ht. now destruct c.
Qed.

Lemma flat_map_length_const {A B : Type} (f : A -> list B) (m : nat)
    (l : list A) :
  (forall x, length (f x) = m) ->
  length (flat_map f l) = (length l * m)%nat.
Proof.
  intros H. induction l as [|a l IH]; [reflexivity|].
  cbn [flat_map length]. rewrite length_app, IH, H. lia.
Qed.

Lemma Grid_at_cases (g : Grid) (key : Ref) :
  (exists c, Grid_at g key = Ok c) \/ Grid_at g key = Raise StopIteration.
Proof.
  unfold Grid_at. destruct (find _ (cells g)); eauto.
Qed.

Lemma Grid_init_at (rows cols i j : Z) :
  Grid_at (Grid_init rows cols) (i, j)
  = (if (0 <=? i) && (i <? rows) && (0 <=? j) && (j <? cols)
     then Ok (Cell.mk i j (if is_edge rows cols i j then BOUND else NORMAL))
     else Raise StopIteration).
Proof.
  destruct ((0 <=? i) && (i <? rows) && (0 <=? j) && (j <? cols)) eqn:E.
  - apply andb_true_iff in E as [E Hj2]. apply andb_true_iff in E as [E Hj1].
    apply andb_true_iff in E as [Hi1 Hi2].
    set (c := Cell.mk i j (if is_edge rows cols i j then BOUND else NORMAL)).
    assert (List.In c (cells (Grid_init rows cols))) as Hin.
    { apply Grid_init_In. cbn. repeat split; lia. }
    destruct (Grid_at_In _ _ Hin) as [c' Hc'].
    change (ref c) with (i, j) in Hc'. rewrite Hc'. f_equal.
    apply Grid_at_Ok in Hc' as [Href Hin'].
    apply (Grid_wf_inj _ _ _ (Grid_init_wf rows cols) Hin' Hin).
    exact Href.
  - destruct (Grid_at_cases (Grid_init rows cols) (i, j)) as [[c Hc]|H];
      [|exact H].
    apply Grid_at_Ok in Hc as [Href Hin].
    apply Grid_init_In in Hin as (Hx & Hy & _).
    injection Href as <- <-.
    assert ((0 <=? Cell.x c) && (Cell.x c <? rows)
            && (0 <=? Cell.y c) && (Cell.y c <? cols) = true) as E'.
    { repeat (apply andb_true_iff; split); lia. }
    congruence.
Qed.

(** [Grid(rows, cols)[i, j]] returns the cell built for [(i, j)] - a
    Boundary on the outer ring, Empty elsewhere - when the coordinate is in
    the rectangle, and raises [StopIteration] when it is not; the grid has
    one cell per coordinate, [rows * cols] in all. *)
Theorem Grid_init_lookup (rows cols i j : Z) :
  Grid_at (Grid_init rows cols) (i, j)
  = (if (0 <=? i) && (i <? rows) && (0 <=? j) && (j <? cols)
     then Ok (Cell.mk i j (if is_edge rows cols i j then BOUND else NORMAL))
     else Raise StopIteration)
  /\ Grid_wf (Grid_init rows cols)
  /\ length (cells (Grid_init rows cols))
     = (Z.to_nat rows * Z.to_nat cols)%nat.
Proof.
  split; [apply Grid_init_at|]. split; [apply Grid_init_wf|].
  unfold Grid_init; cbn [cells].
  rewrite (flat_map_length_const _ (Z.to_nat cols)).
  - unfold range. now rewrite length_map, length_seq.
  - intros x. unfold range. now rewrite !length_map, length_seq.
Qed.

(** ** The six neighbours *)

Lemma table_back (d : Direction) (x y : Z) :
  let delta := column_parity_delta d (Z.even y) in
  let back := column_parity_delta (opposite d) (Z.even (y + snd delta)) in
  (x + fst delta + fst back, y + snd delta + snd back) = (x, y).
Proof.
  destruct d; destruct (Z.even y) eqn:E; cbn [column_parity_delta fst snd];
    rewrite ?Z.add_0_r, ?Z.even_add, ?E; cbn [Z.even Bool.eqb opposite
      column_parity_delta fst snd]; f_equal; lia.
Qed.

Lemma move_direction (self self' : Snake) (g g' : Grid) (rnd : nat) :
  move self g rnd = Ok (self', g') ->
  _current_direction self' = _current_direction self
  /\ _snake_type self' = _snake_type self.
Proof.
  unfold move.
  destruct (_head_position_change self (_current_direction self)) as [dx dy].
  destruct (Grid_at g _) as [new_head|]; cbn [bind]; [|discriminate].
  destruct (last (_body self)) as [tl|]; cbn [bind]; [|discriminate].
  destruct (in_range_1_4 _).
  - intros [= <- <-]. auto.
  - destruct (Cell.eqb _ FRUIT).
    + destruct (_insert_fruit g rnd); cbn [bind]; [|discriminate].
      intros [= <- <-]. auto.
    + cbn [bind]. intros [= <- <-]. auto.
Qed.

(** After a move that leaves the snake in play, the cell in the direction
    opposite to its heading is the cell it has just left: reversing would
    run the head into the snake's own neck, which is what the guard of
    [update_direction] refuses. *)
Theorem opposite_step_leads_back
    (self self' : Snake) (g g' : Grid) (rnd : nat) :
  move self g rnd = Ok (self', g') ->
  _lost self' = false ->
  candidate (set_direction self' (opposite (_current_direction self')))
  = _previous_head self'
  /\ _previous_head self' = _head self.
Proof.
  intros Hmove Hlost.
  destruct (move_head _ _ _ _ _ Hmove Hlost) as [Hhead Hprev].
  destruct (move_direction _ _ _ _ _ Hmove) as [Hdir _].
  split; [|assumption]. rewrite Hprev.
  unfold candidate. cbn [set_direction _head _current_direction].
  rewrite !_head_position_change_table.
  cbn [set_direction _head]. rewrite Hhead, Hdir. unfold candidate.
  rewrite _head_position_change_table. cbn [fst snd].
  destruct (_head self) as [x y]. cbn [fst snd].
  exact (table_back (_current_direction self) x y).
Qed.

(** From any head, the six directions lead to six different cells, each
    at most one row and one column away and none of them the head's own
    cell. *)
Theorem six_distinct_neighbours (self : Snake) :
  List.NoDup (map (_head_position_change self) Direction_members)
  /\ Forall (fun delta => -1 <= fst delta <= 1 /\ -1 <= snd delta <= 1
                          /\ delta <> (0, 0))
            (map (_head_position_change self) Direction_members).
Proof.
  assert (map (_head_position_change self) Direction_members
          = map (fun d => column_parity_delta d (Z.even (snd (_head self))))
                Direction_members) as ->.
  { apply map_ext. intros d. apply _head_position_change_table. }
  destruct (Z.even (snd (_head self))); cbn; split.
  - repeat constructor; cbn; intros H;
      repeat (destruct H as [H|H]; [discriminate|]); exact H.
  - repeat constructor; cbn; try lia; discriminate.
  - repeat constructor; cbn; intros H;
      repeat (destruct H as [H|H]; [discriminate|]); exact H.
  - repeat constructor; cbn; try lia; discriminate.
Qed.

(** ** The arena *)

Lemma is_edge_true (rows cols i j : Z) :
  is_edge rows cols i j = true
  <-> i = 0 \/ j = 0 \/ i = rows - 1 \/ j = cols - 1.
Proof.
  unfold is_edge.
  destruct (Z.eqb_spec i 0), (Z.eqb_spec j 0),
    (Z.eqb_spec (rows - 1 - i) 0), (Z.eqb_spec (cols - 1 - j) 0);
    cbn; split; intros H; try discriminate; try lia; auto.
Qed.

Lemma is_edge_false (rows cols i j : Z) :
  is_edge rows cols i j = false
  <-> i <> 0 /\ j <> 0 /\ i <> rows - 1 /\ j <> cols - 1.
Proof.
  unfold is_edge.
  destruct (Z.eqb_spec i 0), (Z.eqb_spec j 0),
    (Z.eqb_spec (rows - 1 - i) 0), (Z.eqb_spec (cols - 1 - j) 0);
    cbn; split; intros H; try discriminate; try reflexivity; try lia.
Qed.

Lemma arena_Grid_init (nr nc : Z) : arena (Grid_init nr nc).
Proof.
  split; [apply Grid_init_wf|]. split.
  - intros [i j]. unfold in_grid; cbn [fst snd rows cols Grid_init].
    rewrite Grid_init_at. split.
    + intros [Hi Hj].
      assert ((0 <=? i) && (i <? nr) && (0 <=? j) && (j <? nc) = true)
        as -> by (repeat (apply andb_true_iff; split); lia).
      eauto.
    + destruct ((0 <=? i) && (i <? nr) && (0 <=? j) && (j <? nc)) eqn:E.
      * intros _. apply andb_true_iff in E as [E Hj2].
        apply andb_true_iff in E as [E Hj1].
        apply andb_true_iff in E as [Hi1 Hi2]. lia.
      * intros [c Hc]. discriminate.
  - intros c Hin Hedge. apply Grid_init_In in Hin as (_ & _ & Ht).
    cbn [rows cols Grid_init] in Hedge. now rewrite Hedge in Ht.
Qed.

(** An assignment through a reference whose cell is not a Boundary keeps
    the arena. *)
Lemma arena_assign (g : Grid) (r : Ref) (v : Cell.CType) :
  arena g -> type_at g r <> Ok BOUND -> arena (assign_type g r v).
Proof.
  intros (Hwf & Hdom & Hring) Hr. split; [now apply Grid_wf_assign|]. split.
  - intros key. unfold in_grid; cbn [assign_type rows cols].
    rewrite (Hdom key). rewrite Grid_at_assign.
    destruct (Grid_at g key) as [c|e]; split; intros [c' H];
      try discriminate; eauto.
  - intros c' Hin Hedge. cbn [assign_type cells rows cols] in *.
    apply in_map_iff in Hin as (c & Hc & Hin).
    destruct (Ref_eqb (ref c) r) eqn:E.
    + exfalso. subst c'. cbn [Cell.set_cell_type Cell.x Cell.y] in Hedge.
      apply Ref_eqb_eq in E. apply Hr.
      destruct (Grid_at_In g c Hin) as [c0 Hc0].
      pose proof (Grid_at_Ok _ _ _ Hc0) as [Href Hin0].
      apply (Grid_wf_inj g _ _ Hwf Hin0 Hin) in Href. subst c0.
      apply type_at_Ok. exists c. split; [now rewrite <- E|].
      now apply Hring.
    + subst c'. now apply Hring.
Qed.

Lemma type_at_assign (g : Grid) (r key : Ref) (v : Cell.CType) :
  type_at (assign_type g r v) key
  = if Ref_eqb key r
    then (c <- Grid_at g key ;; Ok v)
    else type_at g key.
Proof.
  unfold type_at. rewrite Grid_at_assign.
  destruct (Grid_at g key) as [c|e]; cbn [bind];
    destruct (Ref_eqb key r); reflexivity.
Qed.

Lemma arena_remove_body (body : list Ref) (g : Grid) :
  arena g ->
  (forall r, List.In r body -> type_at g r <> Ok BOUND) ->
  arena (fold_left (fun g cell => assign_type g cell NORMAL) body g).
Proof.
  revert g; induction body as [|b body IH]; intros g Ha Hb; cbn [fold_left].
  - assumption.
  - apply IH.
    + apply arena_assign; [assumption|]. apply Hb. now left.
    + intros r Hr. rewrite type_at_assign.
      destruct (Ref_eqb r b).
      * destruct (Grid_at g r); cbn [bind]; discriminate.
      * apply Hb. now right.
Qed.

(** In an arena a cell that is not a Boundary lies strictly inside. *)
Lemma arena_inside (g : Grid) (r : Ref) (t : Cell.CType) :
  arena g -> type_at g r = Ok t -> t <> BOUND -> inside g r.
Proof.
  intros (Hwf & Hdom & Hring) Ht Hne.
  apply type_at_Ok in Ht as (c & Hc & Hty).
  assert (in_grid g r) as [Hi Hj] by (apply Hdom; eauto).
  apply Grid_at_Ok in Hc as [Href Hin].
  destruct (is_edge (rows g) (cols g) (Cell.x c) (Cell.y c)) eqn:E.
  - exfalso. apply Hne. rewrite <- Hty. now apply Hring.
  - apply is_edge_false in E. subst r. unfold inside, ref in *.
    cbn [fst snd] in *. lia.
Qed.

Lemma owns_head_inside (self : Snake) (g : Grid) :
  arena g -> live self -> owns self g -> inside g (_head self).
Proof.
  intros Ha [_ [rest Hbody]] (Htag & _ & Hown).
  apply (arena_inside g _ (_snake_type self) Ha).
  - apply Hown. rewrite Hbody. now left.
  - destruct Htag as [-> | ->]; discriminate.
Qed.

Lemma inside_candidate (self : Snake) (g : Grid) :
  inside g (_head self) -> in_grid g (candidate self).
Proof.
  unfold inside, in_grid, candidate.
  rewrite _head_position_change_table.
  destruct (_current_direction self), (Z.even (snd (_head self)));
    cbn [column_parity_delta fst snd]; lia.
Qed.

Lemma _insert_fruit_Raise (g : Grid) (rnd : nat) :
  Grid_of_type g NORMAL = [] -> _insert_fruit g rnd = Raise IndexError.
Proof.
  intros H. unfold _insert_fruit, random_choice. rewrite H. reflexivity.
Qed.

(** In a game - an arena, and a live snake that owns its cells - [move]
    always finds its candidate cell and its last segment: it returns,
    except when the candidate holds the fruit and no Empty cell is left for
    the next one, where [random.choice] raises [IndexError]. *)
Theorem move_total (self : Snake) (g : Grid) (rnd : nat) :
  arena g -> live self -> owns self g ->
  (exists self' g', move self g rnd = Ok (self', g'))
  \/ (type_at g (candidate self) = Ok FRUIT
      /\ Grid_of_type g NORMAL = []
      /\ move self g rnd = Raise IndexError).
Proof.
  intros Ha Hlive Hown.
  pose proof (owns_head_inside _ _ Ha Hlive Hown) as Hin.
  apply inside_candidate in Hin.
  destruct Ha as (Hwf & Hdom & Hring). apply Hdom in Hin as [nh Hat].
  destruct Hlive as [Hlost [rest Hbody]].
  destruct (last (_head self :: rest)) as [tl|] eqn:Hlast.
  2:{ apply last_None in Hlast. discriminate. }
  rewrite (move_unfold self g rnd _ tl rest nh Hbody Hlast Hat).
  destruct (in_range_1_4 _); [left; unfold remove_body; eauto|].
  destruct (Cell.eqb (Cell.cell_type nh) FRUIT) eqn:Hfruit; [|left; eauto].
  destruct (Grid_of_type g NORMAL) as [|c l] eqn:Hempty.
  - right. split; [|split; [reflexivity|]].
    + apply type_at_Ok. exists nh. split; [assumption|].
      destruct (Cell.cell_type nh); try discriminate; reflexivity.
    + now rewrite _insert_fruit_Raise.
  - left. destruct (_insert_fruit_Ok g rnd) as (cell & _ & ->).
    + rewrite Hempty. discriminate.
    + cbn [bind]. eauto.
Qed.

Lemma move_invariant (self self' : Snake) (g g' : Grid) (rnd : nat) :
  arena g -> live self -> owns self g ->
  move self g rnd = Ok (self', g') ->
  arena g'
  /\ (_lost self' = false -> live self' /\ owns self' g'
                             /\ inside g' (_head self')).
Proof.
  intros Ha Hlive Hown Hmove.
  assert (arena g') as Ha'.
  { destruct Hown as (Htag & Hnd & Hown).
    assert (forall r, List.In r (_body self) -> type_at g r <> Ok BOUND)
      as Hbody_free.
    { intros r Hr. rewrite (Hown r Hr).
      destruct Htag as [-> | ->]; discriminate. }
    pose proof Hlive as [Hlost [rest Hbody]].
    destruct (Grid_at g (candidate self)) as [nh|e] eqn:Hat.
    2:{ exfalso. unfold move, candidate in *.
        destruct (_head_position_change self (_current_direction self)).
        cbn [fst snd] in Hat. rewrite Hat in Hmove. discriminate. }
    destruct (last (_head self :: rest)) as [tl|] eqn:Hlast.
    2:{ apply last_None in Hlast. discriminate. }
    rewrite (move_unfold self g rnd _ tl rest nh Hbody Hlast Hat) in Hmove.
    pose proof (Grid_at_Ok _ _ _ Hat) as [Href _].
    assert (List.In tl (_body self)) as Htl.
    { rewrite Hbody. apply last_Some in Hlast as [l ->].
      apply in_or_app. right. now left. }
    destruct (in_range_1_4 _) eqn:Hrange.
    - unfold remove_body in Hmove. injection Hmove as _ <-.
      apply (arena_remove_body (_head self :: _head self :: rest) g);
        [assumption|].
      intros r [<-|Hr]; apply Hbody_free; rewrite Hbody; [now left|exact Hr].
    - assert (type_at g (ref nh) <> Ok BOUND) as Hnh.
      { rewrite Href. unfold type_at. rewrite Hat. cbn [bind].
        intros [= E]. rewrite E in Hrange. discriminate. }
      destruct (Cell.eqb _ FRUIT).
      + unfold _insert_fruit in Hmove.
        destruct (random_choice _ rnd) as [cell|] eqn:Hch;
          cbn [bind] in Hmove; [|discriminate].
        injection Hmove as _ <-.
        apply random_choice_In, Grid_of_type_In in Hch as [Hcin Hcty].
        assert (type_at g (ref cell) <> Ok BOUND) as Hcell.
        { destruct (Grid_at_In g cell Hcin) as [c0 Hc0].
          pose proof (Grid_at_Ok _ _ _ Hc0) as [Hr0 Hin0].
          destruct Ha as (Hwf & _).
          apply (Grid_wf_inj g _ _ Hwf Hin0 Hcin) in Hr0. subst c0.
          unfold type_at. rewrite Hc0. cbn [bind]. rewrite Hcty.
          discriminate. }
        apply arena_assign; [now apply arena_assign|].
        rewrite type_at_assign. destruct (Ref_eqb (ref nh) (ref cell)).
        * destruct (Grid_at g (ref nh)); cbn [bind]; discriminate.
        * assumption.
      + injection Hmove as _ <-.
        apply arena_assign; [apply arena_assign; auto|].
        rewrite type_at_assign. destruct (Ref_eqb (ref nh) tl).
        * destruct (Grid_at g (ref nh)); cbn [bind]; discriminate.
        * assumption. }
  split; [assumption|]. intros Hlost.
  pose proof (move_keeps_live _ _ _ _ _ Hlive Hmove Hlost) as Hlive'.
  assert (owns self' g') as Hown'.
  { destruct Ha as (Hwf & _).
    exact (move_keeps_owns _ _ _ _ _ Hwf Hlive Hown Hmove Hlost). }
  split; [exact Hlive'|]. split; [exact Hown'|].
  exact (owns_head_inside _ _ Ha' Hlive' Hown').
Qed.

(** [move] keeps the game: the grid is an arena again - in particular no
    Boundary cell has been reassigned - and a snake that is still in play
    is live and owns its cells. *)
Theorem move_keeps_game (self self' : Snake) (g g' : Grid) (rnd : nat) :
  arena g -> live self -> owns self g ->
  move self g rnd = Ok (self', g') ->
  arena g'
  /\ (_lost self' = false -> live self' /\ owns self' g'
                             /\ inside g' (_head self')).
Proof. exact (move_invariant self self' g g' rnd). Qed.

(** ** The plain step *)

(** A live snake whose candidate cell is Empty makes a plain step: the
    head moves onto the candidate, every segment follows and the last one
    is released, so the length and the score are unchanged; the new head
    cell carries the snake's tag and the released cell is Empty. *)
Theorem move_step (self : Snake) (g : Grid) (rnd : nat)
    (new_head tail_cell : Cell.t) (tl : Ref) :
  live self ->
  Grid_at g (candidate self) = Ok new_head ->
  Cell.cell_type new_head = NORMAL ->
  last (_body self) = Some tl ->
  Grid_at g tl = Ok tail_cell ->
  exists self' g',
    move self g rnd = Ok (self', g')
    /\ self' = {| _current_direction := _current_direction self;
                  _head := candidate self; _previous_head := _head self;
                  _snake_type := _snake_type self; _score := _score self;
                  _body := candidate self :: removelast (_body self);
                  _lost := false |}
    /\ length (_body self') = length (_body self)
    /\ g' = assign_type (assign_type g tl NORMAL) (candidate self)
                        (_snake_type self)
    /\ type_at g' (candidate self) = Ok (_snake_type self)
    /\ (tl <> candidate self -> type_at g' tl = Ok NORMAL)
    /\ (forall r, r <> tl -> r <> candidate self ->
                  Grid_at g' r = Grid_at g r).
Proof.
  intros [Hlost [rest Hbody]] Hat Hty Hlast Htail.
  rewrite Hbody in Hlast.
  rewrite (move_unfold self g rnd _ tl rest new_head Hbody Hlast Hat).
  rewrite Hty. cbn [Cell.value in_range_1_4 Z.leb Z.ltb Z.compare andb
                    Cell.eqb Z.eqb].
  pose proof (Grid_at_Ok _ _ _ Hat) as [Href _].
  eexists _, _. split; [reflexivity|]. rewrite Href, Hlost, Hbody.
  split; [reflexivity|]. split.
  { cbn [_body]. apply last_Some in Hlast as [l Hl].
    rewrite Hl, removelast_last. cbn [length].
    rewrite length_app. cbn [length]. lia. }
  split; [reflexivity|]. split; [|split].
  - apply type_at_Ok. eexists. split.
    + rewrite Grid_at_assign, Grid_at_assign, Hat, Ref_eqb_refl. reflexivity.
    + reflexivity.
  - intros Hne. apply type_at_Ok. eexists. split.
    + rewrite Grid_at_assign_other by assumption.
      apply Grid_at_assign_same. eassumption.
    + reflexivity.
  - intros r H1 H2. now rewrite !Grid_at_assign_other.
Qed.

(** ** The fruit count *)

Lemma map_assign_absent (l : list Cell.t) (r : Ref) (v : Cell.CType) :
  ~ List.In r (map ref l) ->
  map (fun cell => if Ref_eqb (ref cell) r
                   then Cell.set_cell_type cell v else cell) l = l.
Proof.
  induction l as [|a l IH]; [reflexivity|].
  cbn [map]. intros H.
  destruct (Ref_eqb (ref a) r) eqn:E.
  - exfalso. apply H. left. now apply Ref_eqb_eq.
  - f_equal. apply IH. intros H'. apply H. now right.
Qed.

(** Assigning a type through a reference moves exactly one cell from the
    count of its old type to the count of its new type. *)
Lemma assign_count (g : Grid) (r : Ref) (v t : Cell.CType) (c : Cell.t) :
  Grid_wf g -> Grid_at g r = Ok c ->
  (length (Grid_of_type (assign_type g r v) t)
   + (if Cell.eqb (Cell.cell_type c) t then 1 else 0)
   = length (Grid_of_type g t) + (if Cell.eqb v t then 1 else 0))%nat.
Proof.
  intros Hwf Hat. apply Grid_at_Ok in Hat as [Href Hin].
  unfold Grid_wf, Grid_of_type, assign_type in *; cbn [cells].
  induction (cells g) as [|a l IH]; [destruct Hin|].
  cbn [map] in Hwf. apply NoDup_cons_iff in Hwf as [Hfresh Hnd].
  destruct Hin as [->|Hin].
  - cbn [map]. apply Ref_eqb_eq in Href as E. rewrite E.
    rewrite map_assign_absent by now rewrite <- Href.
    cbn [List.filter Cell.set_cell_type Cell.cell_type].
    destruct (Cell.eqb v t), (Cell.eqb (Cell.cell_type c) t);
      cbn [length]; lia.
  - cbn [map]. destruct (Ref_eqb (ref a) r) eqn:E.
    + exfalso. apply Ref_eqb_eq in E. apply Hfresh.
      rewrite E, <- Href. now apply in_map.
    + specialize (IH Hnd Hin). cbn [List.filter].
      destruct (Cell.eqb (Cell.cell_type a) t); cbn [length]; lia.
Qed.

Lemma filter_map_length {A : Type} (p q : A -> bool) (f : A -> A)
    (l : list A) :
  (forall x, List.In x l -> p (f x) = q x) ->
  length (List.filter p (map f l)) = length (List.filter q l).
Proof.
  induction l as [|a l IH]; intros H; [reflexivity|].
  cbn [map List.filter]. rewrite (H a) by now left.
  destruct (q a); cbn [length]; rewrite IH; auto;
    intros x Hx; apply H; now right.
Qed.

Lemma Grid_wf_at (g : Grid) (c : Cell.t) :
  Grid_wf g -> List.In c (cells g) -> Grid_at g (ref c) = Ok c.
Proof.
  intros Hwf Hin. destruct (Grid_at_In g c Hin) as [c' Hc'].
  rewrite Hc'. f_equal.
  pose proof (Grid_at_Ok _ _ _ Hc') as [Href Hin'].
  exact (Grid_wf_inj g _ _ Hwf Hin' Hin Href).
Qed.

Lemma move_fruits_aux (self self' : Snake) (g g' : Grid) (rnd : nat) :
  Grid_wf g -> live self -> owns self g ->
  move self g rnd = Ok (self', g') ->
  fruits g' = fruits g.
Proof.
  intros Hwf Hlive (Htag & Hnd & Hown) Hmove. unfold fruits.
  assert (Cell.eqb (_snake_type self) FRUIT = false) as Htagf
    by (destruct Htag as [-> | ->]; reflexivity).
  pose proof Hlive as [Hlost [rest Hbody]].
  destruct (Grid_at g (candidate self)) as [nh|e] eqn:Hat.
  2:{ exfalso. unfold move, candidate in *.
      destruct (_head_position_change self (_current_direction self)).
      cbn [fst snd] in Hat. rewrite Hat in Hmove. discriminate. }
  destruct (last (_head self :: rest)) as [tl|] eqn:Hlast.
  2:{ apply last_None in Hlast. discriminate. }
  rewrite (move_unfold self g rnd _ tl rest nh Hbody Hlast Hat) in Hmove.
  pose proof (Grid_at_Ok _ _ _ Hat) as [Href Hnhin].
  destruct (in_range_1_4 _) eqn:Hrange.
  - unfold remove_body in Hmove. injection Hmove as _ <-.
    change (fold_left _ _ _) with
      (fold_left (fun g cell => assign_type g cell NORMAL)
                 (_head self :: _head self :: rest) g).
    unfold Grid_of_type. rewrite remove_body_cells.
    apply filter_map_length. intros c Hc. unfold cleared.
    destruct (existsb _ _) eqn:E; [|reflexivity].
    cbn [Cell.set_cell_type Cell.cell_type].
    apply existsb_Ref_In in E.
    assert (List.In (ref c) (_body self)) as Hb.
    { rewrite Hbody. destruct E as [E|E]; [now left | exact E]. }
    apply Hown, type_at_Ok in Hb as (c' & Hc' & Hty).
    rewrite (Grid_wf_at g c Hwf Hc) in Hc'. injection Hc' as <-.
    rewrite Hty, Htagf. reflexivity.
  - destruct (Cell.eqb (Cell.cell_type nh) FRUIT) eqn:Hfruit.
    + unfold _insert_fruit in Hmove.
      destruct (random_choice _ rnd) as [cell|] eqn:Hch;
        cbn [bind] in Hmove; [|discriminate].
      injection Hmove as _ <-.
      apply random_choice_In, Grid_of_type_In in Hch as [Hcin Hcty].
      pose proof (assign_count g (ref cell) FRUIT FRUIT cell Hwf
                    (Grid_wf_at g cell Hwf Hcin)) as H1.
      rewrite Hcty in H1.
      change (Cell.eqb NORMAL FRUIT) with false in H1.
      change (Cell.eqb FRUIT FRUIT) with true in H1.
      assert (exists c1, Grid_at (assign_type g (ref cell) FRUIT) (ref nh)
                         = Ok c1 /\ Cell.cell_type c1 = Cell.cell_type nh)
        as (c1 & Hc1 & Hty1).
      { rewrite Grid_at_assign, Href, Hat.
        destruct (Ref_eqb _ _); eexists; split; try reflexivity.
        cbn. destruct (Cell.cell_type nh); try discriminate; reflexivity. }
      pose proof (assign_count _ (ref nh) (_snake_type self) FRUIT c1
                    (Grid_wf_assign _ _ _ Hwf) Hc1) as H2.
      rewrite Hty1, Hfruit, Htagf in H2. cbv iota in H1. lia.
    + injection Hmove as _ <-.
      assert (List.In tl (_body self)) as Htl.
      { rewrite Hbody. apply last_Some in Hlast as [l ->].
        apply in_or_app. right. now left. }
      apply Hown, type_at_Ok in Htl as (ct & Hct & Htty).
      pose proof (assign_count g tl NORMAL FRUIT ct Hwf Hct) as H1.
      rewrite Htty, Htagf in H1.
      change (Cell.eqb NORMAL FRUIT) with false in H1.
      assert (exists c1, Grid_at (assign_type g tl NORMAL) (ref nh) = Ok c1
                         /\ Cell.eqb (Cell.cell_type c1) FRUIT = false)
        as (c1 & Hc1 & Hty1).
      { rewrite Grid_at_assign, Href, Hat.
        destruct (Ref_eqb _ _); eexists; split; try reflexivity.
        assumption. }
      pose proof (assign_count _ (ref nh) (_snake_type self) FRUIT c1
                    (Grid_wf_assign _ _ _ Hwf) Hc1) as H2.
      rewrite Hty1, Htagf in H2. cbv iota in H1. lia.
Qed.

(** Whatever branch [move] takes in a game, the number of Fruit cells is
    the same before and after: a fruit that is eaten is replaced within
    the same call, and nothing else creates or removes one. *)
Theorem move_keeps_fruits (self self' : Snake) (g g' : Grid) (rnd : nat) :
  Grid_wf g -> live self -> owns self g ->
  move self g rnd = Ok (self', g') ->
  fruits g' = fruits g.
Proof. exact (move_fruits_aux self self' g g' rnd). Qed.

(** ** Several snakes on one grid *)

Lemma not_blocking (t : Cell.CType) :
  ~ blocking t -> t = NORMAL \/ t = FRUIT.
Proof.
  unfold blocking. destruct t; auto; intros H; exfalso; apply H; auto.
Qed.

(** [move] writes only through the references of the snake's own body, of
    the candidate cell when it is entered, and of the Empty cell drawn for
    a new fruit. *)
Lemma move_touches_only (self self' : Snake) (g g' : Grid) (rnd : nat)
    (r : Ref) :
  live self ->
  move self g rnd = Ok (self', g') ->
  ~ List.In r (_body self) ->
  (r = candidate self -> _lost self' = true) ->
  (forall c, List.In c (Grid_of_type g NORMAL) -> ref c <> r) ->
  Grid_at g' r = Grid_at g r.
Proof.
  intros [Hlost [rest Hbody]] Hmove Hout Hcand Hnormal.
  destruct (Grid_at g (candidate self)) as [nh|e] eqn:Hat.
  2:{ exfalso. unfold move, candidate in *.
      destruct (_head_position_change self (_current_direction self)).
      cbn [fst snd] in Hat. rewrite Hat in Hmove. discriminate. }
  destruct (last (_head self :: rest)) as [tl|] eqn:Hlast.
  2:{ apply last_None in Hlast. discriminate. }
  rewrite (move_unfold self g rnd _ tl rest nh Hbody Hlast Hat) in Hmove.
  pose proof (Grid_at_Ok _ _ _ Hat) as [Href _].
  destruct (in_range_1_4 _).
  - unfold remove_body in Hmove. injection Hmove as _ <-.
    change (fold_left _ _ _) with
      (fold_left (fun g cell => assign_type g cell NORMAL)
                 (_head self :: _head self :: rest) g).
    rewrite Grid_at_remove_body.
    destruct (Grid_at g r) as [c|] eqn:Hr; [|reflexivity].
    rewrite cleared_dup, cleared_out; [reflexivity|].
    apply Grid_at_Ok in Hr as [-> _]. now rewrite <- Hbody.
  - destruct (Cell.eqb _ FRUIT).
    + unfold _insert_fruit in Hmove.
      destruct (random_choice _ rnd) as [cell|] eqn:Hch;
        cbn [bind] in Hmove; [|discriminate].
      injection Hmove as <- <-. apply random_choice_In in Hch.
      cbn [_lost] in Hcand.
      rewrite Grid_at_assign_other
        by (intros E; rewrite Href in E; apply Hcand in E; congruence).
      apply Grid_at_assign_other. intros ->. now apply (Hnormal cell).
    + injection Hmove as <- <-. cbn [_lost] in Hcand.
      rewrite Grid_at_assign_other
        by (intros E; rewrite Href in E; apply Hcand in E; congruence).
      apply Grid_at_assign_other. intros ->. apply Hout.
      rewrite Hbody. apply last_Some in Hlast as [l ->].
      apply in_or_app. right. now left.
Qed.

Lemma move_head_tagged (self self' : Snake) (g g' : Grid) (rnd : nat) :
  live self -> move self g rnd = Ok (self', g') -> _lost self' = false ->
  type_at g' (_head self') = Ok (_snake_type self).
Proof.
  intros Hlive Hmove Hlost.
  destruct (move_inv _ _ _ _ _ Hlive Hmove)
    as (nh & tl & Hat & _ & [[_ H]|[(_ & c & _ & _ & -> & _ & _ & ->)
                                   |(_ & _ & -> & _ & _ & ->)]]).
  - congruence.
  - eapply type_at_assign_same. rewrite Grid_at_assign, Hat. reflexivity.
  - eapply type_at_assign_same. rewrite Grid_at_assign, Hat. reflexivity.
Qed.

(** How the deque of the snake changes: it is emptied by a collision, and
    otherwise holds the candidate and cells it held before. *)
Lemma move_body_cases (self self' : Snake) (g g' : Grid) (rnd : nat) :
  live self -> move self g rnd = Ok (self', g') ->
  (_lost self' = true /\ _body self' = [])
  \/ (_lost self' = false
      /\ (exists t, type_at g (candidate self) = Ok t
                     /\ (t = NORMAL \/ t = FRUIT))
      /\ forall r, List.In r (_body self') ->
                   r = candidate self \/ List.In r (_body self)).
Proof.
  intros Hlive Hmove.
  destruct (move_inv _ _ _ _ _ Hlive Hmove)
    as (nh & tl & Hat & _ & [[Hb H]|[(Hty & c & _ & Hbody & _ & _ & Hl & _)
                                    |(Hfree & Hbody & _ & _ & Hl & _)]]).
  - left. split; [assumption|].
    destruct (move_blocked self g rnd nh Hlive Hat Hb)
      as (s & g0 & Hm & -> & _).
    rewrite Hm in Hmove. now injection Hmove as <- _.
  - right. split; [assumption|]. split.
    + exists FRUIT. split; [|auto]. apply type_at_Ok. eauto.
    + intros r Hr. rewrite Hbody in Hr. destruct Hr as [<-|Hr]; auto.
  - right. split; [assumption|]. split.
    + exists (Cell.cell_type nh). split; [apply type_at_Ok; eauto|].
      now apply not_blocking.
    + intros r Hr. rewrite Hbody in Hr. destruct Hr as [<-|Hr]; auto.
      right. now apply In_removelast.
Qed.

Lemma move_spares_others_aux
    (self self' other : Snake) (g g' : Grid) (rnd : nat) :
  Grid_wf g -> live self -> owns other g ->
  (forall r, List.In r (_body self) -> ~ List.In r (_body other)) ->
  move self g rnd = Ok (self', g') ->
  owns other g'
  /\ (forall r, List.In r (_body other) -> Grid_at g' r = Grid_at g r)
  /\ (forall r, List.In r (_body self') -> ~ List.In r (_body other)).
Proof.
  intros Hwf Hlive (Htag & Hnd & Hown) Hdisj Hmove.
  assert (forall r t, List.In r (_body other) -> type_at g r = Ok t ->
                      (t = NORMAL \/ t = FRUIT) -> False) as Hblocked.
  { intros r t Hr Ht Hfree. rewrite (Hown r Hr) in Ht.
    injection Ht as <-. destruct Htag as [E|E], Hfree as [F|F]; congruence. }
  pose proof (move_body_cases _ _ _ _ _ Hlive Hmove) as Hcases.
  assert (forall r, List.In r (_body other) -> Grid_at g' r = Grid_at g r)
    as Hframe.
  { intros r Hr.
    apply (move_touches_only self self' g g' rnd r Hlive Hmove).
    - intros H. exact (Hdisj r H Hr).
    - intros ->. destruct Hcases as [[H _]|(_ & (t & Ht & Hfree) & _)];
        [assumption|].
      exfalso. exact (Hblocked _ t Hr Ht Hfree).
    - intros c Hc <-. apply Grid_of_type_In in Hc as [Hin Hty].
      apply (Hblocked (ref c) NORMAL Hr); [|auto].
      apply type_at_Ok. exists c. split; [|assumption].
      now apply Grid_wf_at. }
  split; [|split; [exact Hframe|]].
  - split; [assumption|]. split; [assumption|].
    intros r Hr. unfold type_at. rewrite (Hframe r Hr). now apply Hown.
  - intros r Hr Hr'.
    destruct Hcases as [[_ H]|(_ & (t & Ht & Hfree) & Hincl)].
    + rewrite H in Hr. destruct Hr.
    + destruct (Hincl r Hr) as [->|Hin].
      * exact (Hblocked _ t Hr' Ht Hfree).
      * exact (Hdisj r Hin Hr').
Qed.

(** The move of one snake leaves the cells of every other snake alone:
    another snake that owned its cells before, on cells disjoint from the
    mover's, owns them after, and the mover has not entered any of them. *)
Theorem move_spares_others
    (self self' other : Snake) (g g' : Grid) (rnd : nat) :
  Grid_wf g -> live self -> owns other g ->
  (forall r, List.In r (_body self) -> ~ List.In r (_body other)) ->
  move self g rnd = Ok (self', g') ->
  owns other g'
  /\ (forall r, List.In r (_body other) -> Grid_at g' r = Grid_at g r)
  /\ (forall r, List.In r (_body self') -> ~ List.In r (_body other)).
Proof. exact (move_spares_others_aux self self' other g g' rnd). Qed.

(** A cell that one snake has just entered kills the next snake that
    targets it: the second snake's move is a collision, and the first
    snake's head cell keeps its tag. *)
Theorem contested_cell
    (first first' second : Snake) (g g1 : Grid) (rnd rnd2 : nat) :
  live first ->
  _snake_type first = SNAKE \/ _snake_type first = BOT ->
  move first g rnd = Ok (first', g1) ->
  _lost first' = false ->
  live second ->
  candidate second = _head first' ->
  ~ List.In (_head first') (_body second) ->
  exists second' g2,
    move second g1 rnd2 = Ok (second', g2)
    /\ _lost second' = true /\ _body second' = []
    /\ type_at g2 (_head first') = Ok (_snake_type first).
Proof.
  intros Hlive Htag Hmove Hlost Hlive2 Hcand Hout.
  pose proof (move_head_tagged _ _ _ _ _ Hlive Hmove Hlost) as Hty.
  apply type_at_Ok in Hty as (c & Hc & Hct).
  assert (blocking (Cell.cell_type c)) as Hb
    by (rewrite Hct; unfold blocking; tauto).
  rewrite <- Hcand in Hc.
  destruct (move_blocked second g1 rnd2 c Hlive2 Hc Hb)
    as (s2 & g2 & Hm & -> & _ & Hkeep).
  eexists _, g2. split; [exact Hm|]. cbn [_lost _body].
  split; [reflexivity|]. split; [reflexivity|].
  unfold type_at. rewrite (Hkeep _ Hout), <- Hcand, Hc. cbn [bind].
  now rewrite Hct.
Qed.

(** ** [Game._insert_fruit] *)

(** [_insert_fruit] raises [IndexError] when no cell is Empty; otherwise
    it turns one cell that was Empty into a Fruit - one fruit more on the
    grid - and leaves every other cell as it was. *)
Theorem _insert_fruit_spec (g : Grid) (rnd : nat) :
  (Grid_of_type g NORMAL = [] /\ _insert_fruit g rnd = Raise IndexError)
  \/ (exists cell g',
        List.In cell (Grid_of_type g NORMAL)
        /\ _insert_fruit g rnd = Ok g'
        /\ g' = assign_type g (ref cell) FRUIT
        /\ (forall r, r <> ref cell -> Grid_at g' r = Grid_at g r)
        /\ (Grid_wf g -> type_at g' (ref cell) = Ok FRUIT
                         /\ fruits g' = S (fruits g))).
Proof.
  destruct (Grid_of_type g NORMAL) as [|c l] eqn:Hn.
  - left. split; [reflexivity|]. now apply _insert_fruit_Raise.
  - right. destruct (_insert_fruit_Ok g rnd) as (cell & Hin & Hg).
    { rewrite Hn. discriminate. }
    rewrite Hn in Hin. exists cell, (assign_type g (ref cell) FRUIT).
    repeat (split; [assumption || reflexivity|]). split.
    + intros r Hr. now apply Grid_at_assign_other.
    + intros Hwf. rewrite <- Hn in Hin.
      apply Grid_of_type_In in Hin as [Hin Hty].
      pose proof (Grid_wf_at g cell Hwf Hin) as Hat. split.
      * eapply type_at_assign_same. eassumption.
      * pose proof (assign_count g (ref cell) FRUIT FRUIT cell Hwf Hat) as H.
        rewrite Hty in H.
        change (Cell.eqb NORMAL FRUIT) with false in H.
        change (Cell.eqb FRUIT FRUIT) with true in H.
        cbv iota in H. unfold fruits. lia.
Qed.

(** ** [Bot.get_observation] *)

Lemma blocked_flags_shape (self : Snake) (g : Grid) (ds : list Direction)
    (flags : list Num) :
  blocked_flags self g ds = Ok flags ->
  exists zs, flags = map Int zs /\ length zs = length ds
             /\ Forall (fun z => z = 0 \/ z = 1) zs.
Proof.
  revert flags; induction ds as [|d ds IH]; intros flags; cbn [blocked_flags].
  - intros [= <-]. exists []. repeat split. constructor.
  - destruct (_head_position_change self d) as [dx dy].
    intros H. apply bind_Ok in H as (cell & _ & H).
    apply bind_Ok in H as (rest & Hrest & [= <-]).
    destruct (IH _ Hrest) as (zs & -> & Hlen & Hall).
    exists ((if in_range_1_4 (Cell.value (Cell.cell_type cell))
             then 1 else 0) :: zs).
    split; [reflexivity|]. split; [cbn; now rewrite Hlen|].
    constructor; [|assumption].
    destruct (in_range_1_4 _); auto.
Qed.

Lemma blocked_flags_Ok (self : Snake) (g : Grid) (ds : list Direction) :
  (forall d, exists c,
     Grid_at g (fst (_head self) + fst (_head_position_change self d),
                snd (_head self) + snd (_head_position_change self d))
     = Ok c) ->
  exists flags, blocked_flags self g ds = Ok flags.
Proof.
  intros H. induction ds as [|d ds [flags IH]]; cbn [blocked_flags]; [eauto|].
  destruct (H d) as [c Hc].
  destruct (_head_position_change self d) as [dx dy]. cbn [fst snd] in Hc.
  rewrite Hc, IH. cbn [bind]. eauto.
Qed.

Lemma fruit_position_shape (fruit head : Ref) :
  length (fruit_position fruit head) = 8%nat
  /\ Forall (fun z => z = 0 \/ z = 1) (fruit_position fruit head).
Proof.
  assert (Forall (fun z => z = 0 \/ z = 1) (replicate 8 0)) as Hz
    by (repeat constructor; auto).
  destruct (fruit_position_cases fruit head)
    as [[_ ->]|(_ & i & _ & ->)].
  - split; [reflexivity | exact Hz].
  - split; [now rewrite length_insert|].
    apply Forall_insert; auto.
Qed.

(** An observation that [get_observation] returns has 15 entries: six
    flags and eight slots that are 0 or 1, then the distance to the fruit;
    its reward is +10, +2 or -3; the snake itself is not changed and the
    recorded score becomes the larger of the score and the old record. *)
Theorem get_observation_shape
    (self self' : Bot) (g : Grid) (state : list Num) (reward : Z) :
  get_observation self g = Ok (state, reward, self') ->
  length state = 15%nat
  /\ (exists bits d, state = map Int bits ++ [Sqrt d]
                     /\ Forall (fun z => z = 0 \/ z = 1) bits /\ 0 <= d)
  /\ (reward = 10 \/ reward = 2 \/ reward = -3)
  /\ snake self' = snake self
  /\ __previous_score self'
     = Z.max (_score (snake self)) (__previous_score self).
Proof.
  unfold get_observation. intros H.
  apply bind_Ok in H as (flags & Hflags & H).
  apply bind_Ok in H as (fruit & _ & H).
  destruct (blocked_flags_shape _ _ _ _ Hflags) as (zs & -> & Hlen & Hzs).
  destruct (fruit_position_shape (ref fruit) (_head (snake self)))
    as [Hfl Hfz].
  unfold reward_of in H.
  assert (length (map Int zs
                  ++ map Int (fruit_position (ref fruit) (_head (snake self)))
                  ++ [__calculate_distance (ref fruit) (_head (snake self))])
          = 15%nat) as Hl.
  { rewrite !length_app, !length_map, Hlen, Hfl. reflexivity. }
  assert (exists bits d,
            (map Int zs
             ++ map Int (fruit_position (ref fruit) (_head (snake self))))
            ++ [__calculate_distance (ref fruit) (_head (snake self))]
            = map Int bits ++ [Sqrt d]
            /\ Forall (fun z => z = 0 \/ z = 1) bits /\ 0 <= d) as Hshape.
  { eexists (zs ++ _), _. split; [|split].
    - rewrite map_app. reflexivity.
    - apply Forall_app. split; eassumption.
    - nia. }
  rewrite <- app_assoc in Hshape.
  destruct (Z.gtb_spec (_score (snake self)) (__previous_score self)).
  - injection H as <- <- <-. rewrite <- app_assoc.
    cbn [snake __previous_score]. repeat split; auto. lia.
  - destruct (distance_ltb _ _); injection H as <- <- <-;
      rewrite <- app_assoc; cbn [snake __previous_score];
      repeat split; auto; lia.
Qed.

(** The +10 is paid once: a second observation taken before the bot has
    moved again returns the same state and the same bot, and its reward is
    not +10. *)
Theorem get_observation_once
    (self self' self'' : Bot) (g : Grid) (state state2 : list Num)
    (reward reward2 : Z) :
  get_observation self g = Ok (state, reward, self') ->
  get_observation self' g = Ok (state2, reward2, self'') ->
  state2 = state /\ self'' = self' /\ (reward2 = 2 \/ reward2 = -3).
Proof.
  unfold get_observation. intros H1 H2.
  apply bind_Ok in H1 as (flags & Hflags & H1).
  apply bind_Ok in H1 as (fruit & Hfruit & H1).
  assert (snake self' = snake self
          /\ _score (snake self) <= __previous_score self'
          /\ state = flags ++ map Int (fruit_position (ref fruit)
                                         (_head (snake self)))
                     ++ [__calculate_distance (ref fruit)
                                              (_head (snake self))])
    as (Hs & Hle & Hst).
  { unfold reward_of in H1.
    destruct (Z.gtb_spec (_score (snake self)) (__previous_score self)).
    - injection H1 as <- <- <-. cbn. rewrite <- app_assoc.
      repeat split. lia.
    - destruct (distance_ltb _ _); injection H1 as <- <- <-; cbn;
        rewrite <- app_assoc; repeat split; lia. }
  rewrite Hs, Hflags, Hfruit in H2. cbn [bind] in H2.
  unfold reward_of in H2. rewrite Hs in H2.
  destruct (Z.gtb_spec (_score (snake self)) (__previous_score self'));
    [lia|].
  destruct self' as [s' p']. cbn [snake __previous_score] in *. subst s'.
  destruct (distance_ltb _ _); injection H2 as <- <- <-;
    rewrite <- app_assoc; auto.
Qed.

(** In a game [get_observation] always finds the six neighbours of the
    head: it returns when the grid holds a fruit and raises [IndexError]
    when it holds none. *)
Theorem get_observation_total (self : Bot) (g : Grid) :
  arena g -> live (snake self) -> owns (snake self) g ->
  (Grid_of_type g FRUIT <> [] /\ exists res, get_observation self g = Ok res)
  \/ (Grid_of_type g FRUIT = []
      /\ get_observation self g = Raise IndexError).
Proof.
  intros Ha Hlive Hown.
  pose proof (owns_head_inside _ _ Ha Hlive Hown) as Hin.
  destruct (blocked_flags_Ok (snake self) g Direction_members)
    as [flags Hflags].
  { intros d. destruct Ha as (_ & Hdom & _). apply Hdom.
    unfold inside, in_grid in *. cbn [fst snd].
    rewrite _head_position_change_table.
    destruct d, (Z.even (snd (_head (snake self))));
      cbn [column_parity_delta fst snd]; lia. }
  unfold get_observation. rewrite Hflags. cbn [bind].
  destruct (Grid_of_type g FRUIT) as [|f l].
  - right. auto.
  - left. split; [discriminate|]. cbn [bind].
    destruct (reward_of self (ref f)). eauto.
Qed.

(** ** The replay memory as a window *)

Lemma tail_drop {A : Type} (l : list A) : tail l = drop 1 l.
Proof. destruct l; reflexivity. Qed.

Lemma deque_append_window {A : Type} (cap : Z) (hist : list A) (t : A) :
  0 <= cap ->
  deque_append cap (drop (length hist - Z.to_nat cap) hist) t
  = drop (length (hist ++ [t]) - Z.to_nat cap) (hist ++ [t]).
Proof.
  intros Hcap. unfold deque_append.
  rewrite !length_app, length_drop. cbn [length].
  destruct (Z.ltb_spec cap
              (Z.of_nat (length hist - (length hist - Z.to_nat cap) + 1)))
    as [Hlt|Hge].
  - replace (length hist + 1 - Z.to_nat cap)%nat
      with (length hist - Z.to_nat cap + 1)%nat by lia.
    rewrite tail_drop, <- drop_app_le by lia.
    now rewrite drop_drop.
  - replace (length hist - Z.to_nat cap)%nat with 0%nat by lia.
    replace (length hist + 1 - Z.to_nat cap)%nat with 0%nat by lia.
    reflexivity.
Qed.

(** Whatever is stored in a new network, its memory is the window of the
    last [memory_size] transitions stored, oldest first. *)
Theorem replay_memory_window
    {Model : Type} (gamma : Q) (n_actions : Z) (epsilon : Q)
    (batch_size : nat) (epsilon_delta epsilon_final : Q) (capacity : Z)
    (m : Model) (net : DQNetwork Model) (ts : list Transition) :
  DQNetwork_init gamma n_actions epsilon batch_size epsilon_delta
                 epsilon_final capacity m = Ok net ->
  memory (fold_left store_transition ts net)
  = drop (length ts - Z.to_nat capacity) ts.
Proof.
  unfold DQNetwork_init.
  destruct (Z.ltb_spec capacity 0) as [|Hcap]; [discriminate|].
  intros [= <-].
  induction ts as [|t ts IH] using rev_ind; [reflexivity|].
  rewrite fold_left_app. cbn [fold_left store_transition memory].
  rewrite IH.
  assert (memory_size
            (fold_left store_transition ts
               {| n_actions := n_actions; gamma := gamma; epsilon := epsilon;
                  epsilon_delta := epsilon_delta;
                  epsilon_final := epsilon_final; batch_size := batch_size;
                  memory_size := capacity; memory := []; model := m |})
          = capacity) as ->.
  { apply (store_all_bounded ts (mkDQNetwork _ _ _ _ _ _ capacity [] m)).
    cbn. lia. }
  now apply deque_append_window.
Qed.

(** ** Actions and directions *)

Lemma Direction_of_value_cases (v : Z) :
  (0 <= v <= 5 /\ exists d, Direction_of_value v = Ok d
                            /\ Direction_value d = v)
  \/ (~ 0 <= v <= 5 /\ Direction_of_value v = Raise ValueError).
Proof.
  unfold Direction_of_value.
  cbn [find Direction_members Direction_value].
  destruct (Z.eqb_spec 0 v); [left; split; [lia|eauto]|].
  destruct (Z.eqb_spec 1 v); [left; split; [lia|eauto]|].
  destruct (Z.eqb_spec 2 v); [left; split; [lia|eauto]|].
  destruct (Z.eqb_spec 3 v); [left; split; [lia|eauto]|].
  destruct (Z.eqb_spec 4 v); [left; split; [lia|eauto]|].
  destruct (Z.eqb_spec 5 v); [left; split; [lia|eauto]|].
  right. split; [lia | reflexivity].
Qed.

(** [update_direction] fails only on what it cannot translate: the
    player's method raises [KeyError] exactly for a key outside
    [VALID_KEYS], the bot's raises [ValueError] exactly for an action
    outside 0..5, and both return in every other case. *)
Theorem update_direction_errors (self : Snake) (bot : Bot)
    (key : string) (action : Z) :
  ((List.In key VALID_KEYS
    /\ exists self', Snake_update_direction self key = Ok self')
   \/ (~ List.In key VALID_KEYS
       /\ Snake_update_direction self key = Raise KeyError))
  /\ ((0 <= action <= 5
       /\ exists bot', Bot_update_direction bot action = Ok bot')
      \/ (~ 0 <= action <= 5
          /\ Bot_update_direction bot action = Raise ValueError)).
Proof.
  split.
  - unfold Snake_update_direction, KEY_TO_DIRECTION_getitem.
    cbn [KEY_TO_DIRECTION VALID_KEYS Direction_members combine find fst snd].
    repeat match goal with
    | |- context [String.eqb ?k key] =>
        destruct (String.eqb_spec k key) as [<-|]
    end;
      try (left; split; [cbn; tauto|]; cbn [bind];
           destruct (negb _); eauto).
    right. split; [|reflexivity].
    cbn. intros H. repeat (destruct H as [H|H]; [congruence|]). exact H.
  - unfold Bot_update_direction.
    destruct (Direction_of_value_cases action)
      as [(Hr & d & -> & _)|(Hr & ->)].
    + left. split; [assumption|]. cbn [bind]. destruct (negb _); eauto.
    + right. auto.
Qed.

Lemma argmax_from_bounds (best : Q) (best_i i : Z) (row : list Q) :
  0 <= best_i < i ->
  0 <= argmax_from best best_i i row < i + Z.of_nat (length row).
Proof.
  revert best best_i i. induction row as [|q row IH]; intros best bi i H.
  - cbn. lia.
  - cbn [argmax_from length]. destruct (Qltb best q).
    + specialize (IH q i (i + 1)). lia.
    + specialize (IH best bi (i + 1)). lia.
Qed.

(** With six actions and an approximator that returns six values per
    state, every action that [choose_action] returns - drawn at random or
    taken as the arg-max - is the id of a direction, so the bot's
    [update_direction] accepts it. *)
Theorem choose_action_valid
    {Model : Type} (predict : Model -> list State -> list (list Q))
    (net : DQNetwork Model) (observation : State) (u : Q) (r : nat)
    (action : Z) (bot : Bot) :
  n_actions net = 6 ->
  (forall row rest, predict (model net) [observation] = row :: rest ->
                    length row = 6%nat) ->
  choose_action predict net observation u r = Ok action ->
  0 <= action <= 5
  /\ (exists d, Direction_of_value action = Ok d)
  /\ exists bot', Bot_update_direction bot action = Ok bot'.
Proof.
  intros Hn Hrows Hact.
  assert (0 <= action <= 5) as Hrange.
  { unfold choose_action in Hact. destruct (Qltb u (epsilon net)).
    - rewrite Hn in Hact. change (6 <=? 0) with false in Hact.
      apply random_choice_In in Hact.
      apply range_In in Hact. lia.
    - destruct (predict (model net) [observation]) as [|row rest] eqn:Hp;
        [discriminate|].
      specialize (Hrows row rest eq_refl).
      destruct row as [|q row]; [discriminate|].
      cbn [row_argmax] in Hact. injection Hact as <-.
      pose proof (argmax_from_bounds q 0 1 row ltac:(lia)) as Hb.
      cbn [length] in Hrows. lia. }
  split; [assumption|].
  destruct (Direction_of_value_cases action)
    as [(_ & d & Hd & _)|(Hr & _)]; [|contradiction].
  split; [eauto|].
  unfold Bot_update_direction. rewrite Hd. cbn [bind].
  destruct (negb _); eauto.
Qed.

(** ** [Game.__init__] *)

Lemma filter_none {A : Type} (p : A -> bool) (l : list A) :
  (forall x, List.In x l -> p x = false) -> List.filter p l = [].
Proof.
  induction l as [|a l IH]; intros H; [reflexivity|].
  cbn [List.filter]. rewrite (H a) by now left.
  apply IH. intros x Hx. apply H. now right.
Qed.

Lemma Grid_init_fruits (nr nc : Z) : fruits (Grid_init nr nc) = 0%nat.
Proof.
  unfold fruits, Grid_of_type. rewrite filter_none; [reflexivity|].
  intros c Hc. apply Grid_init_In in Hc as (_ & _ & ->).
  now destruct (is_edge _ _ _ _).
Qed.

Lemma Grid_at_start (nr nc j : Z) :
  3 <= nr -> 1 <= j <= nc - 2 ->
  Grid_at (Grid_init nr nc) (nr - 2, j) = Ok (Cell.mk (nr - 2) j NORMAL).
Proof.
  intros Hr Hj. rewrite Grid_init_at.
  assert ((0 <=? nr - 2) && (nr - 2 <? nr) && (0 <=? j) && (j <? nc) = true)
    as -> by (repeat (apply andb_true_iff; split); lia).
  assert (is_edge nr nc (nr - 2) j = false) as ->
    by (apply is_edge_false; lia).
  reflexivity.
Qed.

(** [Game(rows, cols)] needs at least two rows and two columns - the
    lookup of the player's start cell [(rows - 2, 1)] raises
    [StopIteration] otherwise. With at least three of each the start cell
    is inside the ring, and the new game is an arena without fruit whose
    single player is live at [(rows - 2, 1)], heading NORTH_EAST, and owns
    its cell. *)
Theorem Game_init_spec (nr nc : Z) :
  ((2 <= nr /\ 2 <= nc /\ exists game, Game_init nr nc SINGLE = Ok game)
   \/ (~ (2 <= nr /\ 2 <= nc)
       /\ Game_init nr nc SINGLE = Raise StopIteration))
  /\ (3 <= nr -> 3 <= nc ->
      exists game s,
        Game_init nr nc SINGLE = Ok game
        /\ players game = [Human s]
        /\ _head s = (nr - 2, 1) /\ _body s = [(nr - 2, 1)]
        /\ _current_direction s = NORTH_EAST /\ _score s = 0
        /\ arena (grid game) /\ live s /\ owns s (grid game)
        /\ fruits (grid game) = 0%nat).
Proof.
  split.
  - unfold Game_init. rewrite Grid_init_at.
    destruct ((0 <=? nr - 2) && (nr - 2 <? nr) && (0 <=? 1) && (1 <? nc))
      eqn:E.
    + left. apply andb_true_iff in E as [E Hj2].
      apply andb_true_iff in E as [E Hj1].
      apply andb_true_iff in E as [Hi1 Hi2].
      split; [lia|]. split; [lia|]. cbn [bind Snake_init]. eauto.
    + right. split; [|reflexivity]. intros [H1 H2].
      assert ((0 <=? nr - 2) && (nr - 2 <? nr) && (0 <=? 1) && (1 <? nc)
              = true) by (repeat (apply andb_true_iff; split); lia).
      congruence.
  - intros Hr Hc. unfold Game_init.
    rewrite (Grid_at_start nr nc 1) by lia. cbn [bind].
    set (start := Cell.mk (nr - 2) 1 NORMAL).
    assert (Grid_at (Grid_init nr nc) (ref start) = Ok start) as Hat
      by exact (Grid_at_start nr nc 1 ltac:(lia) ltac:(lia)).
    pose proof (Grid_at_Ok _ _ _ Hat) as [_ Hin].
    pose proof (Snake_init_owns (Grid_init nr nc) start NORTH_EAST SNAKE
                  (or_introl eq_refl) Hin) as Hown.
    pose proof (Snake_init_live (Grid_init nr nc) start NORTH_EAST SNAKE)
      as Hlive.
    cbn [Snake_init fst snd] in *.
    eexists _, _. split; [reflexivity|]. cbn [players grid].
    split; [reflexivity|]. cbn [_head _body _current_direction _score].
    repeat (split; [reflexivity|]). split; [|split; [|split]].
    + apply arena_assign; [apply arena_Grid_init|].
      unfold type_at. rewrite Hat. discriminate.
    + exact Hlive.
    + exact Hown.
    + pose proof (assign_count (Grid_init nr nc) (ref start) SNAKE FRUIT
                    start (Grid_init_wf nr nc) Hat) as H.
      change (Cell.eqb (Cell.cell_type start) FRUIT) with false in H.
      change (Cell.eqb SNAKE FRUIT) with false in H. cbv iota in H.
      unfold fruits in *. pose proof (Grid_init_fruits nr nc) as H0.
      unfold fruits in H0. lia.
Qed.

(** ** One pass of the game loop *)

Lemma same_cells_live (a b : Snake) : same_cells a b -> live a -> live b.
Proof.
  intros (Hb & Hh & Hl & _) [Hlost [rest Hbody]].
  split; [congruence|]. exists rest. congruence.
Qed.

Lemma same_cells_owns (a b : Snake) (g : Grid) :
  same_cells a b -> owns a g -> owns b g.
Proof.
  intros (Hb & _ & _ & Ht) (Htag & Hnd & Hown).
  unfold owns. rewrite Hb, Ht. auto.
Qed.

Lemma Snake_update_direction_same (self self' : Snake) (key : string) :
  Snake_update_direction self key = Ok self' -> same_cells self self'.
Proof.
  unfold Snake_update_direction.
  destruct (KEY_TO_DIRECTION_getitem key); cbn [bind]; [|discriminate].
  destruct (negb _); intros [= <-]; repeat split.
Qed.

Lemma Bot_update_direction_same (self self' : Bot) (action : Z) :
  Bot_update_direction self action = Ok self' ->
  same_cells (snake self) (snake self').
Proof.
  unfold Bot_update_direction.
  destruct (Direction_of_value action); cbn [bind]; [|discriminate].
  destruct (negb _); intros [= <-]; repeat split.
Qed.

Lemma get_observation_snake (self self' : Bot) (g : Grid)
    (state : list Num) (reward : Z) :
  get_observation self g = Ok (state, reward, self') ->
  snake self' = snake self.
Proof.
  unfold get_observation. intros H.
  apply bind_Ok in H as (fl & _ & H). apply bind_Ok in H as (fr & _ & H).
  destruct (reward_of _ _). now injection H as <- <- <-.
Qed.

(** A turn is a change of heading at most, followed by a [move]. *)
Lemma player_turn_inv {Model : Type}
    (predict : Model -> list State -> list (list Q)) (net : DQNetwork Model)
    (p p' : Player) (g g' : Grid) (d : Draw) :
  player_turn predict net p g d = Ok (p', g') ->
  exists s, same_cells (snake_of p) s
            /\ move s g (drawn_rnd d) = Ok (snake_of p', g').
Proof.
  destruct p as [s|b]; cbn [player_turn snake_of]; intros H.
  - apply bind_Ok in H as (s1 & Hs1 & H).
    apply bind_Ok in H as ([s' g1] & Hm & [= <- <-]).
    exists s1. split; [|exact Hm].
    eapply Snake_update_direction_same; eassumption.
  - apply bind_Ok in H as ([[o rw] b1] & Hobs & H).
    apply bind_Ok in H as (a & _ & H).
    apply bind_Ok in H as (b2 & Hb2 & H).
    apply bind_Ok in H as ([s' g1] & Hm & [= <- <-]).
    exists (snake b2). split; [|exact Hm].
    apply get_observation_snake in Hobs. rewrite <- Hobs.
    eapply Bot_update_direction_same; eassumption.
Qed.

(** A turn keeps the game, whoever takes it. *)
Lemma turn_keeps_game {Model : Type}
    (predict : Model -> list State -> list (list Q)) (net : DQNetwork Model)
    (ps : list Player) (g g' : Grid) (i : nat) (p p' : Player) (d : Draw) :
  game_ok ps g -> ps !! i = Some p ->
  player_turn predict net p g d = Ok (p', g') ->
  game_ok (<[i := p']> ps) g' /\ fruits g' = fruits g.
Proof.
  intros (Ha & Hall & Hdisj) Hi Hturn.
  destruct (player_turn_inv _ _ _ _ _ _ _ Hturn) as (s & Hsame & Hmove).
  destruct (Hall i p Hi) as (Hown & Hlive & Hdead).
  pose proof Hsame as (Hsb & Hsh & Hsl & Hst).
  destruct (_lost (snake_of p)) eqn:Hlost.
  { exfalso. destruct (move_empty_body s g (drawn_rnd d)) as [e He].
    - rewrite Hsb. now apply Hdead.
    - rewrite He in Hmove. discriminate. }
  specialize (Hlive eq_refl).
  pose proof (same_cells_live _ _ Hsame Hlive) as Hlive_s.
  pose proof (same_cells_owns _ _ g Hsame Hown) as Hown_s.
  pose proof Ha as (Hwf & _).
  destruct (move_invariant _ _ _ _ _ Ha Hlive_s Hown_s Hmove)
    as [Ha' Hkeep].
  pose proof (move_body_cases _ _ _ _ _ Hlive_s Hmove) as Hcases.
  destruct (move_direction _ _ _ _ _ Hmove) as [_ Htag].
  assert (i < length ps)%nat as Hlen by (eapply lookup_lt_Some; eassumption).
  assert (forall j q, j <> i -> ps !! j = Some q ->
            owns (snake_of q) g'
            /\ forall r, List.In r (_body (snake_of p')) ->
                         ~ List.In r (_body (snake_of q))) as Hothers.
  { intros j q Hj Hq. destruct (Hall j q Hq) as (Hown_q & _).
    destruct (move_spares_others_aux s (snake_of p') (snake_of q) g g'
                (drawn_rnd d) Hwf Hlive_s Hown_q) as (H1 & _ & H3); auto.
    intros r Hr. rewrite Hsb in Hr.
    exact (Hdisj i j p q (not_eq_sym Hj) Hi Hq r Hr). }
  split; [|exact (move_fruits_aux _ _ _ _ _ Hwf Hlive_s Hown_s Hmove)].
  split; [assumption|]. split.
  - intros j q Hq. destruct (Nat.eq_dec j i) as [->|Hj].
    + rewrite list_lookup_insert_eq in Hq by assumption.
      injection Hq as <-.
      destruct Hcases as [[Hl Hb]|(Hl & _)].
      * split; [|split; [congruence|auto]].
        destruct Hown_s as (Ht & _). unfold owns. rewrite Hb, Htag.
        split; [assumption|]. split; [constructor|intros r []].
      * destruct (Hkeep Hl) as (Hl' & Ho' & _).
        split; [assumption|]. split; [auto|congruence].
    + rewrite list_lookup_insert_ne in Hq by congruence.
      destruct (Hall j q Hq) as (_ & Hlq & Hdq).
      destruct (Hothers j q Hj Hq) as [Ho _]. auto.
  - intros j k a b Hjk Hj Hk r Hr.
    destruct (Nat.eq_dec j i) as [->|Hji];
      destruct (Nat.eq_dec k i) as [->|Hki]; try congruence.
    + rewrite list_lookup_insert_eq in Hj by assumption.
      injection Hj as <-.
      rewrite list_lookup_insert_ne in Hk by congruence.
      destruct (Hothers k b Hki Hk) as [_ H]. now apply H.
    + rewrite list_lookup_insert_eq in Hk by assumption.
      injection Hk as <-.
      rewrite list_lookup_insert_ne in Hj by congruence.
      destruct (Hothers j a Hji Hj) as [_ H].
      intros Hr'. exact (H r Hr' Hr).
    + rewrite list_lookup_insert_ne in Hj, Hk by congruence.
      exact (Hdisj j k a b Hjk Hj Hk r Hr).
Qed.

Lemma active_from_In (players : list Player) (k j : nat) :
  List.In j (active_from k players)
  <-> (k <= j)%nat
      /\ exists p, players !! (j - k)%nat = Some p /\ player_lost p = false.
Proof.
  revert k; induction players as [|p ps IH]; intros k; cbn [active_from].
  - split; [intros [] | intros (_ & q & H & _); discriminate].
  - assert (List.In j (active_from (S k) ps)
            <-> (k < j)%nat
                /\ exists q, (p :: ps) !! (j - k)%nat = Some q
                             /\ player_lost q = false) as Hrest.
    { rewrite IH. split; intros (Hk & q & Hq & Hl).
      - split; [lia|]. exists q. split; [|assumption].
        replace (j - k)%nat with (S (j - S k)) by lia. exact Hq.
      - split; [lia|]. exists q. split; [|assumption].
        replace (j - k)%nat with (S (j - S k)) in Hq by lia. exact Hq. }
    destruct (player_lost p) eqn:Hp; cbn [negb].
    + rewrite Hrest. split.
      * intros (Hk & H). split; [lia | exact H].
      * intros (Hk & q & Hq & Hl). split; [|eauto].
        destruct (Nat.eq_dec j k) as [->|]; [|lia].
        rewrite Nat.sub_diag in Hq. injection Hq as <-. congruence.
    + cbn [List.In]. rewrite Hrest. split.
      * intros [<-|(Hk & H)].
        -- split; [lia|]. exists p. now rewrite Nat.sub_diag.
        -- split; [lia | exact H].
      * intros (Hk & q & Hq & Hl).
        destruct (Nat.eq_dec k j) as [->|]; [now left|].
        right. split; [lia|eauto].
Qed.

Lemma tick_loop_keeps {Model : Type}
    (predict : Model -> list State -> list (list Q)) (net : DQNetwork Model)
    (draws : nat -> Draw) (active : list nat) :
  forall (ps ps' : list Player) (g g' : Grid),
    game_ok ps g ->
    tick_loop predict net active ps g draws = Ok (ps', g') ->
    game_ok ps' g' /\ fruits g' = fruits g /\ length ps' = length ps
    /\ forall j, ~ List.In j active -> ps' !! j = ps !! j.
Proof.
  induction active as [|i active IH]; intros ps ps' g g' Hok Htick;
    cbn [tick_loop] in Htick.
  - injection Htick as <- <-. auto.
  - destruct (ps !! i) as [p|] eqn:Hi; [|discriminate].
    apply bind_Ok in Htick as ([p' g1] & Hturn & Htick).
    cbn [fst snd] in Htick.
    destruct (turn_keeps_game _ _ _ _ _ _ _ _ _ Hok Hi Hturn) as [Hok1 Hf1].
    destruct (IH _ _ _ _ Hok1 Htick) as (Hok' & Hf & Hlen & Hkeep).
    split; [assumption|]. split; [congruence|].
    split; [now rewrite Hlen, length_insert|].
    intros j Hj. rewrite Hkeep by (intros H; apply Hj; now right).
    apply list_lookup_insert_ne. intros ->. apply Hj. now left.
Qed.

(** One pass of the game loop keeps the game: afterwards the grid is
    again an arena with as many fruits as before, every player still owns
    its own cells and no cell has two owners, the players are as many as
    before, and a player that had lost has not been touched - nobody comes
    back into play. *)
Theorem tick_keeps_game {Model : Type}
    (predict : Model -> list State -> list (list Q)) (net : DQNetwork Model)
    (game game' : Game) (draws : nat -> Draw) :
  game_ok (players game) (grid game) ->
  tick predict net game draws = Ok game' ->
  game_ok (players game') (grid game')
  /\ fruits (grid game') = fruits (grid game)
  /\ length (players game') = length (players game)
  /\ (forall j p, players game !! j = Some p -> player_lost p = true ->
                  players game' !! j = Some p)
  /\ (forall j p p', players game !! j = Some p ->
                     players game' !! j = Some p' ->
                     player_lost p' = false -> player_lost p = false).
Proof.
  intros Hok Htick. unfold tick in Htick.
  apply bind_Ok in Htick as ([ps' g'] & Hloop & [= <-]).
  cbn [players grid fst snd].
  destruct (tick_loop_keeps _ _ _ _ _ _ _ _ Hok Hloop)
    as (Hok' & Hf & Hlen & Hkeep).
  assert (forall j p, players game !! j = Some p -> player_lost p = true ->
                      ps' !! j = Some p) as Hdead.
  { intros j p Hj Hl. rewrite Hkeep; [assumption|].
    intros Hin. apply active_from_In in Hin as (_ & q & Hq & Hlq).
    rewrite Nat.sub_0_r, Hj in Hq. injection Hq as <-. congruence. }
  repeat (split; [assumption|]).
  intros j p p' Hj Hj' Hl'.
  destruct (player_lost p) eqn:Hl; [|reflexivity].
  rewrite (Hdead j p Hj Hl) in Hj'. injection Hj' as <-. congruence.
Qed.


(** ** Training steps *)

Lemma train_frame {Model : Type}
    (predict : Model -> list State -> list (list Q))
    (train_on_batch : Model -> list State -> list (list Q) -> Model)
    (net net' : DQNetwork Model) (draw : list nat) :
  train predict train_on_batch net draw = Ok net' ->
  memory net' = memory net /\ memory_size net' = memory_size net
  /\ gamma net' = gamma net /\ batch_size net' = batch_size net
  /\ n_actions net' = n_actions net.
Proof.
  unfold train. destruct (_ <? _)%nat.
  - intros [= <-]. auto.
  - intros H. apply bind_Ok in H as (batch & _ & H).
    apply bind_Ok in H as (? & _ & H).
    apply bind_Ok in H as (q & _ & [= <-]). cbn. auto.
Qed.




(** Under 1000 stored transitions training does nothing: however many
    times [train] is called, and whatever would have been sampled, the
    network - model, epsilon and memory - is returned as it was. *)
Theorem train_steps_cold {Model : Type}
    (predict : Model -> list State -> list (list Q))
    (train_on_batch : Model -> list State -> list (list Q) -> Model)
    (draws : list (list nat)) (net : DQNetwork Model) :
  (length (memory net) < 1000)%nat ->
  train_steps predict train_on_batch net draws = Ok net.
Proof.
  intros Hm. induction draws as [|draw draws IH]; [reflexivity|].
  cbn [train_steps]. unfold train at 1.
  destruct (Nat.ltb_spec (length (memory net)) 1000) as [_|Hge]; [|lia].
  exact IH.
Qed.


(** ** train.py: one turn of the episode loop *)

Lemma deque_append_last {A : Type} (cap : Z) (d : list A) (a : A) :
  0 < cap -> last (deque_append cap d a) = Some a.
Proof.
  intros Hcap. unfold deque_append.
  destruct (Z.ltb_spec cap (Z.of_nat (length (d ++ [a])))) as [Hlt|_].
  - destruct d as [|x d]; [cbn in Hlt; lia|].
    cbn [app tail]. apply last_snoc.
  - apply last_snoc.
Qed.

(** One turn of the training loop keeps the game and books the turn: the
    grid is an arena again with as many fruits as before; a bot still in
    play is live and owns its cells; the newest entry of the memory is the
    transition from the old observation to the new one, flagged with
    [bot.lost]; the score has grown by its reward, which is -10 when the
    bot has lost. *)
Theorem episode_turn_keeps_game {Model : Type}
    (predict : Model -> list State -> list (list Q))
    (train_on_batch : Model -> list State -> list (list Q) -> Model)
    (ep ep' : Episode Model) (u : Q) (r rnd : nat) (draw : list nat) :
  arena (ep_grid ep) ->
  live (snake (ep_bot ep)) ->
  owns (snake (ep_bot ep)) (ep_grid ep) ->
  0 < memory_size (ep_model ep) ->
  episode_turn predict train_on_batch ep u r rnd draw = Ok ep' ->
  arena (ep_grid ep')
  /\ fruits (ep_grid ep') = fruits (ep_grid ep)
  /\ (_lost (snake (ep_bot ep')) = false ->
      live (snake (ep_bot ep')) /\ owns (snake (ep_bot ep')) (ep_grid ep'))
  /\ exists action reward,
       last (memory (ep_model ep'))
       = Some (ep_observation ep, action, reward, ep_observation ep',
               _lost (snake (ep_bot ep')))
       /\ ep_score ep' = ep_score ep + reward
       /\ (_lost (snake (ep_bot ep')) = true -> reward = -10).
Proof.
  intros Ha Hl Ho Hcap H. unfold episode_turn in H.
  apply bind_Ok in H as ([[t g] bot] & Hplay & H).
  destruct t as [[[[st act] rw] nst] fl].
  apply bind_Ok in H as (net & Htrain & [= <-]).
  cbn [ep_grid ep_bot ep_model ep_observation ep_score].
  destruct (train_frame _ _ _ _ _ Htrain) as (Hmem & _).
  rewrite Hmem. cbn [store_transition memory].
  unfold play_turn in Hplay.
  apply bind_Ok in Hplay as (a & _ & Hplay).
  apply bind_Ok in Hplay as (b & Hupd & Hplay).
  apply bind_Ok in Hplay as ([s g'] & Hmove & Hplay).
  cbn [snake] in Hplay.
  apply Bot_update_direction_same in Hupd as Hsame.
  pose proof (same_cells_live _ _ Hsame Hl) as Hl'.
  pose proof (same_cells_owns _ _ _ Hsame Ho) as Ho'.
  destruct (move_invariant _ _ _ _ _ Ha Hl' Ho' Hmove) as (Ha' & Hkeep).
  pose proof (move_fruits_aux _ _ _ _ _ (proj1 Ha) Hl' Ho' Hmove) as Hfr.
  assert (snake bot = s /\ g = g' /\ st = ep_observation ep /\ act = a
          /\ fl = _lost s /\ (_lost s = true -> rw = -10)) as Hres.
  { destruct (_lost s) eqn:Hlost; cbn [bind] in Hplay.
    - injection Hplay as <- <- <- <- <- <- <-. cbn [snake]. auto 10.
    - apply bind_Ok in Hplay as ([[o rw'] b'] & Hobs & Hplay).
      apply get_observation_snake in Hobs. cbn [snake] in Hobs.
      injection Hplay as <- <- <- <- <- <- <-.
      rewrite Hobs, Hlost. repeat split; auto. discriminate. }
  destruct Hres as (Hs & <- & -> & -> & -> & Hrw). rewrite Hs.
  split; [exact Ha'|]. split; [exact Hfr|].
  split; [intros Hlost; destruct (Hkeep Hlost) as (? & ? & _); auto|].
  exists a, rw. split; [|split; [reflexivity|exact Hrw]].
  now apply deque_append_last.
Qed.


(** ** train.py: the obstacles *)

(** As long as Empty cells are left, the idle bots that [train.py] drops
    as obstacles are all placed: each takes one cell that was Empty, so
    the Empty cells are as many fewer as there are obstacles and the Bot
    cells as many more; the grid stays an arena, the fruits stay, and
    every cell that was not Empty - the playing bot's among them - keeps
    its tag. *)
Theorem add_obstacles_spec (g : Grid) (rnds : list nat) :
  arena g ->
  (length rnds <= length (Grid_of_type g NORMAL))%nat ->
  exists g',
    add_obstacles g rnds = Ok g'
    /\ arena g'
    /\ (length (Grid_of_type g' NORMAL) + length rnds
        = length (Grid_of_type g NORMAL))%nat
    /\ (length (Grid_of_type g' BOT)
        = length (Grid_of_type g BOT) + length rnds)%nat
    /\ fruits g' = fruits g
    /\ (forall r t, type_at g r = Ok t -> t <> NORMAL ->
                    type_at g' r = Ok t).
Proof.
  revert g. induction rnds as [|rnd rnds IH]; intros g Ha Hlen.
  - exists g. cbn [add_obstacles length].
    split; [reflexivity|]. split; [exact Ha|].
    split; [lia|]. split; [lia|]. split; [reflexivity|]. auto.
  - cbn [length] in Hlen.
    destruct (random_choice_Ok (Grid_of_type g NORMAL) rnd)
      as (cell & Hpick & Hin).
    { intros Hnil. rewrite Hnil in Hlen. cbn in Hlen. lia. }
    apply Grid_of_type_In in Hin as [Hin Hty].
    pose proof (Grid_wf_at g cell (proj1 Ha) Hin) as Hat.
    assert (type_at g (ref cell) = Ok NORMAL) as Htype
      by (unfold type_at; rewrite Hat; cbn [bind]; now rewrite Hty).
    set (g1 := assign_type g (ref cell) BOT).
    assert (arena g1) as Ha1
      by (apply arena_assign; [exact Ha | rewrite Htype; discriminate]).
    pose proof (assign_count g (ref cell) BOT NORMAL cell (proj1 Ha) Hat)
      as Hn.
    pose proof (assign_count g (ref cell) BOT BOT cell (proj1 Ha) Hat) as Hb.
    pose proof (assign_count g (ref cell) BOT FRUIT cell (proj1 Ha) Hat)
      as Hf.
    rewrite Hty in Hn, Hb, Hf.
    change (Cell.eqb NORMAL NORMAL) with true in Hn.
    change (Cell.eqb BOT NORMAL) with false in Hn.
    change (Cell.eqb NORMAL BOT) with false in Hb.
    change (Cell.eqb BOT BOT) with true in Hb.
    change (Cell.eqb NORMAL FRUIT) with false in Hf.
    change (Cell.eqb BOT FRUIT) with false in Hf.
    cbv iota in Hn, Hb, Hf. fold g1 in Hn, Hb, Hf.
    destruct (IH g1 Ha1) as (g' & Hrun & Ha' & Hn' & Hb' & Hf' & Hkeep);
      [lia|].
    exists g'. cbn [add_obstacles]. rewrite Hpick. cbn [bind].
    change (snd (Bot_init g cell NORTH_WEST BOT)) with g1.
    split; [exact Hrun|]. split; [exact Ha'|].
    cbn [length]. unfold fruits in *.
    split; [lia|]. split; [lia|]. split; [lia|].
    intros r t Hr Ht. apply Hkeep; [|exact Ht].
    unfold g1. rewrite type_at_assign_other; [exact Hr|].
    intros ->. rewrite Htype in Hr. congruence.
Qed.


(** ** [DQNetwork.train]: the targets *)

(** The rule by which [train] builds its targets, for every batch and
    every approximator: the row for the [i]-th sampled transition is the
    current prediction for its state, except in the slot of its action,
    which holds [reward + gamma * max(q_next) * flag]. *)
Theorem train_target_rule {Model : Type}
    (predict : Model -> list State -> list (list Q))
    (net : DQNetwork Model) (batch : list Transition)
    (targets : list (list Q)) :
  q_target_of predict net batch = Ok targets ->
  forall (i : nat) state action reward next_state done,
    batch !! i = Some (state, action, reward, next_state, done) ->
    exists row next_row m j target,
      predict (model net) (states_of batch) !! i = Some row
      /\ predict (model net) (next_states_of batch) !! i = Some next_row
      /\ row_max next_row = Ok m
      /\ np_index (length row) action = Ok j
      /\ targets !! i = Some target
      /\ target !! j
         = Some (inject_Z reward + gamma net * m * Q_of_bool done)%Q
      /\ forall k, k <> j -> target !! k = row !! k.
Proof. exact (q_target_of_slot predict net batch targets). Qed.


(** ** The further statements at concrete states *)

Lemma corner_game_invariant :
  arena corner_grid /\ live corner_snake /\ owns corner_snake corner_grid.
Proof.
  assert (Grid_at (Grid_init 11 29) (9, 1) = Ok (Cell.mk 9 1 NORMAL)) as Hat
    by (vm_compute; reflexivity).
  split; [|split].
  - apply arena_assign; [apply arena_Grid_init|].
    unfold type_at. change (ref (Cell.mk 9 1 NORMAL)) with (9, 1).
    rewrite Hat. discriminate.
  - apply Snake_init_live.
  - apply Snake_init_owns; [now left|].
    now apply Grid_at_Ok in Hat as [_ Hin].
Qed.

Lemma corner_bot_invariant :
  arena corner_bot_grid /\ live (snake corner_bot)
  /\ owns (snake corner_bot) corner_bot_grid.
Proof.
  assert (Grid_at (Grid_init 11 29) (9, 27) = Ok (Cell.mk 9 27 NORMAL))
    as Hat by (vm_compute; reflexivity).
  split; [|split].
  - apply arena_assign; [apply arena_Grid_init|].
    unfold type_at. change (ref (Cell.mk 9 27 NORMAL)) with (9, 27).
    rewrite Hat. discriminate.
  - exact (Snake_init_live (Grid_init 11 29) (Cell.mk 9 27 NORMAL)
             NORTH_WEST BOT).
  - apply (Snake_init_owns (Grid_init 11 29) (Cell.mk 9 27 NORMAL)
             NORTH_WEST BOT); [now right|].
    now apply Grid_at_Ok in Hat as [_ Hin].
Qed.

Lemma game_ok_single (s : Snake) (g : Grid) :
  arena g -> live s -> owns s g -> game_ok [Human s] g.
Proof.
  intros Ha Hl Ho. split; [assumption|]. split.
  - intros [|i] p Hp; [|destruct i; discriminate].
    injection Hp as <-. cbn [snake_of]. split; [assumption|].
    split; [auto|]. destruct Hl as [Hl _]. congruence.
  - intros [|i] [|j] p q Hij Hp Hq; try congruence;
      try (destruct i; discriminate); destruct j; discriminate.
Qed.

Lemma opposite_step_leads_back_witness :
  move corner_snake corner_grid 0 = Ok (stepped_snake, stepped_grid)
  /\ _lost stepped_snake = false
  /\ candidate (set_direction stepped_snake SOUTH_WEST) = (9, 1).
Proof.
  assert (move corner_snake corner_grid 0 = Ok (stepped_snake, stepped_grid))
    as Hmove by (vm_compute; reflexivity).
  assert (_lost stepped_snake = false) as Hlost by reflexivity.
  repeat (split; [assumption|]).
  destruct (opposite_step_leads_back _ _ _ _ _ Hmove Hlost) as [H _].
  exact H.
Defined.

Lemma move_total_witness :
  arena corner_grid /\ live corner_snake /\ owns corner_snake corner_grid
  /\ ((exists self' g', move corner_snake corner_grid 0 = Ok (self', g'))
      \/ (type_at corner_grid (candidate corner_snake) = Ok FRUIT
          /\ Grid_of_type corner_grid NORMAL = []
          /\ move corner_snake corner_grid 0 = Raise IndexError)).
Proof.
  destruct corner_game_invariant as (Ha & Hl & Ho).
  repeat (split; [assumption|]).
  exact (move_total corner_snake corner_grid 0 Ha Hl Ho).
Defined.

Lemma move_keeps_game_witness :
  arena corner_grid /\ live corner_snake /\ owns corner_snake corner_grid
  /\ move corner_snake corner_grid 0 = Ok (stepped_snake, stepped_grid)
  /\ arena stepped_grid /\ live stepped_snake
  /\ owns stepped_snake stepped_grid.
Proof.
  destruct corner_game_invariant as (Ha & Hl & Ho).
  assert (move corner_snake corner_grid 0 = Ok (stepped_snake, stepped_grid))
    as Hmove by (vm_compute; reflexivity).
  repeat (split; [assumption|]).
  destruct (move_keeps_game _ _ _ _ _ Ha Hl Ho Hmove) as [Ha' Hk].
  destruct (Hk eq_refl) as (Hl' & Ho' & _). auto.
Defined.

Lemma move_step_witness :
  live corner_snake
  /\ Grid_at corner_grid (candidate corner_snake) = Ok (Cell.mk 8 2 NORMAL)
  /\ last (_body corner_snake) = Some (9, 1)
  /\ Grid_at corner_grid (9, 1) = Ok (Cell.mk 9 1 SNAKE)
  /\ exists self' g',
       move corner_snake corner_grid 0 = Ok (self', g')
       /\ _body self' = [(8, 2)]
       /\ type_at g' (8, 2) = Ok SNAKE
       /\ type_at g' (9, 1) = Ok NORMAL.
Proof.
  destruct corner_game_invariant as (_ & Hl & _).
  assert (Grid_at corner_grid (candidate corner_snake)
          = Ok (Cell.mk 8 2 NORMAL)) as Hat by (vm_compute; reflexivity).
  assert (Grid_at corner_grid (9, 1) = Ok (Cell.mk 9 1 SNAKE)) as Htl
    by (vm_compute; reflexivity).
  repeat (split; [assumption || reflexivity|]).
  destruct (move_step corner_snake corner_grid 0 _ _ (9, 1) Hl Hat eq_refl
              eq_refl Htl)
    as (self' & g' & Hmove & Hself & _ & _ & Hnew & Hold & _).
  exists self', g'. split; [assumption|]. subst self'.
  split; [reflexivity|]. split; [exact Hnew|].
  apply Hold. discriminate.
Defined.

Lemma move_keeps_fruits_witness :
  Grid_wf fruit_ahead_grid /\ live corner_snake
  /\ owns corner_snake fruit_ahead_grid
  /\ exists self' g',
       move corner_snake fruit_ahead_grid 163 = Ok (self', g')
       /\ fruits fruit_ahead_grid = 1%nat /\ fruits g' = 1%nat.
Proof.
  destruct corner_game_invariant as (Ha & Hl & (Htag & Hnd & Hown)).
  assert (Grid_wf fruit_ahead_grid) as Hwf
    by (apply Grid_wf_assign; apply Ha).
  assert (owns corner_snake fruit_ahead_grid) as Ho.
  { split; [assumption|]. split; [assumption|].
    intros r [<-|[]]. vm_compute. reflexivity. }
  repeat (split; [assumption|]).
  assert (exists self' g',
            move corner_snake fruit_ahead_grid 163 = Ok (self', g'))
    as (self' & g' & Hmove) by (vm_compute; eexists _, _; reflexivity).
  exists self', g'. split; [assumption|].
  assert (fruits fruit_ahead_grid = 1%nat) as Hf
    by (vm_compute; reflexivity).
  split; [assumption|].
  now rewrite (move_keeps_fruits _ _ _ _ _ Hwf Hl Ho Hmove).
Defined.


Lemma move_spares_others_witness :
  let g' := assign_type (assign_type duel_grid (9, 1) NORMAL) (8, 2) SNAKE in
  Grid_wf duel_grid /\ live corner_snake
  /\ owns (snake corner_bot) duel_grid
  /\ move corner_snake duel_grid 0 = Ok (stepped_snake, g')
  /\ owns (snake corner_bot) g'
  /\ ~ List.In (8, 2) (_body (snake corner_bot)).
Proof.
  intros g'.
  destruct corner_game_invariant as (Ha & Hl & _).
  assert (Grid_wf duel_grid) as Hwf by (apply Grid_wf_assign; apply Ha).
  assert (owns (snake corner_bot) duel_grid) as Ho.
  { split; [now right|]. split.
    - constructor; [intros [] | constructor].
    - intros r [<-|[]]. vm_compute. reflexivity. }
  assert (move corner_snake duel_grid 0 = Ok (stepped_snake, g')) as Hmove
    by (vm_compute; reflexivity).
  split; [exact Hwf|]. split; [exact Hl|]. split; [exact Ho|].
  split; [exact Hmove|].
  destruct (move_spares_others corner_snake stepped_snake (snake corner_bot)
              duel_grid g' 0 Hwf Hl Ho) as (Ho' & _ & Hd).
  - intros r [<-|[]] [H|[]]. discriminate.
  - exact Hmove.
  - split; [exact Ho'|]. apply Hd. now left.
Defined.

Lemma contested_cell_witness :
  let g1 := assign_type (assign_type rival_grid (9, 1) NORMAL) (8, 2) SNAKE in
  live corner_snake
  /\ move corner_snake rival_grid 0 = Ok (stepped_snake, g1)
  /\ live rival
  /\ candidate rival = _head stepped_snake
  /\ exists second' g2,
       move rival g1 0 = Ok (second', g2)
       /\ _lost second' = true
       /\ type_at g2 (8, 2) = Ok SNAKE.
Proof.
  intros g1.
  destruct corner_game_invariant as (_ & Hl & _).
  assert (move corner_snake rival_grid 0 = Ok (stepped_snake, g1)) as Hmove
    by (vm_compute; reflexivity).
  assert (live rival) as Hl2
    by (split; [reflexivity | exists []; reflexivity]).
  assert (candidate rival = _head stepped_snake) as Hc by reflexivity.
  repeat (split; [assumption|]).
  destruct (contested_cell corner_snake stepped_snake rival rival_grid g1 0 0
              Hl (or_introl eq_refl) Hmove eq_refl Hl2 Hc)
    as (s2 & g2 & Hm & Hlost & _ & Hty).
  - intros [H|[]]. discriminate.
  - exists s2, g2. auto.
Defined.

Lemma get_observation_shape_witness :
  let state := [Int 0; Int 0; Int 0; Int 0; Int 0; Int 1;
                Int 0; Int 0; Int 0; Int 0; Int 0; Int 0; Int 0; Int 1;
                Sqrt 674] in
  let seen := {| snake := snake fed_bot; __previous_score := 10 |} in
  get_observation fed_bot fed_grid = Ok (state, 10, seen)
  /\ length state = 15%nat
  /\ __previous_score seen
     = Z.max (_score (snake fed_bot)) (__previous_score fed_bot).
Proof.
  intros state seen.
  assert (get_observation fed_bot fed_grid = Ok (state, 10, seen)) as Hobs
    by (vm_compute; reflexivity).
  split; [assumption|].
  destruct (get_observation_shape _ _ _ _ _ Hobs) as (Hlen & _ & _ & _ & Hb).
  auto.
Defined.

Lemma get_observation_once_witness :
  let state := [Int 0; Int 0; Int 0; Int 0; Int 0; Int 1;
                Int 0; Int 0; Int 0; Int 0; Int 0; Int 0; Int 0; Int 1;
                Sqrt 674] in
  let seen := {| snake := snake fed_bot; __previous_score := 10 |} in
  get_observation fed_bot fed_grid = Ok (state, 10, seen)
  /\ get_observation seen fed_grid = Ok (state, 2, seen)
  /\ (2 = 2 \/ 2 = -3).
Proof.
  intros state seen.
  assert (get_observation fed_bot fed_grid = Ok (state, 10, seen)) as H1
    by (vm_compute; reflexivity).
  assert (get_observation seen fed_grid = Ok (state, 2, seen)) as H2
    by (vm_compute; reflexivity).
  repeat (split; [assumption|]).
  destruct (get_observation_once _ _ _ _ _ _ _ _ H1 H2) as (_ & _ & H).
  exact H.
Defined.

Lemma get_observation_total_witness :
  arena corner_bot_grid /\ live (snake corner_bot)
  /\ owns (snake corner_bot) corner_bot_grid
  /\ Grid_of_type corner_bot_grid FRUIT = []
  /\ get_observation corner_bot corner_bot_grid = Raise IndexError.
Proof.
  destruct corner_bot_invariant as (Ha & Hl & Ho).
  repeat (split; [assumption|]).
  destruct (get_observation_total corner_bot corner_bot_grid Ha Hl Ho)
    as [(Hf & _)|(Hf & He)].
  - exfalso. apply Hf. vm_compute. reflexivity.
  - auto.
Defined.

Lemma replay_memory_window_witness :
  let t1 : Transition := (replicate 15 (Int 0), 0, 2, replicate 15 (Int 1), false) in
  let t2 : Transition := (replicate 15 (Int 1), 1, -3, replicate 15 (Int 2), false) in
  let t3 : Transition := (replicate 15 (Int 2), 2, 10, replicate 15 (Int 3), false) in
  let new := {| n_actions := 6; gamma := 99 # 100; epsilon := 1;
                epsilon_delta := default_epsilon_delta;
                epsilon_final := default_epsilon_final;
                batch_size := 1%nat; memory_size := 2; memory := [];
                model := tt |} in
  DQNetwork_init (99 # 100) 6 1 1 default_epsilon_delta
                 default_epsilon_final 2 tt = Ok new
  /\ memory (fold_left store_transition [t1; t2; t3] new) = [t2; t3].
Proof.
  intros t1 t2 t3 new.
  assert (DQNetwork_init (99 # 100) 6 1 1 default_epsilon_delta
                         default_epsilon_final 2 tt = Ok new) as Hinit
    by reflexivity.
  split; [assumption|].
  exact (replay_memory_window _ _ _ _ _ _ _ _ _ [t1; t2; t3] Hinit).
Defined.

Lemma choose_action_valid_witness :
  n_actions corner_net = 6
  /\ choose_action flat_predict corner_net (replicate 15 (Int 0)) 1 0 = Ok 5
  /\ exists bot', Bot_update_direction corner_bot 5 = Ok bot'.
Proof.
  assert (n_actions corner_net = 6) as Hn by reflexivity.
  assert (choose_action flat_predict corner_net (replicate 15 (Int 0)) 1 0
          = Ok 5) as Hact by (vm_compute; reflexivity).
  repeat (split; [assumption|]).
  destruct (choose_action_valid flat_predict corner_net (replicate 15 (Int 0)) 1 0 5 corner_bot Hn)
    as (_ & _ & H).
  - intros row rest [= <- _]. reflexivity.
  - exact Hact.
  - exact H.
Defined.

Lemma tick_keeps_game_witness :
  let game' := {| game_mode := SINGLE; grid := stepped_grid;
                  players := [Human stepped_snake] |} in
  game_ok (players corner_game) (grid corner_game)
  /\ tick flat_predict corner_net corner_game key_e = Ok game'
  /\ game_ok (players game') (grid game').
Proof.
  intros game'.
  destruct corner_game_invariant as (Ha & Hl & Ho).
  assert (game_ok (players corner_game) (grid corner_game)) as Hok
    by (apply game_ok_single; assumption).
  assert (tick flat_predict corner_net corner_game key_e = Ok game') as Htick
    by (vm_compute; reflexivity).
  repeat (split; [assumption|]).
  destruct (tick_keeps_game _ _ _ _ _ Hok Htick) as (Hok' & _).
  exact Hok'.
Defined.

Lemma train_target_rule_witness :
  let t : Transition := (replicate 15 (Int 0), 2, 2, replicate 15 (Int 1), true) in
  q_target_of flat_predict corner_net [t] = Ok [[0; 0; 299 # 100; 0; 0; 1]%Q]
  /\ exists row next_row m j target,
       flat_predict (model corner_net) (states_of [t]) !! 0%nat = Some row
       /\ flat_predict (model corner_net) (next_states_of [t]) !! 0%nat
          = Some next_row
       /\ row_max next_row = Ok m
       /\ np_index (length row) 2 = Ok j
       /\ [[0; 0; 299 # 100; 0; 0; 1]%Q] !! 0%nat = Some target
       /\ target !! j
          = Some (inject_Z 2 + gamma corner_net * m * Q_of_bool true)%Q
       /\ forall k, k <> j -> target !! k = row !! k.
Proof.
  intros t.
  assert (q_target_of flat_predict corner_net [t]
          = Ok [[0; 0; 299 # 100; 0; 0; 1]%Q]) as H
    by (vm_compute; reflexivity).
  split; [assumption|].
  exact (train_target_rule flat_predict corner_net [t] _ H 0%nat _ _ _ _ _
           eq_refl).
Defined.



Lemma train_steps_cold_witness :
  (length (memory corner_net) < 1000)%nat
  /\ train_steps flat_predict log_batch corner_net [seq 0 32; []]
     = Ok corner_net.
Proof.
  assert (length (memory corner_net) < 1000)%nat as Hm by (cbn; lia).
  split; [exact Hm|].
  exact (train_steps_cold flat_predict log_batch [seq 0 32; []] corner_net Hm).
Defined.

Lemma Game_init_spec_witness :
  exists game s,
    Game_init 11 29 SINGLE = Ok game
    /\ players game = [Human s]
    /\ _head s = (9, 1)
    /\ arena (grid game) /\ live s /\ owns s (grid game)
    /\ fruits (grid game) = 0%nat.
Proof.
  destruct (Game_init_spec 11 29) as [_ H].
  destruct (H ltac:(lia) ltac:(lia))
    as (game & s & Hinit & Hp & Hh & _ & _ & _ & Ha & Hl & Ho & Hf).
  exists game, s. auto 10.
Defined.

Lemma _insert_fruit_spec_witness :
  Grid_wf corner_grid
  /\ exists g',
       _insert_fruit corner_grid 0 = Ok g'
       /\ fruits g' = S (fruits corner_grid).
Proof.
  destruct corner_game_invariant as ((Hwf & _) & _).
  split; [exact Hwf|].
  destruct (_insert_fruit_spec corner_grid 0)
    as [(Hnil & _)|(cell & g' & _ & Hok & _ & _ & H)].
  - exfalso. vm_compute in Hnil. discriminate.
  - exists g'. split; [exact Hok|]. apply H, Hwf.
Defined.

Lemma episode_turn_keeps_game_witness :
  arena (ep_grid fed_episode)
  /\ live (snake (ep_bot fed_episode))
  /\ owns (snake (ep_bot fed_episode)) (ep_grid fed_episode)
  /\ episode_turn flat_predict log_batch fed_episode 0 2 0 [] = Ok next_episode
  /\ arena (ep_grid next_episode)
  /\ fruits (ep_grid next_episode) = fruits (ep_grid fed_episode)
  /\ _lost (snake (ep_bot next_episode)) = false
  /\ owns (snake (ep_bot next_episode)) (ep_grid next_episode).
Proof.
  destruct corner_bot_invariant as (Hc & _).
  assert (arena fed_grid) as Ha.
  { unfold fed_grid.
    do 3 (apply arena_assign; [|vm_compute; discriminate]). exact Hc. }
  assert (live (snake fed_bot)) as Hl
    by (split; [reflexivity | exists [(9, 27)]; reflexivity]).
  assert (owns (snake fed_bot) fed_grid) as Ho.
  { split; [now right|]. split.
    - constructor; [intros [H|[]]; discriminate|].
      constructor; [intros []|constructor].
    - intros ? [<-|[<-|[]]]; vm_compute; reflexivity. }
  assert (episode_turn flat_predict log_batch fed_episode 0 2 0 []
          = Ok next_episode) as Hturn by (vm_compute; reflexivity).
  split; [exact Ha|]. split; [exact Hl|]. split; [exact Ho|].
  split; [exact Hturn|].
  assert (0 < memory_size (ep_model fed_episode)) as Hcap by reflexivity.
  destruct (episode_turn_keeps_game flat_predict log_batch fed_episode
              next_episode 0 2 0 [] Ha Hl Ho Hcap Hturn)
    as (Ha' & Hfr & Hkeep & _).
  assert (_lost (snake (ep_bot next_episode)) = false) as Hlost
    by (vm_compute; reflexivity).
  split; [exact Ha'|]. split; [exact Hfr|]. split; [exact Hlost|].
  apply Hkeep, Hlost.
Defined.

Lemma add_obstacles_spec_witness :
  arena corner_bot_grid
  /\ (length (seq 0 10) <= length (Grid_of_type corner_bot_grid NORMAL))%nat
  /\ exists g',
       add_obstacles corner_bot_grid (seq 0 10) = Ok g'
       /\ length (Grid_of_type g' BOT) = 11%nat
       /\ type_at g' (9, 27) = Ok BOT.
Proof.
  destruct corner_bot_invariant as (Ha & _).
  assert (length (seq 0 10) <= length (Grid_of_type corner_bot_grid NORMAL))%nat
    as Hlen by (apply Nat.leb_le; vm_compute; reflexivity).
  split; [exact Ha|]. split; [exact Hlen|].
  destruct (add_obstacles_spec corner_bot_grid (seq 0 10) Ha Hlen)
    as (g' & Hrun & _ & _ & Hb & _ & Hkeep).
  exists g'. split; [exact Hrun|]. split.
  - rewrite Hb. vm_compute. reflexivity.
  - apply Hkeep; [vm_compute; reflexivity | discriminate].
Defined.

(** ** The reward far from the fruit *)

Lemma Grid_of_type_assign_new (g : Grid) (r : Ref) (v : Cell.CType)
    (c : Cell.t) :
  Grid_wf g -> Grid_at g r = Ok c -> Grid_of_type g v = [] ->
  Grid_of_type (assign_type g r v) v = [Cell.set_cell_type c v].
Proof.
  intros Hwf Hat Hnone. apply Grid_at_Ok in Hat as [Href Hin].
  assert (Cell.eqb v v = true) as Hvv by (destruct v; reflexivity).
  unfold Grid_wf, Grid_of_type, assign_type in *; cbn [cells].
  induction (cells g) as [|a l IH]; [destruct Hin|].
  cbn [map] in Hwf. apply NoDup_cons_iff in Hwf as [Hfresh Hnd].
  cbn [List.filter] in Hnone.
  destruct (Cell.eqb (Cell.cell_type a) v) eqn:Ha; [discriminate|].
  cbn [map]. destruct Hin as [->|Hin].
  - apply Ref_eqb_eq in Href as E. rewrite E.
    rewrite map_assign_absent by now rewrite <- Href.
    cbn [List.filter Cell.set_cell_type Cell.cell_type].
    rewrite Hvv, Hnone. reflexivity.
  - destruct (Ref_eqb (ref a) r) eqn:E.
    + exfalso. apply Ref_eqb_eq in E. apply Hfresh.
      rewrite E, <- Href. now apply in_map.
    + cbn [List.filter]. rewrite Ha. exact (IH Hnd Hin Hnone).
Qed.

Lemma assign_keeps_none (g : Grid) (r : Ref) (v t : Cell.CType) (c : Cell.t) :
  Grid_wf g -> Grid_at g r = Ok c -> Cell.eqb v t = false ->
  Grid_of_type g t = [] -> Grid_of_type (assign_type g r v) t = [].
Proof.
  intros Hwf Hat Hv Hnone.
  pose proof (assign_count g r v t c Hwf Hat) as H.
  rewrite Hv, Hnone in H.
  destruct (Grid_of_type (assign_type g r v) t); [reflexivity|].
  cbn [length] in H. destruct (Cell.eqb _ _); lia.
Qed.

Lemma assign_keeps_list (g : Grid) (r : Ref) (v t : Cell.CType) (c : Cell.t) :
  Grid_wf g -> Grid_at g r = Ok c ->
  Cell.eqb (Cell.cell_type c) t = false -> Cell.eqb v t = false ->
  Grid_of_type (assign_type g r v) t = Grid_of_type g t.
Proof.
  intros Hwf Hat Hc Hv. apply Grid_at_Ok in Hat as [Href Hin].
  unfold Grid_wf, Grid_of_type, assign_type in *; cbn [cells].
  induction (cells g) as [|a l IH]; [destruct Hin|].
  cbn [map] in Hwf. apply NoDup_cons_iff in Hwf as [Hfresh Hnd].
  cbn [map]. destruct Hin as [->|Hin].
  - apply Ref_eqb_eq in Href as E. rewrite E.
    rewrite map_assign_absent by now rewrite <- Href.
    cbn [List.filter Cell.set_cell_type Cell.cell_type].
    now rewrite Hv, Hc.
  - destruct (Ref_eqb (ref a) r) eqn:E.
    + exfalso. apply Ref_eqb_eq in E. apply Hfresh.
      rewrite E, <- Href. now apply in_map.
    + cbn [List.filter]. rewrite (IH Hnd Hin). reflexivity.
Qed.

Lemma Grid_init_no_fruit (nr nc : Z) : Grid_of_type (Grid_init nr nc) FRUIT = [].
Proof.
  pose proof (Grid_init_fruits nr nc) as H. unfold fruits in H.
  now apply length_zero_iff_nil.
Qed.

Lemma Bot_init_grid (g : Grid) (head : Cell.t) (d : Direction)
    (t : Cell.CType) :
  snd (Bot_init g head d t) = assign_type g (ref head) t.
Proof. reflexivity. Qed.

Ltac far_apart := apply Ref_eqb_neq; vm_compute; reflexivity.


Lemma far_placed_spec :
  arena far_placed
  /\ Grid_at far_placed (far_rows - 2, 4) = Ok (Cell.mk (far_rows - 2) 4 BOT)
  /\ Grid_at far_placed (1, 3) = Ok (Cell.mk 1 3 NORMAL)
  /\ Grid_at far_placed (far_rows - 2, 3)
     = Ok (Cell.mk (far_rows - 2) 3 NORMAL)
  /\ Grid_of_type far_placed FRUIT = [].
Proof.
  assert (Grid_at (Grid_init far_rows 6) (far_rows - 2, 4)
          = Ok (Cell.mk (far_rows - 2) 4 NORMAL)) as Hstart
    by (rewrite Grid_init_at; vm_compute; reflexivity).
  unfold far_placed. rewrite Bot_init_grid.
  change (ref (Cell.mk (far_rows - 2) 4 NORMAL)) with (far_rows - 2, 4).
  split; [|split; [|split; [|split]]].
  - apply arena_assign; [apply arena_Grid_init|].
    unfold type_at. rewrite Hstart. discriminate.
  - exact (Grid_at_assign_same _ _ BOT _ Hstart).
  - rewrite Grid_at_assign_other by far_apart.
    rewrite Grid_init_at. vm_compute. reflexivity.
  - rewrite Grid_at_assign_other by far_apart.
    rewrite Grid_init_at. vm_compute. reflexivity.
  - exact (assign_keeps_none _ _ BOT FRUIT _ (Grid_init_wf far_rows 6)
             Hstart eq_refl (Grid_init_no_fruit far_rows 6)).
Qed.

Lemma far_start_grid_spec :
  arena far_start_grid
  /\ Grid_at far_start_grid (far_rows - 2, 4)
     = Ok (Cell.mk (far_rows - 2) 4 BOT)
  /\ Grid_at far_start_grid (far_rows - 2, 3)
     = Ok (Cell.mk (far_rows - 2) 3 NORMAL)
  /\ Grid_of_type far_start_grid FRUIT = [Cell.mk 1 3 FRUIT].
Proof.
  destruct far_placed_spec as (Ha & Hbot & Hfruit & Hnext & Hnone).
  unfold far_start_grid. split; [|split; [|split]].
  - apply arena_assign; [exact Ha|].
    unfold type_at. rewrite Hfruit. discriminate.
  - rewrite Grid_at_assign_other by far_apart. exact Hbot.
  - rewrite Grid_at_assign_other by far_apart. exact Hnext.
  - exact (Grid_of_type_assign_new _ (1, 3) FRUIT _ (proj1 Ha) Hfruit Hnone).
Qed.

Lemma far_grid_spec :
  arena far_grid
  /\ type_at far_grid (far_rows - 2, 3) = Ok BOT
  /\ Grid_of_type far_grid FRUIT = [Cell.mk 1 3 FRUIT].
Proof.
  destruct far_start_grid_spec as (Ha & Htail & Hnext & Hfruit).
  set (released := assign_type far_start_grid (far_rows - 2, 4) NORMAL).
  assert (arena released) as Har.
  { apply arena_assign; [exact Ha|].
    unfold type_at. rewrite Htail. discriminate. }
  assert (Grid_at released (far_rows - 2, 3)
          = Ok (Cell.mk (far_rows - 2) 3 NORMAL)) as Hnext'.
  { unfold released. rewrite Grid_at_assign_other by far_apart. exact Hnext. }
  unfold far_grid. fold released. split; [|split].
  - apply arena_assign; [exact Har|].
    unfold type_at. rewrite Hnext'. discriminate.
  - exact (type_at_assign_same _ _ BOT _ Hnext').
  - rewrite (assign_keeps_list released _ BOT FRUIT _ (proj1 Har) Hnext'
               eq_refl eq_refl).
    unfold released.
    rewrite (assign_keeps_list far_start_grid _ NORMAL FRUIT _ (proj1 Ha)
               Htail eq_refl eq_refl).
    exact Hfruit.
Qed.

Lemma far_move (rnd : nat) :
  move (snake far_start) far_start_grid rnd = Ok (snake far_bot, far_grid).
Proof.
  destruct far_start_grid_spec as (_ & _ & Hnext & _).
  rewrite (move_unfold (snake far_start) far_start_grid rnd
             (far_rows - 2, 4) (far_rows - 2, 4) []
             (Cell.mk (far_rows - 2) 3 NORMAL) eq_refl eq_refl Hnext).
  reflexivity.
Qed.

(** C7 as stated fails far from the fruit. On a grid of 2^27 + 3 rows the
    bot steps from [(rows - 2, 4)] to [(rows - 2, 3)], into the column of
    the fruit at (1,3): the squared distance goes from 2^54 + 1 to 2^54,
    the Euclidean distance has strictly decreased, the score has not
    changed - and the reward is -3, because [float(2^54 + 1)] is 2^54: the
    two distances are the same binary64 number. *)
Lemma far_fruit_distance_collides :
  Grid_at (Grid_init far_rows 6) (far_rows - 2, 6 - 2)
  = Ok (Cell.mk (far_rows - 2) 4 NORMAL)
  /\ List.In (Cell.mk 1 3 NORMAL) (Grid_of_type far_placed NORMAL)
  /\ (forall rnd,
        move (snake far_start) far_start_grid rnd
        = Ok (snake far_bot, far_grid))
  /\ __previous_score far_bot = __previous_score far_start
  /\ arena far_grid
  /\ live (snake far_bot)
  /\ owns (snake far_bot) far_grid
  /\ Grid_of_type far_grid FRUIT = [Cell.mk 1 3 FRUIT]
  /\ _score (snake far_bot) <= __previous_score far_bot
  /\ sq_dist (1, 3) (_head (snake far_bot)) = 2 ^ 54
  /\ sq_dist (1, 3) (_previous_head (snake far_bot)) = 2 ^ 54 + 1
  /\ (euclid (1, 3)%Z (_head (snake far_bot))
      < euclid (1, 3)%Z (_previous_head (snake far_bot)))%R
  /\ float_of_int (2 ^ 54 + 1) = float_of_int (2 ^ 54)
  /\ exists state self',
       get_observation far_bot far_grid = Ok (state, -3, self').
Proof.
  destruct far_placed_spec as (_ & _ & Hpick & _).
  destruct far_grid_spec as (Ha & Hhead & Hfruit).
  assert (live (snake far_bot)) as Hl
    by (split; [reflexivity | exists []; reflexivity]).
  assert (owns (snake far_bot) far_grid) as Ho.
  { split; [now right|]. split.
    - constructor; [intros [] | constructor].
    - intros r [<-|[]]. exact Hhead. }
  split; [rewrite Grid_init_at; vm_compute; reflexivity|].
  split.
  { apply Grid_of_type_In. split; [|reflexivity].
    now apply Grid_at_Ok in Hpick as [_ Hin]. }
  split; [exact far_move|]. split; [reflexivity|].
  split; [exact Ha|]. split; [exact Hl|]. split; [exact Ho|].
  split; [exact Hfruit|].
  split; [discriminate|].
  split; [vm_compute; reflexivity|]. split; [vm_compute; reflexivity|].
  split; [apply euclid_lt; vm_compute; reflexivity|].
  split; [vm_compute; reflexivity|].
  pose proof (owns_head_inside _ _ Ha Hl Ho) as Hin.
  destruct (blocked_flags_Ok (snake far_bot) far_grid Direction_members)
    as [flags Hflags].
  { intros d. destruct Ha as (_ & Hdom & _). apply Hdom.
    unfold inside, in_grid in *. cbn [fst snd].
    rewrite _head_position_change_table.
    destruct d, (Z.even (snd (_head (snake far_bot))));
      cbn [column_parity_delta fst snd]; lia. }
  assert (reward_of far_bot (1, 3) = (-3, 0)) as Hreward
    by (vm_compute; reflexivity).
  unfold get_observation. rewrite Hflags, Hfruit. cbn [bind].
  change (ref (Cell.mk 1 3 FRUIT)) with (1, 3). rewrite Hreward.
  eexists _, _. reflexivity.
Qed.
